(** * A Rocq model of the web crawler's frontier, extractor, store and loop

    The development follows the Python sources module by module:
    [utils/helpers.py], [config.py], [crawler/content_processor.py],
    [utils/database.py], [crawler/url_manager.py] and
    [crawler/core_crawler.py].  Library calls the sources make
    ([hashlib.md5], [re], [urllib.parse], the BeautifulSoup tree API, the
    Redis sorted-set and set commands, the SQL statements) are given
    executable models of their documented behaviour, so that every function
    can be evaluated on concrete inputs.

    Text is ASCII throughout: a Python [str] is modelled by a Rocq [string]
    with one character per byte, so [len] is the string length and
    [str.encode()] is the identity on bytes. *)

From Stdlib Require Import NArith ZArith QArith List Ascii String Bool Lia.
From stdpp Require Import gmap strings list fin_maps sorting.

Local Open Scope string_scope.
Set Warnings "-register-all,-clear-no-such-hyp".

(* ===================================================================== *)
(** * [hashlib.md5(...).hexdigest()] (RFC 1321)                           *)
(* ===================================================================== *)

Module Md5.

Local Open Scope N_scope.

Definition w32 (x : N) : N := N.land x 0xffffffff.

Definition add32 (x y : N) : N := w32 (x + y).

Definition not32 (x : N) : N := N.lxor (w32 x) 0xffffffff.

Definition rotl (x c : N) : N :=
  w32 (N.lor (N.shiftl x c) (N.shiftr (w32 x) (32 - c))).

(** Per-round shift amounts. *)
Definition s_table : list N :=
  [7; 12; 17; 22; 7; 12; 17; 22; 7; 12; 17; 22; 7; 12; 17; 22;
   5; 9; 14; 20; 5; 9; 14; 20; 5; 9; 14; 20; 5; 9; 14; 20;
   4; 11; 16; 23; 4; 11; 16; 23; 4; 11; 16; 23; 4; 11; 16; 23;
   6; 10; 15; 21; 6; 10; 15; 21; 6; 10; 15; 21; 6; 10; 15; 21].

(** [floor (2^32 * abs (sin (i + 1)))] for [i] in 0..63. *)
Definition k_table : list N :=
  [0xd76aa478; 0xe8c7b756; 0x242070db; 0xc1bdceee;
   0xf57c0faf; 0x4787c62a; 0xa8304613; 0xfd469501;
   0x698098d8; 0x8b44f7af; 0xffff5bb1; 0x895cd7be;
   0x6b901122; 0xfd987193; 0xa679438e; 0x49b40821;
   0xf61e2562; 0xc040b340; 0x265e5a51; 0xe9b6c7aa;
   0xd62f105d; 0x02441453; 0xd8a1e681; 0xe7d3fbc8;
   0x21e1cde6; 0xc33707d6; 0xf4d50d87; 0x455a14ed;
   0xa9e3e905; 0xfcefa3f8; 0x676f02d9; 0x8d2a4c8a;
   0xfffa3942; 0x8771f681; 0x6d9d6122; 0xfde5380c;
   0xa4beea44; 0x4bdecfa9; 0xf6bb4b60; 0xbebfbc70;
   0x289b7ec6; 0xeaa127fa; 0xd4ef3085; 0x04881d05;
   0xd9d4d039; 0xe6db99e5; 0x1fa27cf8; 0xc4ac5665;
   0xf4292244; 0x432aff97; 0xab9423a7; 0xfc93a039;
   0x655b59c3; 0x8f0ccc92; 0xffeff47d; 0x85845dd1;
   0x6fa87e4f; 0xfe2ce6e0; 0xa3014314; 0x4e0811a1;
   0xf7537e82; 0xbd3af235; 0x2ad7d2bb; 0xeb86d391].

Record state := St { sa : N; sb : N; sc : N; sd : N }.

Definition init : state :=
  St 0x67452301 0xefcdab89 0x98badcfe 0x10325476.

(** The round function and the message-word index of step [i]. *)
Definition mix (i b c d : N) : N * N :=
  if i <? 16 then (N.lor (N.land b c) (N.land (not32 b) d), i)
  else if i <? 32 then
    (N.lor (N.land d b) (N.land (not32 d) c), (5 * i + 1) mod 16)
  else if i <? 48 then (N.lxor b (N.lxor c d), (3 * i + 5) mod 16)
  else (N.lxor c (N.lor b (not32 d)), (7 * i) mod 16).

Definition step (m : list N) (st : state) (i : N) : state :=
  let '(f, g) := mix i (sb st) (sc st) (sd st) in
  let f' :=
    add32 (add32 (add32 f (sa st)) (nth (N.to_nat i) k_table 0))
          (nth (N.to_nat g) m 0) in
  St (sd st)
     (add32 (sb st) (rotl f' (nth (N.to_nat i) s_table 0)))
     (sb st) (sc st).

Definition indices : list N := map N.of_nat (seq 0 64).

Definition compress (st : state) (m : list N) : state :=
  let r := fold_left (step m) indices st in
  St (add32 (sa st) (sa r)) (add32 (sb st) (sb r))
     (add32 (sc st) (sc r)) (add32 (sd st) (sd r)).

(** Little-endian bytes of a word, and back. *)
Fixpoint le_bytes (n : nat) (x : N) : list N :=
  match n with
  | O => []
  | S n' => (x mod 256) :: le_bytes n' (x / 256)
  end.

Fixpoint le_word (bs : list N) : N :=
  match bs with
  | [] => 0
  | b :: bs' => b + 256 * le_word bs'
  end.

Fixpoint words (n : nat) (bs : list N) : list N :=
  match n with
  | O => []
  | S n' => le_word (firstn 4 bs) :: words n' (skipn 4 bs)
  end.

(** Message padding: a [0x80] byte, zeros up to 56 modulo 64, then the
    bit length as a 64-bit little-endian integer. *)
Definition pad (msg : list N) : list N :=
  let len := N.of_nat (length msg) in
  let zeros := N.to_nat ((64 + 55 - len mod 64) mod 64) in
  msg ++ [0x80] ++ repeat 0 zeros ++ le_bytes 8 ((8 * len) mod 2 ^ 64).

Fixpoint blocks (n : nat) (bs : list N) (st : state) : state :=
  match n with
  | O => st
  | S n' => blocks n' (skipn 64 bs) (compress st (words 16 (firstn 64 bs)))
  end.

Definition digest (msg : list N) : list N :=
  let p := pad msg in
  let r := blocks (length p / 64) p init in
  le_bytes 4 (sa r) ++ le_bytes 4 (sb r) ++ le_bytes 4 (sc r)
    ++ le_bytes 4 (sd r).

Definition hex_digit (n : N) : ascii :=
  if n <? 10 then ascii_of_N (48 + n) else ascii_of_N (87 + n).

Fixpoint hex (bs : list N) : string :=
  match bs with
  | [] => EmptyString
  | b :: bs' => String (hex_digit (b / 16)) (String (hex_digit (b mod 16)) (hex bs'))
  end.

Definition bytes_of (s : string) : list N :=
  map N_of_ascii (list_ascii_of_string s).

(** [hashlib.md5(s.encode()).hexdigest()] *)
Definition hexdigest (s : string) : string := hex (digest (bytes_of s)).

End Md5.

(* ===================================================================== *)
(** * Python [str] methods used by the sources                            *)
(* ===================================================================== *)

Module Py.

Definition code (c : ascii) : nat := nat_of_ascii c.

Definition in_range (lo hi : nat) (c : ascii) : bool :=
  (lo <=? code c)%nat && (code c <=? hi)%nat.

Definition is_upper (c : ascii) : bool := in_range 65 90 c.
Definition is_lower (c : ascii) : bool := in_range 97 122 c.
Definition is_digit (c : ascii) : bool := in_range 48 57 c.
Definition is_alpha (c : ascii) : bool := is_upper c || is_lower c.

(** [str.isspace] on ASCII: tab, LF, VT, FF, CR, FS, GS, RS, US, space. *)
Definition is_space (c : ascii) : bool :=
  in_range 9 13 c || in_range 28 32 c.

(** [\w] on ASCII. *)
Definition is_word (c : ascii) : bool :=
  is_alpha c || is_digit c || (code c =? 95)%nat.

Definition lower_char (c : ascii) : ascii :=
  if is_upper c then ascii_of_nat (code c + 32) else c.

(** [s.lower()] *)
Fixpoint lower (s : string) : string :=
  match s with
  | EmptyString => EmptyString
  | String c s' => String (lower_char c) (lower s')
  end.

(** [c in s] for a single character [c] *)
Fixpoint mem (c : ascii) (s : string) : bool :=
  match s with
  | EmptyString => false
  | String d s' => Ascii.eqb c d || mem c s'
  end.

(** [s.startswith(p)] *)
Fixpoint startswith (s p : string) {struct p} : bool :=
  match p, s with
  | EmptyString, _ => true
  | String a p', String b s' => Ascii.eqb a b && startswith s' p'
  | String _ _, EmptyString => false
  end.

(** [sub in s] *)
Fixpoint contains (sub s : string) : bool :=
  startswith s sub ||
  match s with
  | EmptyString => false
  | String _ s' => contains sub s'
  end.

(** [s.endswith(suf)] *)
Fixpoint endswith (s suf : string) : bool :=
  String.eqb s suf ||
  match s with
  | EmptyString => false
  | String _ s' => endswith s' suf
  end.

(** The longest prefix of [s] with no character satisfying [stop], and
    the rest of [s] from the first such character on. *)
Fixpoint span (stop : ascii -> bool) (s : string) : string * string :=
  match s with
  | EmptyString => (EmptyString, EmptyString)
  | String c s' =>
      if stop c then (EmptyString, s)
      else let '(a, b) := span stop s' in (String c a, b)
  end.

(** [s.split(c, 1)] when [c in s]: the text before and after the first
    [c]; [None] when [c] does not occur. *)
Fixpoint split1 (c : ascii) (s : string) : option (string * string) :=
  match s with
  | EmptyString => None
  | String d s' =>
      if Ascii.eqb c d then Some (EmptyString, s')
      else match split1 c s' with
           | Some (a, b) => Some (String d a, b)
           | None => None
           end
  end.

(** [s.split(c)] for a one-character separator *)
Fixpoint split (c : ascii) (s : string) : list string :=
  match s with
  | EmptyString => [EmptyString]
  | String d s' =>
      match split c s' with
      | [] => []
      | w :: ws =>
          if Ascii.eqb c d then EmptyString :: w :: ws
          else String d w :: ws
      end
  end.

(** [sep.join(l)] *)
Fixpoint join (sep : string) (l : list string) : string :=
  match l with
  | [] => EmptyString
  | [w] => w
  | w :: ws => w ++ sep ++ join sep ws
  end.

(** [s.lstrip(chars)] and [s.rstrip(chars)] for a character class *)
Fixpoint lstrip (p : ascii -> bool) (s : string) : string :=
  match s with
  | EmptyString => EmptyString
  | String c s' => if p c then lstrip p s' else s
  end.

Fixpoint rstrip (p : ascii -> bool) (s : string) : string :=
  match s with
  | EmptyString => EmptyString
  | String c s' =>
      match rstrip p s' with
      | EmptyString => if p c then EmptyString else String c EmptyString
      | r => String c r
      end
  end.

(** [s.strip()] *)
Definition strip (s : string) : string := rstrip is_space (lstrip is_space s).

(** Deleting every character of a class: [s.replace(c, "")] for each [c]
    of the class, or [re.sub("[class]", "", s)]. *)
Fixpoint remove (p : ascii -> bool) (s : string) : string :=
  match s with
  | EmptyString => EmptyString
  | String c s' => if p c then remove p s' else String c (remove p s')
  end.

(** [s.split()]: the maximal runs of non-whitespace characters. *)
Fixpoint words_aux (cur : string) (s : string) : list string :=
  match s with
  | EmptyString => match cur with EmptyString => [] | _ => [cur] end
  | String c s' =>
      if is_space c
      then match cur with
           | EmptyString => words_aux EmptyString s'
           | _ => cur :: words_aux EmptyString s'
           end
      else words_aux (cur ++ String c EmptyString) s'
  end.

Definition words (s : string) : list string := words_aux EmptyString s.

(** [s[:n]] *)
Fixpoint take (n : nat) (s : string) : string :=
  match n, s with
  | S n', String c s' => String c (take n' s')
  | _, _ => EmptyString
  end.

(** Every character of [s] satisfies [p]. *)
Fixpoint all_chars (p : ascii -> bool) (s : string) : bool :=
  match s with
  | EmptyString => true
  | String c s' => p c && all_chars p s'
  end.

(** [x in l] for a list of strings *)
Definition in_list (x : string) (l : list string) : bool :=
  existsb (String.eqb x) l.

(** [s.rfind(c)]: the index of the last [c] in [s]; [None] stands for
    the result [-1]. *)
Fixpoint rfind (c : ascii) (s : string) : option nat :=
  match s with
  | EmptyString => None
  | String d s' =>
      match rfind c s' with
      | Some i => Some (S i)
      | None => if Ascii.eqb c d then Some O else None
      end
  end.

(** The maximal runs of characters of a class, in the order of the text. *)
Fixpoint runs_aux (p : ascii -> bool) (cur : string) (s : string)
  : list string :=
  match s with
  | EmptyString => match cur with EmptyString => [] | _ => [cur] end
  | String c s' =>
      if p c then runs_aux p (cur ++ String c EmptyString) s'
      else match cur with
           | EmptyString => runs_aux p EmptyString s'
           | _ => cur :: runs_aux p EmptyString s'
           end
  end.

Definition runs (p : ascii -> bool) (s : string) : list string :=
  runs_aux p EmptyString s.

End Py.

(* ===================================================================== *)
(** * The [re] module: patterns and a backtracking matcher                *)
(* ===================================================================== *)

Module Re.

(** Compiled patterns.  Character classes are predicates, so the
    [IGNORECASE] flag is folded into the classes when a pattern is built. *)
Inductive re : Type :=
| Eps
| Chr (p : ascii -> bool)
| Cat (a b : re)
| Alt (a b : re)
| Star (a : re).

(** [run r s k]: some prefix of [s] matches [r] and the rest satisfies the
    continuation [k].  An iteration of a starred pattern has to consume
    input, as in the [re] engine. *)
Fixpoint run (r : re) (s : string) (k : string -> bool) {struct r} : bool :=
  match r with
  | Eps => k s
  | Chr p =>
      match s with
      | String c s' => if p c then k s' else false
      | EmptyString => false
      end
  | Cat a b => run a s (fun s' => run b s' k)
  | Alt a b => if run a s k then true else run b s k
  | Star a =>
      (fix loop (n : nat) (s : string) {struct n} : bool :=
         match n with
         | O => k s
         | S n' =>
             if run a s (fun s' =>
                  if (String.length s' <? String.length s)%nat
                  then loop n' s' else false)
             then true else k s
         end) (String.length s) s
  end.

Definition opt (r : re) : re := Alt r Eps.
Definition plus (r : re) : re := Cat r (Star r).

(** [r{n}] and [r{0,n}] *)
Fixpoint rep (n : nat) (r : re) : re :=
  match n with
  | O => Eps
  | S n' => Cat r (rep n' r)
  end.

Fixpoint upto (n : nat) (r : re) : re :=
  match n with
  | O => Eps
  | S n' => opt (Cat r (upto n' r))
  end.

(** [r{lo,hi}] *)
Definition between (lo hi : nat) (r : re) : re :=
  Cat (rep lo r) (upto (hi - lo) r).

(** A literal, under [re.IGNORECASE] *)
Fixpoint lit_i (s : string) : re :=
  match s with
  | EmptyString => Eps
  | String c s' =>
      Cat (Chr (fun d => Ascii.eqb (Py.lower_char d) (Py.lower_char c)))
          (lit_i s')
  end.

(** [pattern.match(s)] for a pattern that ends in [$]: the match starts
    at the beginning of [s] and ends at its end or just before a final
    newline. *)
Definition match_to_end (r : re) (s : string) : bool :=
  run r s (fun rest =>
    if String.eqb rest EmptyString then true
    else String.eqb rest (String (ascii_of_nat 10) EmptyString)).

(** [re.search(r, s)]: the pattern matches somewhere in [s]. *)
Fixpoint search (r : re) (s : string) : bool :=
  if run r s (fun _ => true) then true
  else
    match s with
    | EmptyString => false
    | String _ s' => search r s'
    end.

End Re.

(* ===================================================================== *)
(** * [urllib.parse]: [urlparse] and [urlunparse] (CPython 3.11)          *)
(* ===================================================================== *)

Module UrlParse.

Record ParseResult := mkParse {
  scheme : string;
  netloc : string;
  path : string;
  params : string;
  query : string;
  fragment : string
}.

Definition uses_netloc : list string :=
  [""; "ftp"; "http"; "gopher"; "nntp"; "telnet"; "imap"; "wais"; "file";
   "mms"; "https"; "shttp"; "snews"; "prospero"; "rtsp"; "rtspu"; "rsync";
   "svn"; "svn+ssh"; "sftp"; "nfs"; "git"; "git+ssh"; "ws"; "wss"].

Definition uses_params : list string :=
  [""; "ftp"; "hdl"; "prospero"; "http"; "imap"; "https"; "shttp"; "rtsp";
   "rtspu"; "sip"; "sips"; "mms"; "sftp"; "tel"].

Definition is_scheme_char (c : ascii) : bool :=
  Py.is_alpha c || Py.is_digit c || Py.mem c "+-.".

(** [_WHATWG_C0_CONTROL_OR_SPACE] and [_UNSAFE_URL_BYTES_TO_REMOVE] *)
Definition is_c0_or_space (c : ascii) : bool := (Py.code c <=? 32)%nat.

Definition is_unsafe (c : ascii) : bool :=
  (Py.code c =? 9)%nat || (Py.code c =? 13)%nat || (Py.code c =? 10)%nat.

(** The scheme of [url], lowercased, and the text after its colon; the
    empty scheme and [url] itself when [url] has no scheme. *)
Definition split_scheme (url : string) : string * string :=
  match Py.split1 ":" url with
  | Some (String c pre, rest) =>
      if Py.is_alpha c && Py.all_chars is_scheme_char (String c pre)
      then (Py.lower (String c pre), rest)
      else (EmptyString, url)
  | _ => (EmptyString, url)
  end.

Definition is_delim (c : ascii) : bool := Py.mem c "/?#".

(** [_splitnetloc(url, 2)] for a [url] that starts with two slashes *)
Definition splitnetloc (url : string) : string * string :=
  match url with
  | String _ (String _ rest) => Py.span is_delim rest
  | _ => (EmptyString, url)
  end.

(** [netloc.rpartition('@')[2]] *)
Fixpoint after_last_at (s : string) : string :=
  match s with
  | EmptyString => EmptyString
  | String c s' =>
      if Py.mem "@" s' then after_last_at s'
      else if Ascii.eqb c "@" then s' else s
  end.

(** The bracket checks of [urlsplit]: [false] stands for the [ValueError]
    ("Invalid IPv6 URL").  The address between the brackets is handed to
    the [ipaddress] module by the library; that last validation is not
    modelled, a bracketed host that is well placed is accepted. *)
Definition brackets_ok (netloc : string) : bool :=
  let l := Py.mem "[" netloc in
  let r := Py.mem "]" netloc in
  if negb l && negb r then true
  else if negb (l && r) then false
  else
    match Py.split1 "[" (after_last_at netloc) with
    | Some (EmptyString, bracketed) =>
        match Py.split1 "]" bracketed with
        | Some (_, port) =>
            String.eqb port EmptyString || Py.startswith port ":"
        | None => true
        end
    | Some (_, _) => false
    | None => true
    end.

Record SplitResult := mkSplit {
  s_scheme : string;
  s_netloc : string;
  s_path : string;
  s_query : string;
  s_fragment : string
}.

(** [urlsplit(url)]; [None] when it raises [ValueError]. *)
Definition urlsplit (url : string) : option SplitResult :=
  let url := Py.lstrip is_c0_or_space url in
  let url := Py.remove is_unsafe url in
  let '(sch, url) := split_scheme url in
  let '(net, url) :=
    if Py.startswith url "//" then splitnetloc url else (EmptyString, url) in
  if negb (brackets_ok net) then None
  else
    let '(url, frag) :=
      match Py.split1 "#" url with
      | Some (a, b) => (a, b)
      | None => (url, EmptyString)
      end in
    let '(url, qry) :=
      match Py.split1 "?" url with
      | Some (a, b) => (a, b)
      | None => (url, EmptyString)
      end in
    Some (mkSplit sch net url qry frag).

(** [url[:k+1]] and [url[k+1:]] for [k = url.rfind('/')]. *)
Fixpoint rsplit_slash (url : string) : string * string :=
  match url with
  | EmptyString => (EmptyString, EmptyString)
  | String c s' =>
      let '(a, b) := rsplit_slash s' in
      match a with
      | EmptyString =>
          if Ascii.eqb c "/" then (String c EmptyString, b)
          else (EmptyString, String c b)
      | _ => (String c a, b)
      end
  end.

(** [_splitparams(url)]: the parameters are those of the last path segment. *)
Definition splitparams (url : string) : string * string :=
  let '(hd, tl) := rsplit_slash url in
  match Py.split1 ";" tl with
  | Some (a, b) => (hd ++ a, b)
  | None => (url, EmptyString)
  end.

Definition urlparse (url : string) : option ParseResult :=
  match urlsplit url with
  | None => None
  | Some r =>
      let '(p, prm) :=
        if Py.in_list (s_scheme r) uses_params && Py.mem ";" (s_path r)
        then splitparams (s_path r)
        else (s_path r, EmptyString) in
      Some (mkParse (s_scheme r) (s_netloc r) p prm (s_query r) (s_fragment r))
  end.

Definition nonempty (s : string) : bool :=
  match s with EmptyString => false | _ => true end.

Definition urlunsplit (sch net url qry frag : string) : string :=
  let url :=
    if nonempty net
       || (nonempty sch && Py.in_list sch uses_netloc
           && negb (Py.startswith url "//"))
    then
      let url :=
        if nonempty url && negb (Py.startswith url "/")
        then "/" ++ url else url in
      "//" ++ net ++ url
    else url in
  let url := if nonempty sch then sch ++ ":" ++ url else url in
  let url := if nonempty qry then url ++ "?" ++ qry else url in
  if nonempty frag then url ++ "#" ++ frag else url.

Definition urlunparse (r : ParseResult) : string :=
  let url :=
    if nonempty (params r) then path r ++ ";" ++ params r else path r in
  urlunsplit (scheme r) (netloc r) url (query r) (fragment r).

(** Components in the form [urlparse] delivers them for a URL with a host
    and without path parameters or fragment: a scheme that is empty or a
    lower-case scheme name, a non-empty host without delimiters, a path
    that is empty or starts with a slash, and no character that the
    parser would take for a delimiter or delete. *)
Definition is_safe (c : ascii) : bool := negb (is_unsafe c).

Definition scheme_ok (sch : string) : Prop :=
  sch = EmptyString
  \/ ((exists c s', sch = String c s' /\ Py.is_alpha c = true)
      /\ Py.all_chars is_scheme_char sch = true
      /\ Py.lower sch = sch).

Definition canonical (r : ParseResult) : Prop :=
  scheme_ok (scheme r)
  /\ (netloc r <> EmptyString
      /\ Py.all_chars (fun c => negb (is_delim c)) (netloc r) = true
      /\ brackets_ok (netloc r) = true
      /\ Py.all_chars is_safe (netloc r) = true)
  /\ ((path r = EmptyString \/ Py.startswith (path r) "/" = true)
      /\ Py.mem "?" (path r) = false /\ Py.mem "#" (path r) = false
      /\ Py.mem ";" (path r) = false
      /\ Py.all_chars is_safe (path r) = true)
  /\ params r = EmptyString
  /\ (Py.mem "#" (query r) = false /\ Py.all_chars is_safe (query r) = true)
  /\ fragment r = EmptyString.

End UrlParse.

(* ===================================================================== *)
(** * [config.py]                                                         *)
(* ===================================================================== *)

Module Config.

(** The settings the modelled functions read.  The URL patterns are kept
    in compiled form; the delay and the service URLs play no part in the
    functions below. *)
Record CrawlerConfig := mkConfig {
  MAX_PAGES : nat;
  REQUEST_TIMEOUT : nat;
  MAX_RETRIES : nat;
  USEFUL_URL_PATTERNS : list Re.re;
  EXCLUDED_EXTENSIONS : list string;
  MIN_CONTENT_LENGTH : nat
}.

(** [CrawlerConfig()] after [__post_init__] *)
Definition config : CrawlerConfig :=
  mkConfig 1000 30 3
    (map Re.lit_i
       ["/article/"; "/blog/"; "/news/"; "/post/";
        "/story/"; "/content/"; "/page/"])
    [".pdf"; ".jpg"; ".jpeg"; ".png"; ".gif";
     ".mp4"; ".avi"; ".zip"; ".exe"; ".css"; ".js"]
    100.

End Config.

(* ===================================================================== *)
(** * [utils/helpers.py]                                                  *)
(* ===================================================================== *)

Module Helpers.

Import Re.

Definition alnum : re := Chr (fun c => Py.is_alpha c || Py.is_digit c).
Definition alnum_dash : re :=
  Chr (fun c => Py.is_alpha c || Py.is_digit c || Ascii.eqb c "-").
Definition alpha : re := Chr Py.is_alpha.
Definition digit : re := Chr Py.is_digit.
Definition dot : re := Chr (Ascii.eqb ".").
Definition non_space : re := Chr (fun c => negb (Py.is_space c)).

(** The pattern of [is_valid_url], compiled with [re.IGNORECASE]:
    scheme, then a domain name, [localhost] or a dotted quad, an
    optional port and an optional path. *)
Definition url_pattern : re :=
  let label := Cat alnum (opt (Cat (upto 61 alnum_dash) alnum)) in
  let domain :=
    Cat (plus (Cat label dot)) (Cat (between 2 6 alpha) (opt dot)) in
  let octet := between 1 3 digit in
  let ip :=
    Cat octet (Cat dot (Cat octet (Cat dot (Cat octet (Cat dot octet))))) in
  let host := Alt domain (Alt (lit_i "localhost") ip) in
  let port := opt (Cat (lit_i ":") (plus digit)) in
  let tail :=
    Alt (opt (lit_i "/"))
        (Cat (Chr (fun c => Py.mem c "/?")) (plus non_space)) in
  Cat (lit_i "http") (Cat (opt (lit_i "s")) (Cat (lit_i "://")
    (Cat host (Cat port tail)))).

Definition is_valid_url (url : string) : bool :=
  if negb (UrlParse.nonempty url) then false
  else if negb (match_to_end url_pattern url) then false
  else
    match UrlParse.urlparse url with
    | None => false
    | Some parsed =>
        if negb (Py.in_list (UrlParse.scheme parsed) ["http"; "https"])
        then false
        else if negb (UrlParse.nonempty (UrlParse.netloc parsed)) then false
        else true
    end.

Definition tracking_params : list string :=
  ["utm_source"; "utm_medium"; "utm_campaign"; "utm_term"; "utm_content";
   "ref"; "source"].

(** The loop over [parsed.query.split('&')]: a parameter is kept when it
    has an [=] and its key is not a tracking key. *)
Definition keep_param (param : string) : bool :=
  match Py.split1 "=" param with
  | Some (key, _) => negb (Py.in_list (Py.lower key) tracking_params)
  | None => false
  end.

Definition filter_query (qry : string) : string :=
  if UrlParse.nonempty qry
  then Py.join "&" (List.filter keep_param (Py.split "&" qry))
  else EmptyString.

Definition is_slash (c : ascii) : bool := Ascii.eqb c "/".

Definition normalize_url (url : string) : string :=
  match UrlParse.urlparse url with
  | None => url
  | Some parsed =>
      let normalized :=
        UrlParse.mkParse (UrlParse.scheme parsed) (UrlParse.netloc parsed)
          (UrlParse.path parsed) (UrlParse.params parsed)
          (filter_query (UrlParse.query parsed)) EmptyString in
      Py.rstrip is_slash (UrlParse.urlunparse normalized)
  end.

(** [re.sub(r'\s+', ' ', text)]: every maximal run of whitespace becomes
    one space. *)
Fixpoint collapse_ws (text : string) : string :=
  match text with
  | EmptyString => EmptyString
  | String c s' =>
      if Py.is_space c
      then match s' with
           | String d _ =>
               if Py.is_space d then collapse_ws s'
               else String " " (collapse_ws s')
           | EmptyString => String " " EmptyString
           end
      else String c (collapse_ws s')
  end.

(** The characters [clean_text] keeps: word characters, whitespace, the
    punctuation [.,!?;:()-] and the double quote (code 34). *)
Definition is_kept (c : ascii) : bool :=
  Py.is_word c || Py.is_space c || Py.mem c ".,!?;:()-"
  || (Py.code c =? 34)%nat.

Definition clean_text (text : string) : string :=
  if negb (UrlParse.nonempty text) then EmptyString
  else
    let text := collapse_ws text in
    let text := Py.remove (fun c => negb (is_kept c)) text in
    Py.strip text.

Definition generate_content_hash (content : string) : string :=
  if negb (UrlParse.nonempty content) then EmptyString
  else Md5.hexdigest (Py.lower (clean_text content)).

(** [extract_domain]: the host in lower case; [None] when [urlparse]
    raises. *)
Definition extract_domain (url : string) : option string :=
  match UrlParse.urlparse url with
  | Some parsed => Some (Py.lower (UrlParse.netloc parsed))
  | None => None
  end.

(** [is_same_domain]: both domains are there, are not empty, and are
    equal. *)
Definition is_same_domain (url1 url2 : string) : bool :=
  match extract_domain url1, extract_domain url2 with
  | Some domain1, Some domain2 =>
      if UrlParse.nonempty domain1 && UrlParse.nonempty domain2
      then String.eqb domain1 domain2
      else false
  | _, _ => false
  end.

(** [should_crawl_url].  An argument that is [None] and one that is empty
    are both skipped by the [if] that guards its rule, so the empty list
    stands for both.  The patterns are in compiled form, with the
    [IGNORECASE] flag folded in. *)
Definition should_crawl_url (url : string) (seed_domains : list string)
  (allowed_patterns blocked_patterns : list re) : bool :=
  if negb (is_valid_url url) then false
  else if
    match seed_domains with
    | [] => false
    | _ =>
        match extract_domain url with
        | Some domain => negb (Py.in_list domain seed_domains)
        | None => true
        end
    end
  then false
  else if existsb (fun pattern => search pattern url) blocked_patterns
  then false
  else
    match allowed_patterns with
    | [] => true
    | _ => existsb (fun pattern => search pattern url) allowed_patterns
    end.

(** [re.findall(r'\b[a-zA-Z]{3,}\b', s)].  A match starts and ends at a
    word boundary and holds letters only, so it is a maximal run of word
    characters; such a run is a match when it has at least three
    characters, all of them letters. *)
Definition findall_words (s : string) : list string :=
  List.filter
    (fun w => Py.all_chars Py.is_alpha w && (3 <=? String.length w)%nat)
    (Py.runs Py.is_word s).

Definition stop_words : list string :=
  ["the"; "and"; "or"; "but"; "in"; "on"; "at"; "to"; "for"; "of"; "with";
   "by"; "from"; "up"; "about"; "into"; "through"; "during"; "before";
   "after"; "above"; "below"; "between"; "among"; "this"; "that"; "these";
   "those"; "i"; "me"; "my"; "myself"; "we"; "our"; "ours"; "ourselves";
   "you"; "your"; "yours"; "yourself"; "yourselves"; "he"; "him"; "his";
   "himself"; "she"; "her"; "hers"; "herself"; "it"; "its"; "itself";
   "they"; "them"; "their"; "theirs"; "themselves"; "what"; "which";
   "who"; "whom"; "this"; "that"; "these"; "those"; "am"; "is"; "are";
   "was"; "were"; "be"; "been"; "being"; "have"; "has"; "had"; "having";
   "do"; "does"; "did"; "doing"; "a"; "an"; "will"; "would"; "should";
   "could"; "can"; "may"; "might"; "must"; "shall"].

(** [word_freq[word] = word_freq.get(word, 0) + 1]; the dictionary keeps
    its keys in the order of their first insertion. *)
Fixpoint bump_word (word : string) (word_freq : list (string * nat))
  : list (string * nat) :=
  match word_freq with
  | [] => [(word, 1%nat)]
  | (w, n) :: rest =>
      if String.eqb word w then (w, S n) :: rest
      else (w, n) :: bump_word word rest
  end.

Definition count_words (words : list string) : list (string * nat) :=
  fold_left
    (fun word_freq word =>
       if negb (Py.in_list word stop_words) && (3 <? String.length word)%nat
       then bump_word word word_freq
       else word_freq)
    words [].

(** [sorted(items, key=lambda x: x[1], reverse=True)]: the sort is stable,
    items with equal counts stay in their order. *)
Fixpoint insert_by_freq (x : string * nat) (l : list (string * nat))
  : list (string * nat) :=
  match l with
  | [] => [x]
  | h :: rest =>
      if (snd h <? snd x)%nat then x :: l else h :: insert_by_freq x rest
  end.

Definition sorted_by_freq (items : list (string * nat))
  : list (string * nat) :=
  fold_left (fun acc x => insert_by_freq x acc) items [].

(** [extract_keywords], for a [max_keywords] that is not negative. *)
Definition extract_keywords (text : string) (max_keywords : nat)
  : list string :=
  if negb (UrlParse.nonempty text) then []
  else
    let words := findall_words (Py.lower text) in
    let sorted_words := sorted_by_freq (count_words words) in
    map fst (firstn max_keywords sorted_words).

(** [truncate_text], for a [max_length] that is not negative. *)
Definition truncate_text (text : string) (max_length : nat) (suffix : string)
  : string :=
  if negb (UrlParse.nonempty text)
     || (String.length text <=? max_length)%nat
  then text
  else
    let truncated := Py.take max_length text in
    let truncated :=
      match Py.rfind " " truncated with
      | Some (S last_space) => Py.take (S last_space) truncated
      | _ => truncated
      end in
    truncated ++ suffix.

(** [create_robots_txt_url]; [None] when [urlparse] raises. *)
Definition create_robots_txt_url (base_url : string) : option string :=
  match UrlParse.urlparse base_url with
  | Some parsed =>
      Some (UrlParse.scheme parsed ++ "://" ++ UrlParse.netloc parsed
            ++ "/robots.txt")
  | None => None
  end.

(** The dictionary [parse_robots_txt] returns; [F] is the type of
    [float] values. *)
Record Rules (F : Type) := mkRules {
  allowed : list string;
  disallowed : list string;
  crawl_delay : option F;
  sitemap : list string
}.

Arguments mkRules {F} _ _ _ _.
Arguments allowed {F} _.
Arguments disallowed {F} _.
Arguments crawl_delay {F} _.
Arguments sitemap {F} _.

(** [line.split(':', 1)[1].strip()], for a line that holds a colon. *)
Definition directive_value (line : string) : string :=
  match Py.split1 ":" line with
  | Some (_, value) => Py.strip value
  | None => EmptyString
  end.

(** [current_user_agent in [user_agent, '*']] *)
Definition applies (current_user_agent : option string) (user_agent : string)
  : bool :=
  match current_user_agent with
  | Some a => String.eqb a user_agent || String.eqb a "*"
  | None => false
  end.

(** One round of the loop over the lines; [float] is the conversion
    [float(...)], [None] when it raises [ValueError]. *)
Definition robots_line {F : Type} (float : string -> option F)
  (user_agent : string) (st : option string * Rules F) (raw : string)
  : option string * Rules F :=
  let '(current_user_agent, rules) := st in
  let line := Py.strip raw in
  if negb (UrlParse.nonempty line) || Py.startswith line "#" then st
  else if Py.startswith (Py.lower line) "user-agent:"
  then (Some (directive_value line), rules)
  else if applies current_user_agent user_agent then
    if Py.startswith (Py.lower line) "disallow:" then
      let path := directive_value line in
      if UrlParse.nonempty path
      then (current_user_agent,
            mkRules (allowed rules) (disallowed rules ++ [path])%list
              (crawl_delay rules) (sitemap rules))
      else st
    else if Py.startswith (Py.lower line) "allow:" then
      let path := directive_value line in
      if UrlParse.nonempty path
      then (current_user_agent,
            mkRules (allowed rules ++ [path])%list (disallowed rules)
              (crawl_delay rules) (sitemap rules))
      else st
    else if Py.startswith (Py.lower line) "crawl-delay:" then
      match float (directive_value line) with
      | Some delay =>
          (current_user_agent,
           mkRules (allowed rules) (disallowed rules) (Some delay)
             (sitemap rules))
      | None => st
      end
    else st
  else if Py.startswith (Py.lower line) "sitemap:" then
    let sitemap_url := directive_value line in
    if UrlParse.nonempty sitemap_url
    then (current_user_agent,
          mkRules (allowed rules) (disallowed rules) (crawl_delay rules)
            (sitemap rules ++ [sitemap_url])%list)
    else st
  else st.

Definition newline : ascii := ascii_of_nat 10.

Definition parse_robots_txt {F : Type} (float : string -> option F)
  (robots_content : string) (user_agent : string) : Rules F :=
  let rules := mkRules [] [] None [] in
  if negb (UrlParse.nonempty robots_content) then rules
  else
    snd (fold_left (robots_line float user_agent)
           (Py.split newline robots_content) (None, rules)).

End Helpers.

(* ===================================================================== *)
(** * The BeautifulSoup tree and the queries the extractor makes          *)
(* ===================================================================== *)

Module Bs4.

(** A parsed document: text nodes ([NavigableString]), comments and tags
    with their attributes and children.  Tag and attribute names are in
    lower case, as [html.parser] delivers them, and the attributes of a
    tag are a dictionary: no name occurs twice. *)
Inductive node : Type :=
| Text (s : string)
| Comment (s : string)
| Tag (name : string) (attrs : list (string * string)) (children : list node).

(** The children of the [BeautifulSoup] object. *)
Definition soup : Type := list node.

Definition tag_name (n : node) : string :=
  match n with Tag nm _ _ => nm | _ => EmptyString end.

Definition tag_attrs (n : node) : list (string * string) :=
  match n with Tag _ a _ => a | _ => [] end.

(** [tag.get(key)] *)
Fixpoint get (key : string) (attrs : list (string * string)) : option string :=
  match attrs with
  | [] => None
  | (k, v) :: rest => if String.eqb k key then Some v else get key rest
  end.

(** The values of the multi-valued [class] attribute. *)
Definition classes (n : node) : list string :=
  match get "class" (tag_attrs n) with
  | Some v => Py.words v
  | None => []
  end.

(** All tags below (and including) a node, in document order. *)
Fixpoint tags_of (n : node) : list node :=
  match n with
  | Tag _ _ ch => n :: flat_map tags_of ch
  | _ => []
  end.

Definition descendants (s : soup) : list node := flat_map tags_of s.

(** [soup.find_all(name)] and [soup.find(name)] *)
Definition find_all (name : string) (s : soup) : list node :=
  List.filter (fun n => String.eqb (tag_name n) name) (descendants s).

Definition find (name : string) (s : soup) : option node :=
  head (find_all name s).

(** [soup.find(name, attrs={key: value})] *)
Definition find_attr (name key value : string) (s : soup) : option node :=
  head (List.filter
          (fun n => String.eqb (tag_name n) name
                    && match get key (tag_attrs n) with
                       | Some v => String.eqb v value
                       | None => false
                       end)
          (descendants s)).

(** The text strings below a node in document order; comments are not
    part of a tag's text.  bs4 gives the strings inside [script],
    [style], [template], [rt] and [rp] classes of their own, which
    [get_text] leaves out; a tree of the model has its text outside such
    elements. *)
Fixpoint strings (n : node) : list string :=
  match n with
  | Text s => [s]
  | Comment _ => []
  | Tag _ _ ch => flat_map strings ch
  end.

(** [tag.get_text(strip=True)]: every string stripped, the empty ones
    dropped, the rest concatenated. *)
Definition get_text (n : node) : string :=
  Py.join EmptyString
    (List.filter UrlParse.nonempty (map Py.strip (strings n))).

(** The CSS selectors that occur in the sources. *)
Inductive simple : Type :=
| ByTag (name : string)
| ByClass (c : string)
| ById (i : string)
| ByAttr (key value : string)
| HasAttr (key : string).

Inductive selector : Type :=
| Sel (s : simple)
| Within (ancestor : simple) (s : simple).

Definition matches (s : simple) (n : node) : bool :=
  match n with
  | Tag nm attrs _ =>
      match s with
      | ByTag name => String.eqb nm name
      | ByClass c => Py.in_list c (classes n)
      | ById i =>
          match get "id" attrs with
          | Some v => String.eqb v i
          | None => false
          end
      | ByAttr key value =>
          match get key attrs with
          | Some v => String.eqb v value
          | None => false
          end
      | HasAttr key =>
          match get key attrs with Some _ => true | None => false end
      end
  | _ => false
  end.

(** Tags matching [s] with a proper ancestor matching [anc]. *)
Fixpoint select_within (anc s : simple) (inside : bool) (n : node)
  : list node :=
  match n with
  | Tag _ _ ch =>
      (if inside && matches s n then [n] else [])
        ++ flat_map (select_within anc s (inside || matches anc n)) ch
  | _ => []
  end.

(** [soup.select(selector)] and [soup.select_one(selector)] *)
Definition select (sel : selector) (s : soup) : list node :=
  match sel with
  | Sel x => List.filter (matches x) (descendants s)
  | Within anc x => flat_map (select_within anc x false) s
  end.

Definition select_one (sel : selector) (s : soup) : option node :=
  head (select sel s).

(** The tree after [decompose()] of every tag satisfying [p]. *)
Fixpoint prune (p : node -> bool) (n : node) : list node :=
  match n with
  | Tag nm attrs ch =>
      if p n then [] else [Tag nm attrs (flat_map (prune p) ch)]
  | _ => [n]
  end.

Definition decompose_all (p : node -> bool) (s : soup) : soup :=
  flat_map (prune p) s.

(** The tree after [extract()] of every comment. *)
Fixpoint drop_comments (n : node) : list node :=
  match n with
  | Comment _ => []
  | Text _ => [n]
  | Tag nm attrs ch => [Tag nm attrs (flat_map drop_comments ch)]
  end.

(** [soup.find_all(string=lambda text: isinstance(text, Comment))]: the
    comments below a node, in document order. *)
Fixpoint comments (n : node) : list string :=
  match n with
  | Text _ => []
  | Comment s => [s]
  | Tag _ _ ch => flat_map comments ch
  end.

(** [soup.find_all(class_=re.compile(pat, re.I))]: some class value (or
    their space-joined string) contains a match of the pattern. *)
Definition class_matches (r : Re.re) (n : node) : bool :=
  match n with
  | Tag _ _ _ =>
      existsb (Re.search r) (classes n)
      || (UrlParse.nonempty (Py.join " " (classes n))
          && Re.search r (Py.join " " (classes n)))
  | _ => false
  end.

End Bs4.

(* ===================================================================== *)
(** * [crawler/content_processor.py]                                      *)
(* ===================================================================== *)

Module ContentProcessor.

Import Bs4.

(** What the extractor takes from outside the repository: the date
    parser ([dateutil], [None] when it fails), the readability formula
    ([textstat]) and the clock.  A record is what one call of
    [extract_content] reads: the clock gives another reading at each
    call. *)
Record Libs := mkLibs {
  parse_date : string -> option string;
  flesch_reading_ease : string -> Q;
  utcnow_isoformat : string
}.

(** The dictionary [extract_content] returns. *)
Record Document := mkDocument {
  url : string;
  title : option string;
  description : option string;
  content : string;
  author : option string;
  publish_date : option string;
  tags : list string;
  word_count : nat;
  reading_time : nat;
  readability_score : Q;
  extracted_at : string;
  content_hash : string
}.

Definition content_selectors : list selector :=
  [Sel (ByTag "article"); Sel (ByAttr "role" "main"); Sel (ByClass "content");
   Sel (ById "content"); Sel (ByClass "post-content");
   Sel (ByClass "entry-content"); Sel (ByClass "article-body")].

Definition title_selectors : list selector :=
  [Sel (ByTag "h1"); Sel (ByClass "title"); Sel (ByClass "post-title");
   Sel (ByClass "article-title"); Sel (ByClass "entry-title");
   Sel (ByAttr "property" "og:title")].

Definition ad_classes : list string :=
  ["ad"; "advertisement"; "social-share"; "related-posts"].

(** [_clean_html]: the soup is changed in place, so the cleaned tree is
    what every later query of the same page sees. *)
Definition _clean_html (s : soup) : soup :=
  let s :=
    decompose_all
      (fun n => Py.in_list (tag_name n)
                  ["script"; "style"; "nav"; "header"; "footer"]) s in
  let s := flat_map drop_comments s in
  fold_left
    (fun s class_name => decompose_all (class_matches (Re.lit_i class_name)) s)
    ad_classes s.

(** Strategy 1: the first selector whose first match has more than 200
    characters of text. *)
Fixpoint by_selectors (sels : list selector) (s : soup) : option string :=
  match sels with
  | [] => None
  | sel :: rest =>
      match select_one sel s with
      | Some content_elem =>
          let content := get_text content_elem in
          if (200 <? String.length content)%nat then Some content
          else by_selectors rest s
      | None => by_selectors rest s
      end
  end.

(** Strategy 2: the texts of the paragraphs longer than 50 characters. *)
Definition content_blocks (s : soup) : list string :=
  List.filter (fun text => (50 <? String.length text)%nat)
    (map get_text (find_all "p" s)).

Definition _extract_main_content (s : soup) : option string :=
  match by_selectors content_selectors s with
  | Some content => Some content
  | None =>
      match content_blocks s with
      | _ :: _ => Some (Py.join " " (content_blocks s))
      | [] =>
          match find "body" s with
          | Some body =>
              let content := get_text body in
              if (200 <? String.length content)%nat then Some content
              else None
          | None => None
          end
      end
  end.

(** Body selection as a specification: the texts of the selector
    candidates in the order of the selectors, the first of them longer
    than 200 characters; else the paragraphs longer than 50 characters
    joined by single spaces, if there is any; else the text of [<body>]
    if it is longer than 200 characters. *)
Definition selector_texts (sels : list selector) (s : soup) : list string :=
  flat_map (fun sel =>
              match select_one sel s with
              | Some elem => [get_text elem]
              | None => []
              end) sels.

Definition long (text : string) : bool := (200 <? String.length text)%nat.

Definition body_selection (s : soup) : option string :=
  match List.find long (selector_texts content_selectors s) with
  | Some text => Some text
  | None =>
      match content_blocks s with
      | [] =>
          match find "body" s with
          | Some body => if long (get_text body) then Some (get_text body) else None
          | None => None
          end
      | blocks => Some (Py.join " " blocks)
      end
  end.

(** The first selector whose first match has non-empty text. *)
Fixpoint first_text (sels : list selector) (s : soup) : option string :=
  match sels with
  | [] => None
  | sel :: rest =>
      match select_one sel s with
      | Some elem =>
          if UrlParse.nonempty (get_text elem) then Some (get_text elem)
          else first_text rest s
      | None => first_text rest s
      end
  end.

Definition _extract_title (s : soup) : option string :=
  match first_text title_selectors s with
  | Some t => Some t
  | None =>
      match find "title" s with
      | Some title_tag => Some (get_text title_tag)
      | None => None
      end
  end.

Definition meta_content (key value : string) (s : soup) : option string :=
  match find_attr "meta" key value s with
  | Some m =>
      match get "content" (tag_attrs m) with
      | Some c => if UrlParse.nonempty c then Some (Py.strip c) else None
      | None => None
      end
  | None => None
  end.

Definition _extract_description (s : soup) : option string :=
  match meta_content "name" "description" s with
  | Some d => Some d
  | None => meta_content "property" "og:description" s
  end.

Definition author_selectors : list selector :=
  [Sel (ByAttr "rel" "author"); Sel (ByClass "author"); Sel (ByClass "byline");
   Sel (ByAttr "property" "article:author"); Sel (ByClass "post-author")].

Definition _extract_author (s : soup) : option string :=
  first_text author_selectors s.

Definition date_selectors : list selector :=
  [Sel (ByAttr "property" "article:published_time"); Sel (HasAttr "datetime");
   Sel (ByClass "date"); Sel (ByClass "publish-date"); Sel (ByTag "time")].

Definition truthy (o : option string) : option string :=
  match o with
  | Some v => if UrlParse.nonempty v then Some v else None
  | None => None
  end.

Fixpoint first_date (L : Libs) (sels : list selector) (s : soup)
  : option string :=
  match sels with
  | [] => None
  | sel :: rest =>
      match select_one sel s with
      | Some date_elem =>
          let date_str :=
            match truthy (get "datetime" (tag_attrs date_elem)) with
            | Some v => v
            | None =>
                match truthy (get "content" (tag_attrs date_elem)) with
                | Some v => v
                | None => get_text date_elem
                end
            end in
          if UrlParse.nonempty date_str then parse_date L date_str
          else first_date L rest s
      | None => first_date L rest s
      end
  end.

Definition _extract_publish_date (L : Libs) (s : soup) : option string :=
  first_date L date_selectors s.

Definition tag_selectors : list selector :=
  [Within (ByClass "tags") (ByTag "a"); Within (ByClass "categories") (ByTag "a");
   Sel (ByClass "tag"); Sel (ByAttr "property" "article:tag")].

Definition _extract_tags (s : soup) : list string :=
  let add (tags : list string) (elem : node) :=
    let tag_text := get_text elem in
    if UrlParse.nonempty tag_text && negb (Py.in_list tag_text tags)
    then (tags ++ [tag_text])%list else tags in
  firstn 10
    (fold_left (fun tags sel => fold_left add (select sel s) tags)
       tag_selectors []).

Definition _hash_content (content : string) : string := Md5.hexdigest content.

(** [extract_content]: the cleaned soup, and the document if there is one. *)
Definition extract_content (L : Libs) (page_url : string) (s : soup)
  : soup * option Document :=
  let s := _clean_html s in
  match _extract_main_content s with
  | None => (s, None)
  | Some EmptyString => (s, None)
  | Some content =>
      let word_count := List.length (Py.words content) in
      (s, Some (mkDocument page_url (_extract_title s)
                  (_extract_description s) content (_extract_author s)
                  (_extract_publish_date L s) (_extract_tags s) word_count
                  (Nat.max 1 (word_count / 200))
                  (flesch_reading_ease L content)
                  (utcnow_isoformat L) (_hash_content content)))
  end.

End ContentProcessor.

(* ===================================================================== *)
(** * [utils/database.py]                                                 *)
(* ===================================================================== *)

Module Database.

Import ContentProcessor.

(** A row of the [content] table: the autoincrement [id] and the columns
    of the document.  The [tags] column holds [json.dumps] of the tag
    list; the JSON text of a list of strings determines the list and is
    determined by it, so the column is identified with the list it
    encodes ([json.loads] of the column is the list, two columns are equal
    as text exactly when the lists are equal, and ['[]'] is the empty
    list). *)
Record Row := mkRow { id : nat; doc : Document }.

Definition Store : Type := list Row.

(** A [DatabaseManager] object and the table behind it. *)
Record t := mkDb { initialized : bool; table : Store }.

(** What the engine does during one call: [init_fails] when connecting
    or creating the schema in [init_db] raises, [statement_fails] when
    something inside the [try] block of the method raises (a disk error
    for instance). *)
Record Faults := mkFaults { init_fails : bool; statement_fails : bool }.

Definition no_faults : Faults := mkFaults false false.

(** An [await]ed method returns a value or raises. *)
Inductive result (A : Type) : Type :=
| Returned (a : A)
| Raised.

Arguments Returned {A} a.
Arguments Raised {A}.

(** [init_db]: nothing to do once the object is initialized; otherwise
    the table is created if it does not exist.  [None] when it raises. *)
Definition init_db (f : Faults) (db : t) : option t :=
  if initialized db then Some db
  else if init_fails f then None
  else Some (mkDb true (table db)).

Definition has_hash (rows : Store) (h : string) : bool :=
  existsb (fun r => String.eqb (content_hash (doc r)) h) rows.

Definition has_url (rows : Store) (u : string) : bool :=
  existsb (fun r => String.eqb (url (doc r)) u) rows.

Definition next_id (rows : Store) : nat := S (list_max (map id rows)).

(** The [INSERT] statement followed by [commit]: [None] when it raises
    because of the [UNIQUE] constraints on [url] and [content_hash]. *)
Definition sql_insert (rows : Store) (d : Document) : option Store :=
  if has_url rows (url d) then None
  else if has_hash rows (content_hash d) then None
  else Some (rows ++ [mkRow (next_id rows) d])%list.

(** [save_content].  [init_db] is awaited before the [try] block, so its
    exception leaves the method; an exception inside the [try] block ends
    in the [except] clause, which returns [False], and nothing is
    committed then. *)
Definition save_content (f : Faults) (db : t) (content_data : Document)
  : result bool * t :=
  match init_db f db with
  | None => (Raised, db)
  | Some db =>
      if statement_fails f then (Returned false, db)
      else if has_hash (table db) (content_hash content_data)
      then (Returned false, db)
      else
        match sql_insert (table db) content_data with
        | Some rows => (Returned true, mkDb (initialized db) rows)
        | None => (Returned false, db)
        end
  end.

(** The constraints of the schema that [init_db] creates: [id] is the
    primary key, [url] and [content_hash] are [UNIQUE]. *)
Definition constraints_hold (rows : Store) : Prop :=
  NoDup (map id rows)
  /\ NoDup (map (fun r => url (doc r)) rows)
  /\ NoDup (map (fun r => content_hash (doc r)) rows).

Record Stats := mkStats {
  total_content : nat;
  content_today : nat;
  top_tags : list (string * nat)
}.

Fixpoint tags_eqb (a b : list string) : bool :=
  match a, b with
  | [], [] => true
  | x :: a', y :: b' => String.eqb x y && tags_eqb a' b'
  | _, _ => false
  end.

(** [GROUP BY tags] with [COUNT( * )]: one entry per distinct value of the
    column, with the number of rows that hold it. *)
Fixpoint bump (t : list string) (gs : list (list string * nat))
  : list (list string * nat) :=
  match gs with
  | [] => [(t, 1)]
  | (t', c) :: rest =>
      if tags_eqb t t' then (t', S c) :: rest else (t', c) :: bump t rest
  end.

Definition group_by_tags (rows : Store) : list (list string * nat) :=
  fold_left (fun gs r => bump (tags (doc r)) gs)
    (List.filter (fun r => negb (tags_eqb (tags (doc r)) [])) rows) [].

(** [ORDER BY count DESC].  SQL leaves the order of groups with equal
    counts open; here they stay in the order of their first row. *)
Fixpoint insert_desc (g : list string * nat) (l : list (list string * nat))
  : list (list string * nat) :=
  match l with
  | [] => [g]
  | h :: rest =>
      if (snd h <? snd g)%nat then g :: l else h :: insert_desc g rest
  end.

Definition order_by_count_desc (gs : list (list string * nat))
  : list (list string * nat) :=
  fold_right insert_desc [] gs.

(** The top tags in the words of the specification: the occurrences of
    each tag summed over all rows, the ten tags with the highest totals
    first. *)
Fixpoint bump_tag (tag : string) (cs : list (string * nat))
  : list (string * nat) :=
  match cs with
  | [] => [(tag, 1)]
  | (tag', c) :: rest =>
      if String.eqb tag tag' then (tag', S c) :: rest
      else (tag', c) :: bump_tag tag rest
  end.

Definition tag_totals (rows : Store) : list (string * nat) :=
  fold_left (fun cs r => fold_left (fun cs tag => bump_tag tag cs) (tags (doc r)) cs)
    rows [].

Fixpoint insert_total (g : string * nat) (l : list (string * nat))
  : list (string * nat) :=
  match l with
  | [] => [g]
  | h :: rest =>
      if (snd h <? snd g)%nat then g :: l else h :: insert_total g rest
  end.

Definition top_tags_by_total (rows : Store) : list (string * nat) :=
  firstn 10 (fold_right insert_total [] (tag_totals rows)).

(** The dictionary the three queries below build from a row: its
    columns but [id] and [content_hash], the [tags] column read back with
    [json.loads]. *)
Record Item := mkItem {
  i_url : string;
  i_title : option string;
  i_description : option string;
  i_content : string;
  i_author : option string;
  i_publish_date : option string;
  i_tags : list string;
  i_word_count : nat;
  i_reading_time : nat;
  i_readability_score : Q;
  i_extracted_at : string
}.

Definition item_of_row (r : Row) : Item :=
  let d := doc r in
  mkItem (url d) (title d) (description d) (content d) (author d)
    (publish_date d) (tags d) (word_count d) (reading_time d)
    (readability_score d) (extracted_at d).

(** [json.dumps] of a list of strings, as the [tags] column holds it:
    the quote, the backslash and every character outside the range from
    the space to the tilde are escaped. *)
Definition hex_digit (n : nat) : ascii :=
  ascii_of_nat (if (n <? 10)%nat then 48 + n else 87 + n).

Definition json_escape (c : ascii) : string :=
  let n := Py.code c in
  if (n =? 34)%nat then "\" ++ String c EmptyString
  else if (n =? 92)%nat then "\\"
  else if (n =? 8)%nat then "\b"
  else if (n =? 12)%nat then "\f"
  else if (n =? 10)%nat then "\n"
  else if (n =? 13)%nat then "\r"
  else if (n =? 9)%nat then "\t"
  else if (32 <=? n)%nat && (n <=? 126)%nat then String c EmptyString
  else "\u00" ++ String (hex_digit (n / 16))
                   (String (hex_digit (n mod 16)) EmptyString).

Fixpoint json_chars (s : string) : string :=
  match s with
  | EmptyString => EmptyString
  | String c s' => json_escape c ++ json_chars s'
  end.

Definition json_string (s : string) : string :=
  String (ascii_of_nat 34) (json_chars s ++ String (ascii_of_nat 34) EmptyString).

Definition json_dumps (l : list string) : string :=
  "[" ++ Py.join ", " (map json_string l) ++ "]".

(** [text LIKE pattern]: [%] stands for any text, [_] for any character,
    and letters match without regard to case. *)
Fixpoint like (pattern text : string) {struct pattern} : bool :=
  match pattern with
  | EmptyString => negb (UrlParse.nonempty text)
  | String p pattern' =>
      if Ascii.eqb p "%" then
        (fix from (text : string) : bool :=
           if like pattern' text then true
           else match text with
                | EmptyString => false
                | String _ text' => from text'
                end) text
      else
        match text with
        | EmptyString => false
        | String c text' =>
            if Ascii.eqb p "_" then like pattern' text'
            else if Ascii.eqb (Py.lower_char p) (Py.lower_char c)
            then like pattern' text'
            else false
        end
  end.

(** [column LIKE '%term%']; a [NULL] column does not match. *)
Definition like_term (term : string) (column : option string) : bool :=
  match column with
  | Some text => like ("%" ++ term ++ "%") text
  | None => false
  end.

(** [ORDER BY]: the rows in the order [before].  The sort is stable:
    rows that the clause does not tell apart stay in the order in which
    they are handed over.  SQL leaves their order open, it is that in
    which the engine visits the rows ([scan] in the queries below: the
    table in the order of insertion, an index read forwards or
    backwards). *)
Fixpoint insert_row (before : Row -> Row -> bool) (r : Row) (l : list Row)
  : list Row :=
  match l with
  | [] => [r]
  | h :: rest =>
      if before r h then r :: l else h :: insert_row before r rest
  end.

Definition order_by (before : Row -> Row -> bool) (rows : Store) : list Row :=
  fold_left (fun acc r => insert_row before r acc) rows [].

(** [extracted_at DESC]: text columns compare byte by byte. *)
Definition newer (r h : Row) : bool :=
  String.ltb (extracted_at (doc h)) (extracted_at (doc r)).

(** [LIMIT ?]: a negative limit is no limit. *)
Definition sql_limit (limit : Z) (rows : list Row) : list Row :=
  if (limit <? 0)%Z then rows else firstn (Z.to_nat limit) rows.

(** [get_recent_content]; [scan] is the order in which the engine visits
    the rows of the table, it decides between rows with the same
    [extracted_at] only. *)
Definition get_recent_content (f : Faults) (scan : Store -> list Row)
  (limit : Z) (db : t) : result (list Item) * t :=
  match init_db f db with
  | None => (Raised, db)
  | Some db =>
      if statement_fails f then (Returned [], db)
      else
        let rows := sql_limit limit (order_by newer (scan (table db))) in
        (Returned (map item_of_row rows), db)
  end.

(** [get_content_by_topic]; rows with the same [extracted_at] are given
    in the order of the table, one of the orders the engine may choose. *)
Definition matches_topic (topic : string) (r : Row) : bool :=
  like_term topic (Some (json_dumps (tags (doc r))))
  || like_term topic (title (doc r))
  || like_term topic (Some (content (doc r))).

Definition get_content_by_topic (f : Faults) (topic : string) (limit : Z)
  (db : t) : result (list Item) * t :=
  match init_db f db with
  | None => (Raised, db)
  | Some db =>
      if statement_fails f then (Returned [], db)
      else
        let rows :=
          sql_limit limit
            (order_by newer (List.filter (matches_topic topic) (table db))) in
        (Returned (map item_of_row rows), db)
  end.

(** [search_content] *)
Definition matches_query (query : string) (r : Row) : bool :=
  like_term query (title (doc r))
  || like_term query (description (doc r))
  || like_term query (Some (content (doc r))).

(** The [CASE] expression of the [ORDER BY] clause *)
Definition search_rank (query : string) (r : Row) : nat :=
  if like_term query (title (doc r)) then 1
  else if like_term query (description (doc r)) then 2
  else 3.

Definition search_before (query : string) (r h : Row) : bool :=
  (search_rank query r <? search_rank query h)%nat
  || ((search_rank query r =? search_rank query h)%nat && newer r h).

(** [scan] is the order in which the engine visits the rows of the
    table, it decides between rows of the same rank and [extracted_at]
    only. *)
Definition search_content (f : Faults) (scan : Store -> list Row)
  (query : string) (limit : Z) (db : t) : result (list Item) * t :=
  match init_db f db with
  | None => (Raised, db)
  | Some db =>
      if statement_fails f then (Returned [], db)
      else
        let rows :=
          sql_limit limit
            (order_by (search_before query)
               (List.filter (matches_query query) (scan (table db)))) in
        (Returned (map item_of_row rows), db)
  end.

(** [DATE(extracted_at)] of an ISO-8601 timestamp: its first ten
    characters. *)
Definition sql_date (ts : string) : string := Py.take 10 ts.

(** [get_stats]; [today] is [datetime.utcnow().date().isoformat()]. *)
Definition get_stats (f : Faults) (today : string) (db : t)
  : result Stats * t :=
  match init_db f db with
  | None => (Raised, db)
  | Some db =>
      if statement_fails f then (Returned (mkStats 0 0 []), db)
      else
        let rows := table db in
        let total_count := List.length rows in
        let today_count :=
          List.length
            (List.filter
               (fun r => String.eqb (sql_date (extracted_at (doc r))) today)
               rows) in
        let tag_rows := firstn 10 (order_by_count_desc (group_by_tags rows)) in
        let top_tags :=
          flat_map
            (fun tag_row => map (fun tag => (tag, snd tag_row)) (fst tag_row))
            tag_rows in
        (Returned (mkStats total_count today_count (firstn 10 top_tags)), db)
  end.

End Database.

(* ===================================================================== *)
(** * [crawler/url_manager.py]                                            *)
(* ===================================================================== *)

Module URLManager.

(** The hash stored under [url_data:{hash}]. *)
Record UrlData := mkUrlData {
  ud_url : string;
  ud_domain : string;
  ud_added_timestamp : Z
}.

(** The keys of the Redis database the manager uses: the sorted set
    [crawl_queue] (member to score), the set [crawled_urls] and the
    hashes [url_data:{hash}] by their [hash].  A score is the integer
    priority that was passed. *)
Record Redis := mkRedis {
  crawl_queue : gmap string Z;
  r_crawled_urls : gset string;
  url_data : gmap string UrlData
}.

(** Redis keeps a score as an IEEE 754 double: an integer priority is
    stored as it is when its magnitude is at most [2^53], and is rounded
    beyond that, where two priorities can become the same score.  The
    sorted set above is that of Redis for priorities in this range. *)
Definition exact_score (priority : Z) : Prop :=
  (- 2 ^ 53 <= priority <= 2 ^ 53)%Z.

(** A [URLManager] object: its connection and its in-process set
    [self.crawled_urls]. *)
Record t := mkManager {
  redis_client : Redis;
  crawled_urls : gset string
}.

(** [URLManager()] connected to a database in state [r]. *)
Definition new (r : Redis) : t := mkManager r ∅.

Definition _hash_url (url : string) : string := Md5.hexdigest url.

(** [ZPOPMAX]: the member with the highest score; among equal scores the
    greatest member in byte order. *)
Definition ranks_above (a b : string * Z) : bool :=
  (snd b <? snd a)%Z || ((snd a =? snd b)%Z && String.ltb (fst b) (fst a)).

Definition zmax (q : gmap string Z) : option (string * Z) :=
  foldr (fun x acc =>
           match acc with
           | Some y => if ranks_above y x then Some y else Some x
           | None => Some x
           end) None (map_to_list q).

Definition zpopmax (q : gmap string Z) : option (string * Z) * gmap string Z :=
  match zmax q with
  | Some (member, score) => (Some (member, score), delete member q)
  | None => (None, q)
  end.

(** An [await]ed call either returns or raises. *)
Inductive outcome : Type := Returned | Raised.

Definition is_crawled (url : string) (m : t) : bool * t :=
  let url_hash := _hash_url url in
  if bool_decide (url_hash ∈ crawled_urls m) then (true, m)
  else if bool_decide (url_hash ∈ r_crawled_urls (redis_client m))
  then (true, mkManager (redis_client m) ({[url_hash]} ∪ crawled_urls m))
  else (false, m).

(** [add_url]; [now] is the reading of the event loop's clock.  The call
    raises after the [ZADD] when [urlparse] rejects the URL. *)
Definition add_url (now : Z) (url : string) (priority : Z) (m : t)
  : t * outcome :=
  let '(crawled, m) := is_crawled url m in
  if crawled then (m, Returned)
  else
    let r := redis_client m in
    let url_hash := _hash_url url in
    let q := <[url := priority]> (crawl_queue r) in
    match UrlParse.urlparse url with
    | None =>
        (mkManager (mkRedis q (r_crawled_urls r) (url_data r)) (crawled_urls m),
         Raised)
    | Some parsed =>
        let d := mkUrlData url (UrlParse.netloc parsed) now in
        (mkManager
           (mkRedis q (r_crawled_urls r) (<[url_hash := d]> (url_data r)))
           (crawled_urls m),
         Returned)
    end.

Definition get_next_url (m : t) : option string * t :=
  let r := redis_client m in
  match zpopmax (crawl_queue r) with
  | (Some (url, _), q) =>
      (Some url,
       mkManager (mkRedis q (r_crawled_urls r) (url_data r)) (crawled_urls m))
  | (None, _) => (None, m)
  end.

Definition mark_crawled (url : string) (m : t) : t :=
  let r := redis_client m in
  let url_hash := _hash_url url in
  mkManager
    (mkRedis (crawl_queue r) ({[url_hash]} ∪ r_crawled_urls r) (url_data r))
    ({[url_hash]} ∪ crawled_urls m).

(** The in-process set holds only hashes that the backend set holds. *)
Definition cache_sound (m : t) : Prop :=
  crawled_urls m ⊆ r_crawled_urls (redis_client m).

(** Sequences of calls on one manager, and what each call returns. *)
Inductive op : Type :=
| Add (now : Z) (url : string) (priority : Z)
| Next
| MarkCrawled (url : string)
| IsCrawled (url : string).

Inductive result : Type :=
| RAdd (o : outcome)
| RNext (url : option string)
| RMark
| RIsCrawled (b : bool).

Definition step (o : op) (m : t) : result * t :=
  match o with
  | Add now url priority =>
      let '(m', out) := add_url now url priority m in (RAdd out, m')
  | Next => let '(u, m') := get_next_url m in (RNext u, m')
  | MarkCrawled url => (RMark, mark_crawled url m)
  | IsCrawled url => let '(b, m') := is_crawled url m in (RIsCrawled b, m')
  end.

Fixpoint run (ops : list op) (m : t) : list result * t :=
  match ops with
  | [] => ([], m)
  | o :: rest =>
      let '(r, m') := step o m in
      let '(rs, m'') := run rest m' in
      (r :: rs, m'')
  end.

End URLManager.

(* ===================================================================== *)
(** * [crawler/core_crawler.py]                                           *)
(* ===================================================================== *)

Module WebCrawler.

Import Config.

(** What [session.get(url)] does: it times out, fails in transport (or
    while the body is decoded), or delivers a response. *)
Inductive Response : Type :=
| GetTimeout
| GetError
| GetResponse (status : nat) (content_type : string) (body : string).

(** The world around one crawl: the network, the HTML parser
    ([BeautifulSoup(html, 'html.parser')]), [urljoin] ([None] when it
    raises [ValueError]), the extractor's libraries, the event loop's clock
    and the faults of the database engine. *)
Record Env := mkEnv {
  http_get : string -> Response;
  html_parser : string -> Bs4.soup;
  urljoin : string -> string -> option string;
  libs : ContentProcessor.Libs;
  loop_time : Z;
  db_faults : Database.Faults
}.

Record Crawler := mkCrawler {
  url_manager : URLManager.t;
  db_manager : Database.t;
  crawled_count : nat
}.

Definition _fetch_page (E : Env) (url : string) : option string :=
  match http_get E url with
  | GetResponse status content_type body =>
      if (status =? 200)%nat
      then if Py.contains "text/html" content_type then Some body else None
      else None
  | GetTimeout => None
  | GetError => None
  end.

Definition _is_valid_crawl_url (cfg : CrawlerConfig) (url : string) : bool :=
  if negb (Helpers.is_valid_url url) then false
  else
    match UrlParse.urlparse url with
    | None => false
    | Some parsed =>
        if existsb (Py.endswith (Py.lower (UrlParse.path parsed)))
             (EXCLUDED_EXTENSIONS cfg)
        then false
        else existsb (fun pattern => Re.search pattern url)
               (USEFUL_URL_PATTERNS cfg)
    end.

(** The two filter rules in the words of the specification: the path of
    the URL ends with an excluded extension; the URL matches one of the
    useful patterns. *)
Definition excluded_extension (cfg : CrawlerConfig) (url : string) : bool :=
  match UrlParse.urlparse url with
  | Some parsed =>
      existsb (Py.endswith (Py.lower (UrlParse.path parsed)))
        (EXCLUDED_EXTENSIONS cfg)
  | None => false
  end.

Definition matches_useful_pattern (cfg : CrawlerConfig) (url : string) : bool :=
  existsb (fun pattern => Re.search pattern url) (USEFUL_URL_PATTERNS cfg).

(** [link['href']] for [link] in [soup.find_all('a', href=True)] *)
Definition hrefs (s : Bs4.soup) : list string :=
  flat_map (fun link =>
              match Bs4.get "href" (Bs4.tag_attrs link) with
              | Some href => [href]
              | None => []
              end) (Bs4.find_all "a" s).

(** The loop of [_extract_urls]; [None] when [urljoin] raises. *)
Fixpoint urls_of_hrefs (E : Env) (cfg : CrawlerConfig) (base_url : string)
  (l : list string) : option (list string) :=
  match l with
  | [] => Some []
  | href :: rest =>
      match urljoin E base_url href with
      | None => None
      | Some full_url =>
          match urls_of_hrefs E cfg base_url rest with
          | None => None
          | Some urls =>
              Some (if _is_valid_crawl_url cfg full_url
                    then Helpers.normalize_url full_url :: urls
                    else urls)
          end
      end
  end.

Definition _extract_urls (E : Env) (cfg : CrawlerConfig) (base_url : string)
  (s : Bs4.soup) : option (list string) :=
  urls_of_hrefs E cfg base_url (hrefs s).

Definition _is_useful_content (cfg : CrawlerConfig)
  (content_data : ContentProcessor.Document) : bool :=
  if negb (UrlParse.nonempty (ContentProcessor.content content_data))
  then false
  else (MIN_CONTENT_LENGTH cfg
        <=? String.length (ContentProcessor.content content_data))%nat.

(** [for new_url in new_urls: await self.url_manager.add_url(new_url)] *)
Fixpoint add_all (now : Z) (urls : list string) (m : URLManager.t)
  : URLManager.t * URLManager.outcome :=
  match urls with
  | [] => (m, URLManager.Returned)
  | u :: rest =>
      match URLManager.add_url now u 1 m with
      | (m', URLManager.Raised) => (m', URLManager.Raised)
      | (m', URLManager.Returned) => add_all now rest m'
      end
  end.

(** The branch that saves a useful document; the value [save_content]
    returns is not used. *)
Definition save_if_useful (E : Env) (cfg : CrawlerConfig)
  (content_data : option ContentProcessor.Document) (db : Database.t)
  : Database.result unit * Database.t :=
  match content_data with
  | Some d =>
      if _is_useful_content cfg d
      then match Database.save_content (db_faults E) db d with
           | (Database.Returned _, db') => (Database.Returned tt, db')
           | (Database.Raised, db') => (Database.Raised, db')
           end
      else (Database.Returned tt, db)
  | None => (Database.Returned tt, db)
  end.

(** [_crawl_page].  Everything after the first check runs inside the
    [try] block, whose [except] clause logs and returns. *)
Definition _crawl_page (E : Env) (cfg : CrawlerConfig) (url : string)
  (c : Crawler) : Crawler :=
  let '(crawled, m) := URLManager.is_crawled url (url_manager c) in
  if crawled then mkCrawler m (db_manager c) (crawled_count c)
  else
    match _fetch_page E url with
    | None => mkCrawler m (db_manager c) (crawled_count c)
    | Some EmptyString => mkCrawler m (db_manager c) (crawled_count c)
    | Some html_content =>
        let soup := html_parser E html_content in
        let '(soup, content_data) :=
          ContentProcessor.extract_content (libs E) url soup in
        match save_if_useful E cfg content_data (db_manager c) with
        | (Database.Raised, db) => mkCrawler m db (crawled_count c)
        | (Database.Returned _, db) =>
            match _extract_urls E cfg url soup with
            | None => mkCrawler m db (crawled_count c)
            | Some new_urls =>
                match add_all (loop_time E) new_urls m with
                | (m', URLManager.Raised) => mkCrawler m' db (crawled_count c)
                | (m', URLManager.Returned) =>
                    mkCrawler (URLManager.mark_crawled url m') db
                      (crawled_count c)
                end
            end
        end
    end.

(** The [while] loop of [crawl]; [budget] is [MAX_PAGES - crawled_count].
    [_crawl_page] returns normally, so every iteration counts a page. *)
Fixpoint crawl_loop (E : Env) (cfg : CrawlerConfig) (budget : nat)
  (c : Crawler) : Crawler :=
  match budget with
  | O => c
  | S budget' =>
      match URLManager.get_next_url (url_manager c) with
      | (None, _) => c
      | (Some EmptyString, m) =>
          mkCrawler m (db_manager c) (crawled_count c)
      | (Some url, m) =>
          let c' :=
            _crawl_page E cfg url
              (mkCrawler m (db_manager c) (crawled_count c)) in
          crawl_loop E cfg budget'
            (mkCrawler (url_manager c') (db_manager c') (S (crawled_count c')))
      end
  end.

Definition crawl (E : Env) (cfg : CrawlerConfig) (c : Crawler) : Crawler :=
  crawl_loop E cfg (MAX_PAGES cfg - crawled_count c) c.

(** [__aenter__]: the seeds enter the queue with priority 10. *)
Fixpoint add_seeds (now : Z) (seed_urls : list string) (m : URLManager.t)
  : URLManager.t * URLManager.outcome :=
  match seed_urls with
  | [] => (m, URLManager.Returned)
  | u :: rest =>
      match URLManager.add_url now u 10 m with
      | (m', URLManager.Raised) => (m', URLManager.Raised)
      | (m', URLManager.Returned) => add_seeds now rest m'
      end
  end.

End WebCrawler.

(* ===================================================================== *)
(** * Concrete inputs used in the examples below                          *)
(* ===================================================================== *)

Module Examples.

Definition url_a : string := "http://example.com/blog/a".
Definition url_b : string := "http://example.com/blog/b".

Definition empty_redis : URLManager.Redis := URLManager.mkRedis ∅ ∅ ∅.

Definition fresh : URLManager.t := URLManager.new empty_redis.

(** A manager whose queue holds [url_a] as a seed. *)
Definition seeded : URLManager.t := (WebCrawler.add_seeds 0 [url_a] fresh).1.

Definition libs0 : ContentProcessor.Libs :=
  ContentProcessor.mkLibs (fun s => Some s) (fun _ => 0%Q)
    "2024-05-01T10:00:00".

Definition page (body : list Bs4.node) : Bs4.soup :=
  [Bs4.Tag "html" [] [Bs4.Tag "body" [] body]].

(** 60 characters. *)
Definition short_paragraph : string :=
  "This paragraph has sixty characters of text, not many more..".

(** A page whose only content is one paragraph of 60 characters. *)
Definition paragraph_page : Bs4.soup :=
  page [Bs4.Tag "p" [] [Bs4.Text short_paragraph]].

(** 224 characters, with capitals. *)
Definition article_text : string :=
  "The quick brown fox jumps over the lazy dog. The quick brown fox jumps over the lazy dog. The quick brown fox jumps over the lazy dog. The quick brown fox jumps over the lazy dog. The quick brown fox jumps over the lazy dog.".

Definition article_page : Bs4.soup :=
  page [Bs4.Tag "article" [] [Bs4.Text article_text]].

(** What the extractor makes of [article_page] fetched from [url_a]. *)
Definition article_doc : ContentProcessor.Document :=
  ContentProcessor.mkDocument url_a None None article_text None None [] 45 1
    0%Q "2024-05-01T10:00:00" "9f40af5814ee3de31e55f4482e83a3af".

(** A stored document with the given URL, fingerprint and tags. *)
Definition doc_of (u h : string) (tags : list string)
  : ContentProcessor.Document :=
  ContentProcessor.mkDocument u None None "text" None None tags 1 1 0%Q
    "2024-05-01T10:00:00" h.

Definition tagged_store : Database.t :=
  Database.mkDb true
    [Database.mkRow 1 (doc_of "http://example.com/1" "h1" ["python"; "web"]);
     Database.mkRow 2 (doc_of "http://example.com/2" "h2" ["python"; "web"]);
     Database.mkRow 3 (doc_of "http://example.com/3" "h3" ["python"])].

(** A stored document with the given URL, title, description, content,
    time of extraction and fingerprint. *)
Definition dated_doc (u : string) (t d : option string)
  (c at_ h : string) : ContentProcessor.Document :=
  ContentProcessor.mkDocument u t d c None None [] 1 1 0%Q at_ h.

(** Five rows saved on five days, not in the order of their dates: the
    query [rust] matches the content of the first, the title of the
    second and of the fourth, the description of the third. *)
Definition row_notes : Database.Row :=
  Database.mkRow 1
    (dated_doc "http://example.com/1" (Some "Weekly notes") (Some "gardening")
       "a page about rust on tools" "2024-05-04T08:00:00" "h1").

Definition row_handbook : Database.Row :=
  Database.mkRow 2
    (dated_doc "http://example.com/2" (Some "Rust handbook") None "chapters"
       "2024-05-01T09:00:00" "h2").

Definition row_languages : Database.Row :=
  Database.mkRow 3
    (dated_doc "http://example.com/3" (Some "Languages")
       (Some "Rust and Go compared") "tables" "2024-05-03T12:00:00" "h3").

Definition row_trusted : Database.Row :=
  Database.mkRow 4
    (dated_doc "http://example.com/4" (Some "Trusted sources") None "a list"
       "2024-05-02T10:00:00" "h4").

Definition row_cooking : Database.Row :=
  Database.mkRow 5
    (dated_doc "http://example.com/5" (Some "Cooking") None "recipes"
       "2024-05-05T07:00:00" "h5").

Definition dated_store : Database.t :=
  Database.mkDb true
    [row_notes; row_handbook; row_languages; row_trusted; row_cooking].

(** A manager that was never used, and an engine that cannot open the
    database file. *)
Definition unused_store : Database.t := Database.mkDb false [].

Definition broken_disk : Database.Faults := Database.mkFaults true true.

(** A link as found on a page, and what [urlparse] makes of it. *)
Definition tracked_url : string :=
  "HTTP://Example.com/blog/a/?utm_source=x&b=1//#frag".

Definition tracked_parse : UrlParse.ParseResult :=
  UrlParse.mkParse "http" "Example.com" "/blog/a/" "" "utm_source=x&b=1//"
    "frag".

(** A link with path parameters in a segment that is not the last, a
    tracking parameter and a fragment, and what [urlparse] makes of it. *)
Definition param_url : string :=
  "http://example.com/blog/a;v=1/?ref=home#top".

Definition param_parse : UrlParse.ParseResult :=
  UrlParse.mkParse "http" "example.com" "/blog/a;v=1/" "" "ref=home" "top".

(** A world of absolute links, where [urljoin] returns the link. *)
Definition absolute_env : WebCrawler.Env :=
  WebCrawler.mkEnv (fun _ => WebCrawler.GetTimeout) (fun _ => [])
    (fun _ href => Some href) libs0 0 Database.no_faults.

(** A world in which every request is answered with status 500. *)
Definition failing_env : WebCrawler.Env :=
  WebCrawler.mkEnv
    (fun _ => WebCrawler.GetResponse 500 "text/html" "Internal Server Error")
    (fun _ => []) (fun _ href => Some href) libs0 0 Database.no_faults.

Definition seeded_crawler : WebCrawler.Crawler :=
  WebCrawler.mkCrawler seeded unused_store 0.

(** A crawler that starts with [url_a] in its queue and three rows in its
    store. *)
Definition stocked_crawler : WebCrawler.Crawler :=
  WebCrawler.mkCrawler seeded tagged_store 0.

(** A manager whose queue holds [url_a] and [url_b] with priority 5 and a
    third URL with priority 1. *)
Definition url_c : string := "http://example.com/blog/c".

Definition ranked : URLManager.t :=
  (URLManager.add_url 0 url_c 1
     (URLManager.add_url 0 url_b 5
        (URLManager.add_url 0 url_a 5 fresh).1).1).1.

(** The article with a link to the page itself, and a world in which
    every request is answered with it. *)
Definition self_link_page : Bs4.soup :=
  page [Bs4.Tag "article" [] [Bs4.Text article_text];
        Bs4.Tag "a" [("href", url_a)] [Bs4.Text "permalink"]].

Definition self_link_env : WebCrawler.Env :=
  WebCrawler.mkEnv
    (fun _ => WebCrawler.GetResponse 200 "text/html" "<html>")
    (fun _ => self_link_page) (fun _ href => Some href) libs0 0
    Database.no_faults.

(** The article with a link to [url_b], a world in which every request is
    answered with it, and a configuration with a budget of one page. *)
Definition link_page : Bs4.soup :=
  page [Bs4.Tag "article" [] [Bs4.Text article_text];
        Bs4.Tag "a" [("href", url_b)] [Bs4.Text "next"]].

Definition link_env : WebCrawler.Env :=
  WebCrawler.mkEnv
    (fun _ => WebCrawler.GetResponse 200 "text/html" "<html>")
    (fun _ => link_page) (fun _ href => Some href) libs0 0
    Database.no_faults.

(** The article with two links that the filter rejects and the same two
    links with a slash at the end, and a world in which every request is
    answered with it. *)
Definition slash_links_page : Bs4.soup :=
  page [Bs4.Tag "article" [] [Bs4.Text article_text];
        Bs4.Tag "a" [("href", "http://example.com/blog/x.pdf")]
          [Bs4.Text "paper"];
        Bs4.Tag "a" [("href", "http://example.com/blog/x.pdf/")]
          [Bs4.Text "paper"];
        Bs4.Tag "a" [("href", "http://example.com/news")]
          [Bs4.Text "news"];
        Bs4.Tag "a" [("href", "http://example.com/news/")]
          [Bs4.Text "news"]].

Definition slash_links_env : WebCrawler.Env :=
  WebCrawler.mkEnv
    (fun _ => WebCrawler.GetResponse 200 "text/html" "<html>")
    (fun _ => slash_links_page) (fun _ href => Some href) libs0 0
    Database.no_faults.

Definition one_page_config : Config.CrawlerConfig :=
  Config.mkConfig 1 30 3 (Config.USEFUL_URL_PATTERNS Config.config)
    (Config.EXCLUDED_EXTENSIONS Config.config) 100.

(** A world in which every request is answered with [article_page]. *)
Definition article_env : WebCrawler.Env :=
  WebCrawler.mkEnv
    (fun _ => WebCrawler.GetResponse 200 "text/html; charset=utf-8" "<html>")
    (fun _ => article_page) (fun _ href => Some href) libs0 0
    Database.no_faults.

End Examples.

(* ===================================================================== *)
(** * Test vectors                                                        *)
(* ===================================================================== *)

(** The test suite of RFC 1321. *)
Example md5_empty : Md5.hexdigest "" = "d41d8cd98f00b204e9800998ecf8427e".
Proof. vm_compute. reflexivity. Qed.

Example md5_abc : Md5.hexdigest "abc" = "900150983cd24fb0d6963f7d28e17f72".
Proof. vm_compute. reflexivity. Qed.

Example md5_digits :
  Md5.hexdigest
    "12345678901234567890123456789012345678901234567890123456789012345678901234567890"
  = "57edf4a22be3c955ac49da2e2107b67a".
Proof. vm_compute. reflexivity. Qed.

(** The fourth property of the specification: tracking parameters go,
    the others stay in order. *)
Example normalize_strips_tracking :
  Helpers.normalize_url "http://x/?a=1&utm_source=z&b=2" = "http://x/?a=1&b=2".
Proof. vm_compute. reflexivity. Qed.

Example is_valid_url_examples :
  Helpers.is_valid_url "https://Example.co.uk:8080/blog/post-1?x=1" = true
  /\ Helpers.is_valid_url "http://localhost" = true
  /\ Helpers.is_valid_url "http://1.2.3.4/" = true
  /\ Helpers.is_valid_url "http://example/blog" = false
  /\ Helpers.is_valid_url "ftp://example.com/" = false
  /\ Helpers.is_valid_url "http://example.com#x" = false.
Proof. vm_compute. repeat split; reflexivity. Qed.

(* ===================================================================== *)
(** * Properties of the string functions                                  *)
(* ===================================================================== *)

Lemma append_nil_l (s : string) : "" ++ s = s.
Proof. reflexivity. Qed.

Lemma append_cons (c : ascii) (a b : string) :
  String c a ++ b = String c (a ++ b).
Proof. reflexivity. Qed.

Ltac ssimpl := simpl; rewrite ?append_nil_l, ?append_cons; simpl.

Ltac by_cases c :=
  destruct c as [[] [] [] [] [] [] [] []]; vm_compute; try done.

Section Strings.

Import Py UrlParse.

Implicit Types (s a b : string) (c d : ascii) (p q : ascii -> bool).


Lemma append_nil_r s : s ++ "" = s.
Proof. induction s as [|c s IH]; ssimpl; [done|]. by rewrite IH. Qed.

Lemma append_assoc a b s : (a ++ b) ++ s = a ++ (b ++ s).
Proof. induction a as [|c a IH]; ssimpl; [done|]. by rewrite IH. Qed.

Lemma all_chars_app p a b :
  all_chars p (a ++ b) = all_chars p a && all_chars p b.
Proof.
  induction a as [|c a IH]; ssimpl; [done|]. rewrite IH. by destruct (p c).
Qed.

Lemma all_chars_impl p q s :
  (forall c, p c = true -> q c = true) ->
  all_chars p s = true -> all_chars q s = true.
Proof.
  intros Hpq. induction s as [|c s IH]; ssimpl; [done|].
  intros [H1 H2]%andb_true_iff. rewrite (Hpq c H1). by apply IH.
Qed.

Lemma mem_app c a b : mem c (a ++ b) = mem c a || mem c b.
Proof.
  induction a as [|d a IH]; ssimpl; [done|]. rewrite IH. by rewrite orb_assoc.
Qed.

Lemma mem_all_chars c s :
  mem c s = false <-> all_chars (fun d => negb (Ascii.eqb c d)) s = true.
Proof.
  induction s as [|d s IH]; ssimpl; [done|].
  destruct (Ascii.eqb c d); ssimpl; [done|]. exact IH.
Qed.

Lemma all_chars_mem p c s :
  all_chars p s = true -> p c = false -> mem c s = false.
Proof.
  intros H Hc. induction s as [|d s IH]; simpl in *; [done|].
  apply andb_true_iff in H as [H1 H2]. rewrite (IH H2), orb_false_r.
  destruct (Ascii.eqb_spec c d) as [->|]; [congruence|done].
Qed.

(** ** [remove] and [lstrip] *)

Lemma remove_id p s :
  all_chars (fun c => negb (p c)) s = true -> remove p s = s.
Proof.
  induction s as [|c s IH]; ssimpl; [done|].
  intros [H1 H2]%andb_true_iff. apply negb_true_iff in H1. rewrite H1.
  by rewrite IH.
Qed.

Lemma all_chars_remove p s :
  all_chars (fun c => negb (p c)) (remove p s) = true.
Proof.
  induction s as [|c s IH]; ssimpl; [done|].
  destruct (p c) eqn:E; ssimpl; [done|]. by rewrite E, IH.
Qed.

Lemma all_chars_remove_keeps q p s :
  all_chars q s = true -> all_chars q (remove p s) = true.
Proof.
  induction s as [|c s IH]; ssimpl; [done|].
  intros [H1 H2]%andb_true_iff. destruct (p c); ssimpl; [by apply IH|].
  by rewrite H1, IH.
Qed.

Lemma all_chars_lstrip q p s :
  all_chars q s = true -> all_chars q (lstrip p s) = true.
Proof.
  induction s as [|c s IH]; ssimpl; [done|].
  intros H. destruct (p c); [|done].
  apply andb_true_iff in H as [_ H]. by apply IH.
Qed.

(** ** [span] and [split1] *)

Lemma span_spec stop s a b :
  span stop s = (a, b) ->
  s = a ++ b
  /\ all_chars (fun c => negb (stop c)) a = true
  /\ (b = "" \/ exists c b', b = String c b' /\ stop c = true).
Proof.
  revert a b. induction s as [|c s IH]; ssimpl; intros a b.
  - intros [= <- <-]. auto.
  - destruct (stop c) eqn:E.
    + intros [= <- <-]. ssimpl. split_and!; [done..|]. right. eauto.
    + destruct (span stop s) as [a' b'] eqn:Es. intros [= <- <-].
      destruct (IH a' b' eq_refl) as (-> & H1 & H2).
      ssimpl. rewrite E. auto.
Qed.

Lemma span_app stop a b :
  all_chars (fun c => negb (stop c)) a = true ->
  (b = "" \/ exists c b', b = String c b' /\ stop c = true) ->
  span stop (a ++ b) = (a, b).
Proof.
  intros Ha Hb. induction a as [|c a IH]; simpl in *.
  - destruct Hb as [->|(c & b' & -> & Hc)]; ssimpl; [done|]. by rewrite Hc.
  - apply andb_true_iff in Ha as [H1 H2]. apply negb_true_iff in H1.
    rewrite H1, (IH H2). done.
Qed.

Lemma split1_some c s a b :
  split1 c s = Some (a, b) -> s = a ++ String c b /\ mem c a = false.
Proof.
  revert a. induction s as [|d s IH]; ssimpl; intros a; [discriminate|].
  destruct (Ascii.eqb_spec c d) as [->|Hn].
  - by intros [= <- <-].
  - destruct (split1 c s) as [[a' b']|]; [|discriminate].
    intros [= <- <-]. destruct (IH a' eq_refl) as [-> H].
    split; [done|]. ssimpl. rewrite H.
    by apply Ascii.eqb_neq in Hn as ->.
Qed.

Lemma split1_none c s : split1 c s = None <-> mem c s = false.
Proof.
  induction s as [|d s IH]; ssimpl; [done|].
  destruct (Ascii.eqb c d); ssimpl; [done|].
  destruct (split1 c s) as [[a b]|]; [|tauto].
  split; [discriminate|]. intros H. apply IH in H. discriminate.
Qed.

Lemma split1_app c a b :
  mem c a = false -> split1 c (a ++ String c b) = Some (a, b).
Proof.
  induction a as [|d a IH]; ssimpl.
  - by rewrite Ascii.eqb_refl.
  - intros [H1 H2]%orb_false_iff. rewrite H1, (IH H2). done.
Qed.

Lemma split1_app_sep c a b :
  mem c a = false -> split1 c (a ++ String c "" ++ b) = Some (a, b).
Proof. apply split1_app. Qed.

(** ** [rstrip] *)

Lemma rstrip_app_l p a b :
  rstrip p b <> "" -> rstrip p (a ++ b) = a ++ rstrip p b.
Proof.
  intros Hb. induction a as [|c a IH]; ssimpl; [done|]. rewrite IH.
  destruct (a ++ rstrip p b) eqn:E; [|done].
  destruct a; [rewrite append_nil_l in E; congruence|].
  rewrite append_cons in E. discriminate.
Qed.

Lemma rstrip_app_r p a b : rstrip p b = "" -> rstrip p (a ++ b) = rstrip p a.
Proof.
  intros Hb. induction a as [|c a IH]; ssimpl; [done|]. by rewrite IH.
Qed.

Lemma rstrip_id p s :
  all_chars (fun c => negb (p c)) s = true -> rstrip p s = s.
Proof.
  induction s as [|c s IH]; ssimpl; [done|].
  intros [H1 H2]%andb_true_iff. apply negb_true_iff in H1.
  rewrite (IH H2), H1. by destruct s.
Qed.

Lemma rstrip_idem p s : rstrip p (rstrip p s) = rstrip p s.
Proof.
  induction s as [|c s IH]; ssimpl; [done|].
  destruct (rstrip p s) as [|d r] eqn:E.
  - destruct (p c) eqn:Ec; ssimpl; [done|]. by rewrite Ec.
  - change (rstrip p (String c (String d r))) with
      (match rstrip p (String d r) with
       | "" => if p c then "" else String c ""
       | r' => String c r'
       end).
    by rewrite IH.
Qed.

Lemma all_chars_rstrip q p s :
  all_chars q s = true -> all_chars q (rstrip p s) = true.
Proof.
  induction s as [|c s IH]; ssimpl; [done|].
  intros [H1 H2]%andb_true_iff. specialize (IH H2).
  destruct (rstrip p s) as [|d r].
  - destruct (p c); ssimpl; [done|]. by rewrite H1.
  - simpl in *. by rewrite H1, IH.
Qed.

Lemma startswith_char s c :
  startswith s (String c "") = true <-> exists s', s = String c s'.
Proof.
  destruct s as [|d s]; cbn [startswith].
  - split; [discriminate|]. by intros [? [=]].
  - rewrite andb_true_r. split.
    + intros ->%Ascii.eqb_eq. by eexists.
    + intros [s' [= -> _]]. apply Ascii.eqb_refl.
Qed.

Lemma rstrip_startswith p s c :
  startswith s (String c "") = true ->
  rstrip p s = "" \/ startswith (rstrip p s) (String c "") = true.
Proof.
  destruct s as [|d s]; ssimpl; [discriminate|].
  rewrite andb_true_r. intros H.
  destruct (rstrip p s); [destruct (p d)|]; ssimpl; rewrite ?andb_true_r; auto.
Qed.

End Strings.

(* ===================================================================== *)
(** * [urlparse] reads back what [urlunparse] writes                      *)
(* ===================================================================== *)

Section Urls.

Import Py UrlParse Helpers.

Implicit Types (s a b u : string) (c d : ascii) (p q : ascii -> bool)
  (r : ParseResult).

Lemma alpha_not_c0 c : is_alpha c = true -> is_c0_or_space c = false.
Proof. by_cases c. Qed.

Lemma scheme_char_safe c : is_scheme_char c = true -> is_safe c = true.
Proof. by_cases c. Qed.

Lemma scheme_char_lower c : is_scheme_char (lower_char c) = is_scheme_char c.
Proof. by_cases c. Qed.

Lemma alpha_lower c : is_alpha (lower_char c) = is_alpha c.
Proof. by_cases c. Qed.

Lemma lower_char_idem c : lower_char (lower_char c) = lower_char c.
Proof. by_cases c. Qed.

Lemma delim_cases c : is_delim c = true -> c = "/"%char \/ c = "?"%char \/ c = "#"%char.
Proof. by_cases c; auto. Qed.

Lemma slash_delim c : negb (is_delim c) = true -> negb (is_slash c) = true.
Proof. by_cases c. Qed.

Lemma lower_idem s : lower (lower s) = lower s.
Proof.
  induction s as [|c s IH]; simpl; [done|]. by rewrite lower_char_idem, IH.
Qed.

Lemma all_scheme_chars_lower s :
  all_chars is_scheme_char (lower s) = all_chars is_scheme_char s.
Proof.
  induction s as [|c s IH]; simpl; [done|]. by rewrite scheme_char_lower, IH.
Qed.

Lemma nonempty_true s : nonempty s = true <-> s <> "".
Proof. by destruct s. Qed.

Lemma nonempty_false s : nonempty s = false <-> s = "".
Proof. by destruct s. Qed.

(** The URL [urlunparse] makes of canonical components. *)
Lemma urlunparse_canonical r :
  canonical r ->
  urlunparse r
  = (if nonempty (scheme r) then scheme r ++ ":" else "")
      ++ "//" ++ netloc r ++ path r
      ++ (if nonempty (query r) then "?" ++ query r else "").
Proof.
  intros (_ & (Hn & _) & ((Hp & _) & Hprm & _ & Hf)).
  apply nonempty_true in Hn.
  assert ((if nonempty (path r) && negb (startswith (path r) "/")
           then "/" ++ path r else path r) = path r) as Hpath.
  { destruct Hp as [->| ->]; [done|]. by rewrite andb_false_r. }
  unfold urlunparse, urlunsplit. rewrite Hprm, Hf, Hn.
  cbn [nonempty orb]. rewrite Hpath.
  destruct (nonempty (scheme r)), (nonempty (query r));
    by rewrite ?append_assoc, ?append_nil_r, ?append_nil_l.
Qed.

Lemma split_scheme_canonical (sch rest : string) :
  scheme_ok sch -> startswith rest "/" = true ->
  split_scheme ((if nonempty sch then sch ++ ":" else "") ++ rest)
  = (sch, rest).
Proof.
  intros Hs [rest' ->]%startswith_char.
  destruct Hs as [->|((c & s' & -> & Hc) & Hall & Hlow)].
  - cbn [nonempty]. rewrite append_nil_l. unfold split_scheme.
    cbn [split1]. change (Ascii.eqb ":" "/") with false. cbv iota.
    by destruct (split1 ":" rest') as [[a b]|].
  - cbn [nonempty]. rewrite append_assoc.
    unfold split_scheme. rewrite split1_app_sep.
    + rewrite Hc, Hall, Hlow. done.
    + by apply (all_chars_mem is_scheme_char).
Qed.

Lemma urlsplit_canonical r :
  canonical r ->
  urlsplit (urlunparse r)
  = Some (mkSplit (scheme r) (netloc r) (path r) (query r) "").
Proof.
  intros Hc. rewrite (urlunparse_canonical r Hc).
  destruct Hc as (Hs & (Hn & Hnd & Hb & Hns) & ((Hp & Hpq & Hph & _ & Hps)
                  & _ & (Hqh & Hqs) & _)).
  set (Q := if nonempty (query r) then "?" ++ query r else "").
  set (rest := "//" ++ netloc r ++ path r ++ Q).
  assert (all_chars is_safe Q = true) as HQs.
  { subst Q. destruct (nonempty (query r)); [|done].
    by rewrite all_chars_app, Hqs. }
  assert (mem "#" Q = false) as HQh.
  { subst Q. destruct (nonempty (query r)); [|done].
    by rewrite mem_app, Hqh. }
  assert (path r ++ Q = ""
          \/ exists c b', path r ++ Q = String c b' /\ is_delim c = true) as Hd.
  { destruct (path r) as [|c p'] eqn:Ep.
    - subst Q. destruct (nonempty (query r)); [|by left].
      right. rewrite append_nil_l. by eexists _, _.
    - right. destruct Hp as [|Hp]; [done|].
      apply startswith_char in Hp as [p'' [= -> _]].
      rewrite append_cons. by eexists _, _. }
  unfold urlsplit.
  set (S := (if nonempty (scheme r) then scheme r ++ ":" else "") ++ rest).
  assert (lstrip is_c0_or_space S = S) as ->.
  { subst S. destruct Hs as [->|((c & s' & -> & Hc) & _)]; [done|].
    cbn [nonempty]. rewrite !append_cons. simpl. by rewrite alpha_not_c0. }
  assert (remove is_unsafe S = S) as ->.
  { apply remove_id. fold is_safe. change (all_chars is_safe S = true).
    subst S rest. rewrite !all_chars_app, Hns, Hps, HQs.
    destruct Hs as [->|(_ & Hall & _)]; [done|].
    destruct (nonempty (scheme r)); [|done]. rewrite all_chars_app.
    rewrite (all_chars_impl _ _ _ scheme_char_safe Hall). done. }
  subst S. rewrite (split_scheme_canonical _ rest Hs eq_refl).
  change (startswith rest "//") with true. cbv iota.
  assert (splitnetloc rest = (netloc r, path r ++ Q)) as ->.
  { subst rest. unfold splitnetloc. rewrite !append_cons, append_nil_l.
    by apply span_app. }
  rewrite Hb. cbn [negb].
  assert (split1 "#" (path r ++ Q) = None) as ->.
  { apply split1_none. by rewrite mem_app, Hph, HQh. }
  subst Q. destruct (nonempty (query r)) eqn:Eq.
  - rewrite (split1_app_sep "?" _ _ Hpq). done.
  - rewrite append_nil_r. apply split1_none in Hpq as ->.
    by apply nonempty_false in Eq as ->.
Qed.

Lemma urlparse_canonical r : canonical r -> urlparse (urlunparse r) = Some r.
Proof.
  intros Hc. unfold urlparse. rewrite (urlsplit_canonical r Hc). simpl.
  destruct Hc as (_ & _ & ((_ & _ & _ & Hsemi & _) & Hprm & _ & Hf)).
  rewrite Hsemi, andb_false_r. destruct r; simpl in *. by subst.
Qed.

(** A canonical URL whose query the filter leaves alone is normalized by
    stripping its trailing slashes. *)
Lemma normalize_canonical r :
  canonical r -> filter_query (query r) = query r ->
  normalize_url (urlunparse r) = rstrip is_slash (urlunparse r).
Proof.
  intros Hc Hq. unfold normalize_url. rewrite (urlparse_canonical r Hc).
  rewrite Hq. destruct Hc as (_ & _ & _ & _ & _ & Hf).
  destruct r; simpl in *. by subst.
Qed.

Lemma split_scheme_spec (u sch rest : string) :
  split_scheme u = (sch, rest) ->
  scheme_ok sch
  /\ forall q, all_chars q u = true -> all_chars q rest = true.
Proof.
  unfold split_scheme.
  destruct (split1 ":" u) as [[[|c pre] rest']|] eqn:E;
    try (intros [= <- <-]; split; [by left|done]).
  destruct (is_alpha c && all_chars is_scheme_char (String c pre)) eqn:Ea;
    [|intros [= <- <-]; split; [by left|done]].
  intros [= <- <-]. apply andb_true_iff in Ea as [Hc Hall].
  apply split1_some in E as [-> _]. split.
  - right. split_and!.
    + exists (lower_char c), (lower pre). by rewrite alpha_lower.
    + change (String (lower_char c) (lower pre)) with (lower (String c pre)).
      by rewrite all_scheme_chars_lower.
    + apply (lower_idem (String c pre)).
  - intros q. rewrite all_chars_app.
    intros [_ [_ H]%andb_true_iff]%andb_true_iff. done.
Qed.

Lemma startswith_two (s : string) (c : ascii) :
  startswith s (String c (String c "")) = true ->
  exists s', s = String c (String c s').
Proof.
  destruct s as [|d [|e s]]; cbn [startswith]; rewrite ?andb_false_r;
    try discriminate.
  rewrite andb_true_r.
  intros [->%Ascii.eqb_eq ->%Ascii.eqb_eq]%andb_true_iff. by eexists.
Qed.

(** What [urlparse] delivers for a URL with a host and no semicolon. *)
Lemma urlparse_facts (u : string) r :
  urlparse u = Some r -> netloc r <> "" -> mem ";" u = false ->
  params r = ""
  /\ canonical (mkParse (scheme r) (netloc r) (path r) "" (query r) "").
Proof.
  intros Hp Hn Hsemi. unfold urlparse in Hp.
  destruct (urlsplit u) as [sr|] eqn:Hs; [|discriminate].
  unfold urlsplit in Hs.
  set (u1 := remove is_unsafe (lstrip is_c0_or_space u)) in Hs.
  assert (all_chars is_safe u1 = true) as Hsafe by apply all_chars_remove.
  assert (all_chars (fun d => negb (Ascii.eqb ";" d)) u1 = true) as Hsemi1.
  { apply all_chars_remove_keeps, all_chars_lstrip. by apply mem_all_chars. }
  destruct (split_scheme u1) as [sch rest1] eqn:E1.
  apply split_scheme_spec in E1 as [Hsch Hsub1].
  destruct (if startswith rest1 "//" then splitnetloc rest1 else ("", rest1))
    as [net rest3] eqn:E2.
  destruct (negb (brackets_ok net)) eqn:Eb; [discriminate|].
  apply negb_false_iff in Eb.
  destruct (match split1 "#" rest3 with
            | Some (a, b) => (a, b)
            | None => (rest3, "")
            end) as [url4 frag] eqn:E3.
  destruct (match split1 "?" url4 with
            | Some (a, b) => (a, b)
            | None => (url4, "")
            end) as [pth qry] eqn:E4.
  injection Hs as <-. simpl in Hp.
  (* the host *)
  assert (net <> "" -> exists rest2,
            rest1 = String "/" (String "/" rest2)
            /\ span is_delim rest2 = (net, rest3)) as Hnet.
  { intros Hne. destruct (startswith rest1 "//") eqn:Esw.
    - apply startswith_two in Esw as [rest2 ->]. by exists rest2.
    - by injection E2 as <- <-. }
  (* the rest, whatever the parameters *)
  assert (forall q, all_chars q u1 = true ->
            all_chars q net = true /\ all_chars q pth = true
            /\ all_chars q qry = true) as Hsub.
  { intros q Hq. apply Hsub1 in Hq.
    assert (all_chars q net = true /\ all_chars q rest3 = true) as [Hqn Hq3].
    { destruct (startswith rest1 "//") eqn:Esw.
      - apply startswith_two in Esw as [rest2 ->]. simpl in E2.
        apply span_spec in E2 as (-> & _). simpl in Hq.
        apply andb_true_iff in Hq as [_ [_ Hq]%andb_true_iff].
        rewrite all_chars_app in Hq. by apply andb_true_iff in Hq.
      - by injection E2 as <- <-. }
    assert (all_chars q url4 = true) as Hq4.
    { destruct (split1 "#" rest3) as [[a b]|] eqn:E; injection E3 as <- <-;
        [|done].
      apply split1_some in E as [-> _]. rewrite all_chars_app in Hq3.
      by apply andb_true_iff in Hq3 as [? _]. }
    destruct (split1 "?" url4) as [[a b]|] eqn:E; injection E4 as <- <-;
      [|done].
    apply split1_some in E as [-> _]. rewrite all_chars_app in Hq4.
    apply andb_true_iff in Hq4 as [? [_ ?]%andb_true_iff]. done. }
  destruct (Hsub _ Hsafe) as (Hs1 & Hs2 & Hs3).
  destruct (Hsub _ Hsemi1) as (_ & Hsemi2 & _).
  apply mem_all_chars in Hsemi2.
  rewrite Hsemi2, andb_false_r in Hp. injection Hp as <-. simpl in *.
  destruct (Hnet Hn) as (rest2 & -> & Hspan).
  apply span_spec in Hspan as (-> & Hnd & Hd).
  (* the fragment and the query *)
  assert (mem "#" url4 = false /\ exists tail, rest3 = url4 ++ tail)
    as [Hh4 [tail4 Ht4]].
  { destruct (split1 "#" rest3) as [[a b]|] eqn:E; injection E3 as <- <-.
    - apply split1_some in E as [-> ?]. eauto.
    - apply split1_none in E. split; [done|]. exists "".
      by rewrite append_nil_r. }
  assert (mem "?" pth = false /\ mem "#" pth = false /\ mem "#" qry = false
          /\ exists tail, url4 = pth ++ tail)
    as (Hpq & Hph & Hqh & [tail Ht]).
  { destruct (split1 "?" url4) as [[a b]|] eqn:E; injection E4 as <- <-.
    - apply split1_some in E as [-> ?]. rewrite mem_app in Hh4.
      apply orb_false_iff in Hh4 as [? [_ ?]%orb_false_iff]. eauto 6.
    - apply split1_none in E. split_and!; [done..|]. exists "".
      by rewrite append_nil_r. }
  split; [done|]. unfold canonical. simpl. split_and!; try done.
  destruct pth as [|c pth']; [by left|]. right.
  subst url4. subst rest3. rewrite !append_cons in Hd.
  destruct Hd as [|(c' & b' & [= <- _] & Hdc)]; [done|].
  apply delim_cases in Hdc as [-> | [-> | ->]].
  - done.
  - simpl in Hpq. done.
  - simpl in Hph. done.
Qed.

(** ** The query filter *)

Lemma split_cons_cases c s :
  exists w ws, split c s = w :: ws.
Proof.
  induction s as [|d s (w & ws & IH)]; simpl; [by eexists _, _|].
  rewrite IH. destruct (Ascii.eqb c d); by eexists _, _.
Qed.

Lemma all_chars_split q c s :
  all_chars q s = true -> Forall (fun x => all_chars q x = true) (split c s).
Proof.
  induction s as [|d s IH]; simpl.
  - intros _. by repeat constructor.
  - intros [H1 H2]%andb_true_iff. specialize (IH H2).
    destruct (split c s) as [|w ws]; [done|].
    apply Forall_cons in IH as [Hw Hws].
    destruct (Ascii.eqb c d); repeat constructor; simpl; try done.
    by rewrite H1.
Qed.

Lemma split_no_sep c s : Forall (fun x => mem c x = false) (split c s).
Proof.
  induction s as [|d s IH]; simpl; [by repeat constructor|].
  destruct (split c s) as [|w ws]; [done|].
  apply Forall_cons in IH as [Hw Hws].
  destruct (Ascii.eqb c d) eqn:E; repeat constructor; simpl; try done.
  by rewrite E.
Qed.

Lemma join_cons sep x y (l : list string) :
  join sep (x :: y :: l) = x ++ sep ++ join sep (y :: l).
Proof. reflexivity. Qed.

Lemma all_chars_join q sep (l : list string) :
  all_chars q sep = true -> Forall (fun x => all_chars q x = true) l ->
  all_chars q (join sep l) = true.
Proof.
  intros Hsep. induction l as [|x [|y l] IH]; intros H.
  - done.
  - by apply Forall_cons in H as [? _].
  - apply Forall_cons in H as [Hx H]. rewrite join_cons, !all_chars_app.
    by rewrite Hx, Hsep, IH.
Qed.

Lemma split_app c a b :
  mem c a = false -> split c (a ++ String c b) = a :: split c b.
Proof.
  induction a as [|d a IH]; ssimpl.
  - intros _. rewrite Ascii.eqb_refl.
    by destruct (split_cons_cases c b) as (w & ws & ->).
  - intros [H1 H2]%orb_false_iff. rewrite (IH H2), H1. done.
Qed.

Lemma split_app_sep c a b :
  mem c a = false ->
  split c (a ++ String c "" ++ b) = a :: split c b.
Proof. apply split_app. Qed.

Lemma split_id c s : mem c s = false -> split c s = [s].
Proof.
  induction s as [|d s IH]; simpl; [done|].
  intros [H1 H2]%orb_false_iff. by rewrite (IH H2), H1.
Qed.

Lemma split_join c (l : list string) :
  l <> [] -> Forall (fun x => mem c x = false) l ->
  split c (join (String c "") l) = l.
Proof.
  induction l as [|x [|y l] IH]; intros Hne H; [done| |].
  - apply Forall_cons in H as [Hx _]. by apply split_id.
  - apply Forall_cons in H as [Hx H]. rewrite join_cons.
    rewrite (split_app_sep c _ _ Hx). by rewrite IH.
Qed.

Lemma rstrip_cons_keep p c s :
  p c = false -> rstrip p (String c s) = String c (rstrip p s).
Proof. intros H. simpl. rewrite H. by destruct (rstrip p s). Qed.

Lemma keep_param_rstrip (x : string) :
  keep_param x = true ->
  keep_param (rstrip is_slash x) = true /\ rstrip is_slash x <> "".
Proof.
  unfold keep_param.
  destruct (split1 "=" x) as [[key v]|] eqn:E; [|discriminate].
  intros Hk. apply split1_some in E as [-> Hkey].
  assert (rstrip is_slash (key ++ String "=" v)
          = key ++ String "=" (rstrip is_slash v)) as ->.
  { rewrite <- (rstrip_cons_keep is_slash "=" v) by done.
    apply rstrip_app_l. by rewrite rstrip_cons_keep. }
  rewrite (split1_app "=" _ _ Hkey). split; [done|]. by destruct key.
Qed.

Lemma join_nonempty sep x (l : list string) :
  x <> "" -> join sep (x :: l) <> "".
Proof.
  intros Hx. destruct l as [|y l]; [done|]. rewrite join_cons.
  destruct x; [done|]. by rewrite append_cons.
Qed.

Lemma rstrip_join (kept : list string) :
  kept <> [] ->
  Forall (fun x => keep_param x = true) kept ->
  exists kept',
    kept' <> []
    /\ Forall (fun x => keep_param x = true) kept'
    /\ (forall q, Forall (fun x => all_chars q x = true) kept ->
                  Forall (fun x => all_chars q x = true) kept')
    /\ rstrip is_slash (join "&" kept) = join "&" kept'
    /\ join "&" kept' <> "".
Proof.
  induction kept as [|x [|y l] IH]; intros Hne Hk; [done| |].
  - apply Forall_cons in Hk as [Hx _].
    destruct (keep_param_rstrip x Hx) as [Hx' Hne'].
    exists [rstrip is_slash x]. split_and!; try done.
    + by repeat constructor.
    + intros q [Hq _]%Forall_cons. repeat constructor.
      by apply all_chars_rstrip.
  - apply Forall_cons in Hk as [Hx Hk].
    destruct (IH ltac:(done) Hk) as (kept' & Hne' & Hk' & Hq' & Hr & Hj).
    exists (x :: kept'). split_and!; try done.
    + by constructor.
    + intros q [Hq Hql]%Forall_cons. constructor; [done|]. by apply Hq'.
    + rewrite join_cons, <- append_assoc.
      rewrite rstrip_app_l by (by rewrite Hr). rewrite Hr, append_assoc.
      by destruct kept'.
    + apply join_nonempty. destruct (keep_param_rstrip x Hx) as [_ H].
      intros ->. by apply H.
Qed.

Lemma filter_all (f : string -> bool) (l : list string) :
  Forall (fun x => f x = true) l -> List.filter f l = l.
Proof.
  induction l as [|x l IH]; simpl; [done|].
  intros [Hx Hl]%Forall_cons. by rewrite Hx, IH.
Qed.

Lemma filter_Forall (f : string -> bool) (P : string -> Prop)
  (l : list string) :
  Forall P l ->
  Forall (fun x => f x = true) (List.filter f l) /\ Forall P (List.filter f l).
Proof.
  induction l as [|x l IH]; simpl; [done|].
  intros [Hx Hl]%Forall_cons. destruct (IH Hl) as [H1 H2].
  destruct (f x) eqn:E; [|done]. split; by constructor.
Qed.

Lemma filter_query_join (kept : list string) :
  join "&" kept <> "" ->
  Forall (fun x => keep_param x = true) kept ->
  Forall (fun x => mem "&" x = false) kept ->
  filter_query (join "&" kept) = join "&" kept.
Proof.
  intros Hne Hk Hs. unfold filter_query.
  apply nonempty_true in Hne as Hn. rewrite Hn.
  rewrite split_join; [|by intros ->|done]. by rewrite filter_all.
Qed.

Lemma filter_query_shape (qry : string) :
  exists kept,
    Forall (fun x => keep_param x = true) kept
    /\ Forall (fun x => mem "&" x = false) kept
    /\ (forall q, q "&"%char = true -> all_chars q qry = true ->
                  Forall (fun x => all_chars q x = true) kept)
    /\ filter_query qry = join "&" kept.
Proof.
  unfold filter_query. destruct (nonempty qry).
  - exists (List.filter keep_param (split "&" qry)).
    destruct (filter_Forall keep_param _ _ (split_no_sep "&" qry)) as [H1 H2].
    split_and!; try done.
    intros q _ Hq.
    by destruct (filter_Forall keep_param _ _ (all_chars_split q "&" _ Hq)).
  - exists []. split_and!; try done.
Qed.

(** ** The shape of a normalized URL *)

Lemma rstrip_after_host (a net pth : string) :
  net <> "" -> all_chars (fun c => negb (is_slash c)) net = true ->
  rstrip is_slash (a ++ net ++ pth) = a ++ net ++ rstrip is_slash pth.
Proof.
  intros Hne Hn. destruct (rstrip is_slash pth) as [|c t] eqn:E.
  - rewrite <- append_assoc, (rstrip_app_r _ _ _ E).
    rewrite rstrip_app_l; rewrite (rstrip_id _ _ Hn); [|done].
    by rewrite append_nil_r.
  - rewrite rstrip_app_l.
    + rewrite rstrip_app_l; by rewrite E.
    + rewrite rstrip_app_l by (by rewrite E). by destruct net.
Qed.

Lemma normalize_rstrip (u : string) r :
  urlparse u = Some r ->
  rstrip is_slash (normalize_url u) = normalize_url u.
Proof. intros H. unfold normalize_url. rewrite H. apply rstrip_idem. Qed.

(** The normal form of a URL with a host and no semicolon is the URL of
    canonical components with the scheme and the host of the URL. *)
Lemma normalize_shape_host (u : string) r :
  urlparse u = Some r -> netloc r <> "" -> mem ";" u = false ->
  exists r',
    canonical r' /\ filter_query (query r') = query r'
    /\ normalize_url u = urlunparse r'
    /\ scheme r' = scheme r /\ netloc r' = netloc r.
Proof.
  intros Hp Hn Hsemi.
  destruct (urlparse_facts u r Hp Hn Hsemi) as [Hprm Hcan].
  unfold normalize_url. rewrite Hp, Hprm.
  destruct Hcan as (Hs & (Hn1 & Hn2 & Hn3 & Hn4) & (Hp1 & Hp2 & Hp3 & Hp4 & Hp5)
                    & _ & (Hq1 & Hq2) & _).
  cbn [scheme netloc path params query fragment] in *.
  destruct (filter_query_shape (query r)) as (kept & Hk & Hamp & Hall & Hfq).
  assert (Forall (fun x => all_chars (fun d => negb (Ascii.eqb "&" d)) x = true)
            kept) as Hamp'.
  { eapply Forall_impl; [exact Hamp|]. intros y Hy. by apply mem_all_chars. }
  rewrite Hfq.
  assert (Forall (fun x => all_chars is_safe x = true) kept) as Hks
    by by apply Hall.
  assert (Forall (fun x => all_chars (fun d => negb (Ascii.eqb "#" d)) x = true)
            kept) as Hkh.
  { apply Hall; [done|]. by apply mem_all_chars. }
  assert (forall l : list string,
            Forall (fun x => all_chars is_safe x = true) l ->
            Forall (fun x => all_chars (fun d => negb (Ascii.eqb "#" d)) x = true)
              l ->
            mem "#" (join "&" l) = false
            /\ all_chars is_safe (join "&" l) = true) as Hjoin.
  { intros l H1 H2. split; [apply mem_all_chars|]; by apply all_chars_join. }
  destruct kept as [|x kept].
  - (* no query is left: the slashes go from the end of the path *)
    cbn [join].
    exists (mkParse (scheme r) (netloc r) (rstrip is_slash (path r)) "" "" "").
    assert (canonical (mkParse (scheme r) (netloc r)
                         (rstrip is_slash (path r)) "" "" "")) as Hc'.
    { unfold canonical; cbn [scheme netloc path params query fragment]; split_and!; try done.
      - destruct Hp1 as [->|H]; [by left|].
        by apply (rstrip_startswith is_slash) in H.
      - apply mem_all_chars, all_chars_rstrip. by apply mem_all_chars.
      - apply mem_all_chars, all_chars_rstrip. by apply mem_all_chars.
      - apply mem_all_chars, all_chars_rstrip. by apply mem_all_chars.
      - by apply all_chars_rstrip. }
    split; [done|]. split; [done|]. split; [|done].
    rewrite (urlunparse_canonical _ Hc').
    cbn [scheme netloc path params query fragment].
    assert (canonical (mkParse (scheme r) (netloc r) (path r) "" "" ""))
      as Hc0 by (unfold canonical; cbn [scheme netloc path params query fragment]; split_and!; done).
    rewrite (urlunparse_canonical _ Hc0).
    cbn [scheme netloc path params query fragment nonempty].
    rewrite !append_nil_r.
    rewrite <- !(append_assoc _ "//" _).
    apply rstrip_after_host; [done|].
    by apply (all_chars_impl _ _ _ slash_delim).
  - (* a query is left: the slashes go from its end *)
    destruct (rstrip_join (x :: kept) ltac:(done) Hk)
      as (kept' & Hne' & Hk' & Hq' & Hr & Hj').
    destruct (Hjoin _ (Hq' _ Hks) (Hq' _ Hkh)) as [Hh' Hs'].
    destruct (Hjoin _ Hks Hkh) as [Hh0 Hs0].
    exists (mkParse (scheme r) (netloc r) (path r) "" (join "&" kept') "").
    assert (canonical (mkParse (scheme r) (netloc r) (path r) ""
                         (join "&" kept') "")) as Hc'
      by (unfold canonical; cbn [scheme netloc path params query fragment]; split_and!; done).
    split; [done|]. split.
    { cbn [query]. apply filter_query_join; [done..|].
      eapply Forall_impl; [apply (Hq' _ Hamp')|].
      intros y Hy. by apply mem_all_chars. }
    split; [|done].
    rewrite (urlunparse_canonical _ Hc').
    cbn [scheme netloc path params query fragment].
    assert (canonical (mkParse (scheme r) (netloc r) (path r) ""
                         (join "&" (x :: kept)) "")) as Hc0
      by (unfold canonical; cbn [scheme netloc path params query fragment]; split_and!; done).
    rewrite (urlunparse_canonical _ Hc0).
    cbn [scheme netloc path params query fragment nonempty].
    assert (join "&" (x :: kept) <> "") as Hj0.
    { intros E. rewrite E in Hr. simpl in Hr. by rewrite <- Hr in Hj'. }
    rewrite (proj2 (nonempty_true _) Hj'), (proj2 (nonempty_true _) Hj0).
    rewrite <- !append_assoc. rewrite rstrip_app_l by (by rewrite Hr).
    by rewrite Hr.
Qed.

Lemma normalize_shape (u : string) r :
  urlparse u = Some r -> netloc r <> "" -> mem ";" u = false ->
  exists r',
    canonical r' /\ filter_query (query r') = query r'
    /\ normalize_url u = urlunparse r'.
Proof.
  intros Hp Hn Hsemi.
  destruct (normalize_shape_host u r Hp Hn Hsemi) as (r' & H1 & H2 & H3 & _).
  by exists r'.
Qed.

Lemma normalize_idempotent (u : string) r :
  urlparse u = Some r -> netloc r <> "" -> mem ";" u = false ->
  normalize_url (normalize_url u) = normalize_url u.
Proof.
  intros Hp Hn Hsemi.
  destruct (normalize_shape u r Hp Hn Hsemi) as (r' & Hc & Hq & Hu).
  rewrite Hu at 1. rewrite (normalize_canonical r' Hc Hq), <- Hu.
  by apply (normalize_rstrip u r).
Qed.

End Urls.

(* ===================================================================== *)
(** * Path parameters and the second normalization                        *)
(* ===================================================================== *)

Section Params.

Import Py UrlParse Helpers.

Implicit Types (s a b u P hd tl sch net qry : string) (c d : ascii)
  (p q : ascii -> bool) (r : ParseResult).

(** The path [urlunparse] writes for what [urlparse] makes of the path
    [P] of a URL with the scheme [sch]: [P] itself, or [P] without its
    last character when that is a semicolon that opens empty parameters. *)
Definition read_back (sch P : string) : string :=
  let '(pth, prm) :=
    if in_list sch uses_params && mem ";" P then splitparams P
    else (P, "") in
  if nonempty prm then pth ++ ";" ++ prm else pth.

(** The URL [urlunsplit] writes for a host, a path that is empty or
    starts with a slash, a query and no fragment. *)
Definition written (sch net P qry : string) : string :=
  (if nonempty sch then sch ++ ":" else "")
    ++ "//" ++ net ++ P ++ (if nonempty qry then "?" ++ qry else "").

(** Components that [urlsplit] reads back from the URL written for them. *)
Definition split_ok (sch net P qry : string) : Prop :=
  scheme_ok sch
  /\ (net <> ""
      /\ all_chars (fun c => negb (is_delim c)) net = true
      /\ brackets_ok net = true
      /\ all_chars is_safe net = true)
  /\ ((P = "" \/ startswith P "/" = true)
      /\ mem "?" P = false /\ mem "#" P = false
      /\ all_chars is_safe P = true)
  /\ (mem "#" qry = false /\ all_chars is_safe qry = true).

Lemma rsplit_slash_none tl :
  mem "/" tl = false -> rsplit_slash tl = ("", tl).
Proof.
  induction tl as [|c tl IH]; cbn [mem rsplit_slash]; [done|].
  intros [H1 H2]%orb_false_iff. rewrite (IH H2).
  rewrite Ascii.eqb_sym in H1. by rewrite H1.
Qed.

Lemma rsplit_slash_spec s hd tl :
  rsplit_slash s = (hd, tl) ->
  s = hd ++ tl /\ mem "/" tl = false /\ (hd = "" \/ exists h, hd = h ++ "/").
Proof.
  revert hd tl. induction s as [|c s IH]; intros hd tl; simpl.
  - intros [= <- <-]. auto.
  - destruct (rsplit_slash s) as [a b].
    destruct (IH a b eq_refl) as (-> & Hb & Ha).
    destruct a as [|e a].
    + destruct (Ascii.eqb_spec c "/") as [->|Hc]; intros [= <- <-].
      * split_and!; [done..|]. right. by exists "".
      * split_and!; [done| |by left]. cbn [mem]. rewrite Hb, orb_false_r.
        apply Ascii.eqb_neq. congruence.
    + intros [= <- <-]. split_and!; [done..|]. right.
      destruct Ha as [|[h Hh]]; [done|]. exists (String c h).
      by rewrite append_cons, Hh.
Qed.

Lemma rsplit_slash_app hd tl :
  mem "/" tl = false -> (hd = "" \/ exists h, hd = h ++ "/") ->
  rsplit_slash (hd ++ tl) = (hd, tl).
Proof.
  intros Ht. induction hd as [|c hd IH]; intros Hh.
  - by apply rsplit_slash_none.
  - destruct Hh as [|[h Hh]]; [done|]. rewrite append_cons. simpl.
    destruct h as [|e h].
    + injection Hh as -> ->. rewrite append_nil_l.
      by rewrite (rsplit_slash_none _ Ht).
    + rewrite append_cons in Hh. injection Hh as -> ->.
      rewrite IH by (right; by exists h).
      by destruct h.
Qed.

(** [read_back] changes a path in one case only. *)
Lemma read_back_cases sch P :
  read_back sch P = P
  \/ (in_list sch uses_params = true
      /\ exists hd a,
           P = hd ++ a ++ ";" /\ read_back sch P = hd ++ a
           /\ mem ";" a = false /\ mem "/" a = false
           /\ (hd = "" \/ exists h, hd = h ++ "/")).
Proof.
  unfold read_back.
  destruct (in_list sch uses_params && mem ";" P) eqn:E; [|by left].
  apply andb_true_iff in E as [Hu _].
  unfold splitparams. destruct (rsplit_slash P) as [hd tl] eqn:Er.
  apply rsplit_slash_spec in Er as (-> & Ht & Hh).
  destruct (split1 ";" tl) as [[a b]|] eqn:Es; [|by left].
  apply split1_some in Es as [-> Ha].
  rewrite mem_app in Ht. apply orb_false_iff in Ht as [Ht _].
  destruct b as [|e b].
  - right. split; [done|]. exists hd, a. cbn [nonempty]. done.
  - left. cbn [nonempty]. by rewrite append_assoc.
Qed.

Lemma read_back_stable sch P :
  read_back sch (read_back sch P) = read_back sch P.
Proof.
  destruct (read_back_cases sch P) as [H|(_ & hd & a & _ & -> & Hs & Hl & Hh)];
    [by rewrite !H|].
  unfold read_back.
  destruct (in_list sch uses_params && mem ";" (hd ++ a)); [|done].
  unfold splitparams. rewrite (rsplit_slash_app _ _ Hl Hh).
  by apply split1_none in Hs as ->.
Qed.

Lemma endswith_app a suf : endswith (a ++ suf) suf = true.
Proof.
  induction a as [|c a IH].
  - rewrite append_nil_l. destruct suf; simpl; [done|].
    by rewrite Ascii.eqb_refl, String.eqb_refl.
  - rewrite append_cons. simpl. by rewrite IH, orb_true_r.
Qed.

Lemma read_back_end sch P : endswith P ";" = false -> read_back sch P = P.
Proof.
  intros H.
  destruct (read_back_cases sch P) as [|(_ & hd & a & -> & _)]; [done|].
  by rewrite <- append_assoc, endswith_app in H.
Qed.

Lemma length_rstrip p s : (String.length (rstrip p s) <= String.length s)%nat.
Proof.
  induction s as [|c s IH]; simpl; [done|].
  destruct (rstrip p s); [destruct (p c)|]; simpl in *; lia.
Qed.

Lemma string_length_app a b :
  String.length (a ++ b) = (String.length a + String.length b)%nat.
Proof. induction a as [|c a IH]; simpl; [done|]. by rewrite IH. Qed.

(** Stripping slashes never makes up for the semicolon [read_back] drops. *)
Lemma read_back_rstrip sch P :
  rstrip is_slash (read_back sch P) = P -> read_back sch P = P.
Proof.
  intros H.
  destruct (read_back_cases sch P) as [|(_ & hd & a & HP & Hr & _)]; [done|].
  pose proof (length_rstrip is_slash (read_back sch P)) as Hl.
  rewrite H in Hl. rewrite HP in Hl at 1. rewrite Hr in Hl.
  rewrite <- append_assoc, !string_length_app in Hl. simpl in Hl. lia.
Qed.

Lemma all_chars_read_back q sch P :
  all_chars q P = true -> all_chars q (read_back sch P) = true.
Proof.
  destruct (read_back_cases sch P) as [->|(_ & hd & a & -> & -> & _)]; [done|].
  rewrite <- append_assoc, all_chars_app. by intros [? _]%andb_true_iff.
Qed.

Lemma read_back_rooted sch P :
  P = "" \/ startswith P "/" = true ->
  read_back sch P = "" \/ startswith (read_back sch P) "/" = true.
Proof.
  destruct (read_back_cases sch P) as [->|(_ & hd & a & -> & -> & _)]; [done|].
  intros [H|H].
  - destruct hd, a; discriminate.
  - rewrite <- append_assoc in H.
    destruct (hd ++ a) as [|c x]; [by left|]. right. exact H.
Qed.

Lemma mem_read_back c sch P :
  mem c P = false -> mem c (read_back sch P) = false.
Proof.
  intros H. apply mem_all_chars, all_chars_read_back. by apply mem_all_chars.
Qed.

Lemma split_ok_read_back sch net P qry :
  split_ok sch net P qry -> split_ok sch net (read_back sch P) qry.
Proof.
  intros (Hs & (Hn1 & Hn2 & Hn3 & Hn4) & (Hp1 & Hp2 & Hp3 & Hp4) & (Hq1 & Hq2)).
  unfold split_ok. split_and!; try done.
  - destruct (read_back_rooted sch P Hp1); auto.
  - by apply mem_read_back.
  - by apply mem_read_back.
  - by apply all_chars_read_back.
Qed.

Lemma split_ok_rstrip sch net P qry :
  split_ok sch net P qry -> split_ok sch net (rstrip is_slash P) qry.
Proof.
  intros (Hs & (Hn1 & Hn2 & Hn3 & Hn4) & (Hp1 & Hp2 & Hp3 & Hp4) & (Hq1 & Hq2)).
  unfold split_ok. split_and!; try done.
  - destruct Hp1 as [->|H]; [by left|].
    destruct (rstrip_startswith is_slash _ _ H); auto.
  - apply mem_all_chars, all_chars_rstrip. by apply mem_all_chars.
  - apply mem_all_chars, all_chars_rstrip. by apply mem_all_chars.
  - by apply all_chars_rstrip.
Qed.

(** ** Writing and reading at the level of [urlsplit] *)

Lemma urlunsplit_host sch net P qry :
  net <> "" -> (P = "" \/ startswith P "/" = true) ->
  urlunsplit sch net P qry "" = written sch net P qry.
Proof.
  intros Hn%nonempty_true Hp.
  assert ((if nonempty P && negb (startswith P "/") then "/" ++ P else P) = P)
    as HP.
  { destruct Hp as [->| ->]; [done|]. by rewrite andb_false_r. }
  unfold urlunsplit, written. rewrite Hn. cbn [nonempty orb]. rewrite HP.
  destruct (nonempty sch), (nonempty qry);
    by rewrite ?append_assoc, ?append_nil_r, ?append_nil_l.
Qed.

Lemma urlsplit_written sch net P qry :
  split_ok sch net P qry ->
  urlsplit (written sch net P qry) = Some (mkSplit sch net P qry "").
Proof.
  intros (Hs & (Hn & Hnd & Hb & Hns) & (Hp & Hpq & Hph & Hps) & (Hqh & Hqs)).
  unfold written.
  set (Q := if nonempty qry then "?" ++ qry else "").
  set (rest := "//" ++ net ++ P ++ Q).
  assert (all_chars is_safe Q = true) as HQs.
  { subst Q. destruct (nonempty qry); [|done]. by rewrite all_chars_app, Hqs. }
  assert (mem "#" Q = false) as HQh.
  { subst Q. destruct (nonempty qry); [|done]. by rewrite mem_app, Hqh. }
  assert (P ++ Q = ""
          \/ exists c b', P ++ Q = String c b' /\ is_delim c = true) as Hd.
  { destruct P as [|c p'] eqn:Ep.
    - subst Q. destruct (nonempty qry); [|by left].
      right. rewrite append_nil_l. by eexists _, _.
    - right. destruct Hp as [|Hp]; [done|].
      apply startswith_char in Hp as [p'' [= -> _]].
      rewrite append_cons. by eexists _, _. }
  unfold urlsplit.
  set (S := (if nonempty sch then sch ++ ":" else "") ++ rest).
  assert (lstrip is_c0_or_space S = S) as ->.
  { subst S. destruct Hs as [->|((c & s' & -> & Hc) & _)]; [done|].
    cbn [nonempty]. rewrite !append_cons. simpl. by rewrite alpha_not_c0. }
  assert (remove is_unsafe S = S) as ->.
  { apply remove_id. fold is_safe. change (all_chars is_safe S = true).
    subst S rest. rewrite !all_chars_app, Hns, Hps, HQs.
    destruct Hs as [->|(_ & Hall & _)]; [done|].
    destruct (nonempty sch); [|done]. rewrite all_chars_app.
    rewrite (all_chars_impl _ _ _ scheme_char_safe Hall). done. }
  subst S. rewrite (split_scheme_canonical _ rest Hs eq_refl).
  change (startswith rest "//") with true. cbv iota.
  assert (splitnetloc rest = (net, P ++ Q)) as ->.
  { subst rest. unfold splitnetloc. rewrite !append_cons, append_nil_l.
    by apply span_app. }
  rewrite Hb. cbn [negb].
  assert (split1 "#" (P ++ Q) = None) as ->.
  { apply split1_none. by rewrite mem_app, Hph, HQh. }
  subst Q. destruct (nonempty qry) eqn:Eq.
  - rewrite (split1_app_sep "?" _ _ Hpq). done.
  - rewrite append_nil_r. apply split1_none in Hpq as ->.
    by apply nonempty_false in Eq as ->.
Qed.

(** What [urlsplit] delivers for a URL with a host. *)
Lemma urlsplit_facts (u : string) (sr : SplitResult) :
  urlsplit u = Some sr -> s_netloc sr <> "" ->
  split_ok (s_scheme sr) (s_netloc sr) (s_path sr) (s_query sr).
Proof.
  intros Hs Hn. unfold urlsplit in Hs.
  set (u1 := remove is_unsafe (lstrip is_c0_or_space u)) in Hs.
  assert (all_chars is_safe u1 = true) as Hsafe by apply all_chars_remove.
  destruct (split_scheme u1) as [sch rest1] eqn:E1.
  apply split_scheme_spec in E1 as [Hsch Hsub1].
  destruct (if startswith rest1 "//" then splitnetloc rest1 else ("", rest1))
    as [net rest3] eqn:E2.
  destruct (negb (brackets_ok net)) eqn:Eb; [discriminate|].
  apply negb_false_iff in Eb.
  destruct (match split1 "#" rest3 with
            | Some (a, b) => (a, b)
            | None => (rest3, "")
            end) as [url4 frag] eqn:E3.
  destruct (match split1 "?" url4 with
            | Some (a, b) => (a, b)
            | None => (url4, "")
            end) as [pth qry] eqn:E4.
  injection Hs as <-. simpl in Hn.
  assert (exists rest2,
            rest1 = String "/" (String "/" rest2)
            /\ span is_delim rest2 = (net, rest3)) as (rest2 & -> & Hspan).
  { destruct (startswith rest1 "//") eqn:Esw.
    - apply startswith_two in Esw as [rest2 ->]. by exists rest2.
    - by injection E2 as <- <-. }
  assert (forall q, all_chars q u1 = true ->
            all_chars q net = true /\ all_chars q pth = true
            /\ all_chars q qry = true) as Hsub.
  { intros q Hq. apply Hsub1 in Hq.
    assert (all_chars q net = true /\ all_chars q rest3 = true) as [Hqn Hq3].
    { simpl in E2. apply span_spec in E2 as (-> & _). simpl in Hq.
      apply andb_true_iff in Hq as [_ [_ Hq]%andb_true_iff].
      rewrite all_chars_app in Hq. by apply andb_true_iff in Hq. }
    assert (all_chars q url4 = true) as Hq4.
    { destruct (split1 "#" rest3) as [[a b]|] eqn:E; injection E3 as <- <-;
        [|done].
      apply split1_some in E as [-> _]. rewrite all_chars_app in Hq3.
      by apply andb_true_iff in Hq3 as [? _]. }
    destruct (split1 "?" url4) as [[a b]|] eqn:E; injection E4 as <- <-;
      [|done].
    apply split1_some in E as [-> _]. rewrite all_chars_app in Hq4.
    apply andb_true_iff in Hq4 as [? [_ ?]%andb_true_iff]. done. }
  destruct (Hsub _ Hsafe) as (Hs1 & Hs2 & Hs3).
  apply span_spec in Hspan as (-> & Hnd & Hd).
  assert (mem "#" url4 = false /\ exists tail, rest3 = url4 ++ tail)
    as [Hh4 [tail4 Ht4]].
  { destruct (split1 "#" rest3) as [[a b]|] eqn:E; injection E3 as <- <-.
    - apply split1_some in E as [-> ?]. eauto.
    - apply split1_none in E. split; [done|]. exists "".
      by rewrite append_nil_r. }
  assert (mem "?" pth = false /\ mem "#" pth = false /\ mem "#" qry = false
          /\ exists tail, url4 = pth ++ tail)
    as (Hpq & Hph & Hqh & [tail Ht]).
  { destruct (split1 "?" url4) as [[a b]|] eqn:E; injection E4 as <- <-.
    - apply split1_some in E as [-> ?]. rewrite mem_app in Hh4.
      apply orb_false_iff in Hh4 as [? [_ ?]%orb_false_iff]. eauto 6.
    - apply split1_none in E. split_and!; [done..|]. exists "".
      by rewrite append_nil_r. }
  unfold split_ok. simpl. split_and!; try done.
  destruct pth as [|c pth']; [by left|]. right.
  subst url4. subst rest3. rewrite !append_cons in Hd.
  destruct Hd as [|(c' & b' & [= <- _] & Hdc)]; [done|].
  apply delim_cases in Hdc as [-> | [-> | ->]].
  - done.
  - simpl in Hpq. done.
  - simpl in Hph. done.
Qed.

(** ** The normal form in the terms of [urlsplit] *)

Lemma written_rstrip sch net P :
  net <> "" -> all_chars (fun c => negb (is_delim c)) net = true ->
  rstrip is_slash (written sch net P "")
  = written sch net (rstrip is_slash P) "".
Proof.
  intros Hn Hd. unfold written. cbn [nonempty]. rewrite !append_nil_r.
  rewrite <- !(append_assoc _ "//" _).
  apply rstrip_after_host; [done|].
  by apply (all_chars_impl _ _ _ slash_delim).
Qed.

Lemma append_inj_l a x y : a ++ x = a ++ y -> x = y.
Proof.
  induction a as [|c a IH]; [done|]. rewrite !append_cons.
  intros [= H]. by apply IH.
Qed.

Lemma written_inj sch net P P' :
  written sch net P "" = written sch net P' "" -> P = P'.
Proof.
  unfold written. cbn [nonempty]. rewrite !append_nil_r.
  intros H. by repeat apply append_inj_l in H.
Qed.

Lemma split_params_facts sch P pth prm :
  (if in_list sch uses_params && mem ";" P then splitparams P else (P, ""))
  = (pth, prm) ->
  mem "/" prm = false.
Proof.
  destruct (in_list sch uses_params && mem ";" P); [|by intros [= <- <-]].
  unfold splitparams. destruct (rsplit_slash P) as [hd tl] eqn:Er.
  apply rsplit_slash_spec in Er as (-> & Ht & _).
  destruct (split1 ";" tl) as [[a b]|] eqn:Es; intros [= <- <-]; [|done].
  apply split1_some in Es as [-> _]. rewrite mem_app in Ht.
  apply orb_false_iff in Ht as [_ Ht]. simpl in Ht. exact Ht.
Qed.

Lemma rstrip_no_slash s : mem "/" s = false -> rstrip is_slash s = s.
Proof.
  intros H. apply rstrip_id. apply mem_all_chars in H.
  revert H. apply all_chars_impl. intros c. unfold is_slash.
  by rewrite Ascii.eqb_sym.
Qed.

(** [urlparse] is [urlsplit] followed by the split of the parameters;
    [urlunparse] puts them back before it calls [urlunsplit]. *)
Lemma urlparse_split u r :
  urlparse u = Some r ->
  exists sr,
    urlsplit u = Some sr
    /\ scheme r = s_scheme sr /\ netloc r = s_netloc sr
    /\ query r = s_query sr
    /\ (if in_list (s_scheme sr) uses_params && mem ";" (s_path sr)
        then splitparams (s_path sr) else (s_path sr, ""))
       = (path r, params r).
Proof.
  unfold urlparse. destruct (urlsplit u) as [sr|]; [|discriminate].
  destruct (if in_list (s_scheme sr) uses_params && mem ";" (s_path sr)
            then splitparams (s_path sr) else (s_path sr, ""))
    as [pth prm] eqn:E.
  intros [= <-]. exists sr. by rewrite E.
Qed.

Lemma written_params r sr :
  (if in_list (s_scheme sr) uses_params && mem ";" (s_path sr)
   then splitparams (s_path sr) else (s_path sr, ""))
  = (path r, params r) ->
  (if nonempty (params r) then path r ++ ";" ++ params r else path r)
  = read_back (s_scheme sr) (s_path sr).
Proof. intros H. unfold read_back. by rewrite H. Qed.

Lemma normalize_split u r sr :
  urlparse u = Some r -> urlsplit u = Some sr -> s_netloc sr <> "" ->
  normalize_url u
  = rstrip is_slash
      (written (s_scheme sr) (s_netloc sr)
         (read_back (s_scheme sr) (s_path sr))
         (filter_query (s_query sr))).
Proof.
  intros Hp Hs Hn.
  destruct (urlparse_split u r Hp) as (sr' & Hs' & H1 & H2 & H3 & H4).
  rewrite Hs in Hs'. injection Hs' as <-.
  unfold normalize_url. rewrite Hp. unfold urlunparse.
  cbn [scheme netloc path params query fragment].
  rewrite (written_params r sr H4), H1, H2, H3.
  destruct (urlsplit_facts u sr Hs Hn) as (_ & _ & (Hr & _) & _).
  rewrite urlunsplit_host; [reflexivity|done|].
  by apply read_back_rooted.
Qed.

(** Reading the URL written for good components, and normalizing it. *)
Lemma urlparse_written sch net P qry :
  split_ok sch net P qry ->
  exists r',
    urlparse (written sch net P qry) = Some r'
    /\ urlunparse r' = written sch net (read_back sch P) qry.
Proof.
  intros Hok. pose proof (urlsplit_written sch net P qry Hok) as Hs.
  unfold urlparse. rewrite Hs. cbn [s_scheme s_netloc s_path s_query s_fragment].
  destruct (if in_list sch uses_params && mem ";" P
            then splitparams P else (P, "")) as [pth prm] eqn:E.
  eexists. split; [reflexivity|]. unfold urlunparse.
  cbn [scheme netloc path params query fragment].
  assert ((if nonempty prm then pth ++ ";" ++ prm else pth) = read_back sch P)
    as -> by (unfold read_back; by rewrite E).
  destruct Hok as (_ & (Hn & _) & (Hr & _) & _).
  apply urlunsplit_host; [done|]. by apply read_back_rooted.
Qed.

Lemma normalize_written sch net P qry :
  split_ok sch net P qry ->
  normalize_url (written sch net P qry)
  = rstrip is_slash (written sch net (read_back sch P) (filter_query qry)).
Proof.
  intros Hok. destruct (urlparse_written sch net P qry Hok) as (r' & Hp & _).
  pose proof (urlsplit_written sch net P qry Hok) as Hs.
  rewrite (normalize_split _ r' _ Hp Hs); [done|].
  by destruct Hok as (_ & (Hn & _) & _).
Qed.

(** The normal form of a URL with a host: the components it is written
    for, and the one case in which it is not read back as written. *)
Lemma normalize_form u r :
  urlparse u = Some r -> netloc r <> "" ->
  exists P qry,
    split_ok (scheme r) (netloc r) P qry
    /\ normalize_url u = written (scheme r) (netloc r) P qry
    /\ filter_query qry = qry
    /\ ((qry <> "" /\ filter_query (query r) <> ""
         /\ read_back (scheme r) P = P)
        \/ (qry = "" /\ filter_query (query r) = ""
            /\ P = rstrip is_slash
                     (if nonempty (params r)
                      then path r ++ ";" ++ params r else path r)
            /\ (params r <> "" -> read_back (scheme r) P = P))).
Proof.
  intros Hp Hn.
  destruct (urlparse_split u r Hp) as (sr & Hs & H1 & H2 & H3 & H4).
  rewrite H2 in Hn.
  pose proof (urlsplit_facts u sr Hs Hn) as Hok.
  rewrite (normalize_split u r sr Hp Hs Hn).
  pose proof (written_params r sr H4) as Hw.
  rewrite Hw, H1, H2, H3.
  set (sch := s_scheme sr) in *. set (net := s_netloc sr) in *.
  set (P0 := s_path sr) in *. set (q0 := s_query sr) in *.
  apply split_ok_read_back in Hok as Hok1.
  destruct Hok1 as (Hsch & (Hn1 & Hn2 & Hn3 & Hn4) & HP1 & (Hq1 & Hq2)).
  destruct (filter_query_shape q0) as (kept & Hk & Hamp & Hall & Hfq).
  assert (Forall (fun x => all_chars (fun d => negb (Ascii.eqb "&" d)) x = true)
            kept) as Hamp'.
  { eapply Forall_impl; [exact Hamp|]. intros y Hy. by apply mem_all_chars. }
  assert (Forall (fun x => all_chars is_safe x = true) kept) as Hks
    by by apply Hall.
  assert (Forall (fun x => all_chars (fun d => negb (Ascii.eqb "#" d)) x = true)
            kept) as Hkh.
  { apply Hall; [done|]. by apply mem_all_chars. }
  rewrite Hfq. destruct kept as [|x kept].
  - (* no query is left: the slashes go from the end of the path *)
    cbn [join]. exists (rstrip is_slash (read_back sch P0)), "".
    split_and!.
    + apply split_ok_rstrip. unfold split_ok.
      destruct HP1 as (? & ? & ? & ?). split_and!; done.
    + by apply written_rstrip.
    + done.
    + right. split_and!; [done..|].
      intros Hprm.
      assert (rstrip is_slash (read_back sch P0) = read_back sch P0) as ->.
      { rewrite <- Hw. apply nonempty_true in Hprm as Hprm'. rewrite Hprm'.
        pose proof (split_params_facts _ _ _ _ H4) as Hsl.
        rewrite <- append_assoc.
        rewrite rstrip_app_l; rewrite (rstrip_no_slash _ Hsl); [done|].
        by apply nonempty_true. }
      apply read_back_stable.
  - (* a query is left: the slashes go from its end *)
    destruct (rstrip_join (x :: kept) ltac:(done) Hk)
      as (kept' & Hne' & Hk' & Hq' & Hr & Hj').
    assert (join "&" (x :: kept) <> "") as Hj0.
    { intros E. rewrite E in Hr. simpl in Hr. by rewrite <- Hr in Hj'. }
    exists (read_back sch P0), (join "&" kept'). split_and!.
    + destruct HP1 as (? & ? & ? & ?). unfold split_ok. split_and!; try done.
      * apply mem_all_chars, all_chars_join; [done|]. by apply Hq'.
      * apply all_chars_join; [done|]. by apply Hq'.
    + unfold written.
      rewrite (proj2 (nonempty_true _) Hj'), (proj2 (nonempty_true _) Hj0).
      rewrite <- !append_assoc. rewrite rstrip_app_l by (by rewrite Hr).
      by rewrite Hr.
    + apply filter_query_join; [done..|].
      eapply Forall_impl; [apply (Hq' _ Hamp')|].
      intros y Hy. by apply mem_all_chars.
    + left. split_and!; [done..|]. apply read_back_stable.
Qed.

(** The second normalization of a URL with a host changes the first
    exactly when [urlparse] and [urlunparse] do not read the first back
    as it is written. *)
Lemma normalize_twice u r :
  urlparse u = Some r -> netloc r <> "" ->
  exists r',
    urlparse (normalize_url u) = Some r'
    /\ (normalize_url (normalize_url u) = normalize_url u
        <-> urlunparse r' = normalize_url u)
    /\ (filter_query (query r) <> "" \/ params r <> ""
        \/ endswith (rstrip is_slash (path r)) ";" = false ->
        urlunparse r' = normalize_url u).
Proof.
  intros Hp Hn.
  destruct (normalize_form u r Hp Hn) as (P & qry & Hok & HN & Hfq & Hcase).
  destruct (urlparse_written _ _ _ _ Hok) as (r' & Hp' & Hu').
  pose proof (normalize_written _ _ _ _ Hok) as HNN.
  rewrite <- HN in Hp', HNN. rewrite Hfq in HNN.
  exists r'. split; [done|]. rewrite Hu', HNN, HN.
  destruct Hok as (_ & (Hn1 & Hn2 & _) & _).
  destruct Hcase as [(Hq & Hq0 & Hrb)|(-> & Hq0 & HP & Hprm)].
  - rewrite Hrb. split; [|done]. split; [done|]. intros _.
    rewrite <- HN. by apply (normalize_rstrip u r).
  - rewrite written_rstrip by done. split.
    + split.
      * intros H%written_inj%read_back_rstrip. by rewrite H.
      * intros H%written_inj. rewrite H. f_equal. rewrite HP.
        apply rstrip_idem.
    + intros [H|[H|H]]; [done|by rewrite Hprm|].
      destruct (nonempty (params r)) eqn:E.
      * apply nonempty_true in E. by rewrite Hprm.
      * rewrite read_back_end; [done|]. by rewrite HP.
Qed.

End Params.

Local Open Scope list_scope.

(* ===================================================================== *)
(** * Properties of the frontier                                          *)
(* ===================================================================== *)

Section Frontier.

Import URLManager.

Implicit Types (m : t) (q : gmap string Z) (u url : string).

Lemma zmax_lookup q u p : zmax q = Some (u, p) -> q !! u = Some p.
Proof.
  unfold zmax. intros H. apply elem_of_map_to_list.
  revert H. generalize (map_to_list q). intros l.
  induction l as [|x l IH]; simpl; [discriminate|].
  destruct (foldr _ None l) as [y|] eqn:E.
  - destruct (ranks_above y x); intros [= ->].
    + right. by apply IH.
    + left.
  - intros [= ->]. left.
Qed.

Lemma get_next_url_spec m u m' :
  get_next_url m = (Some u, m') ->
  is_Some (crawl_queue (redis_client m) !! u)
  /\ crawl_queue (redis_client m') = delete u (crawl_queue (redis_client m))
  /\ r_crawled_urls (redis_client m') = r_crawled_urls (redis_client m)
  /\ crawled_urls m' = crawled_urls m.
Proof.
  unfold get_next_url, zpopmax.
  destruct (zmax _) as [[v p]|] eqn:E; [|discriminate].
  intros [= <- <-]. simpl. apply zmax_lookup in E. eauto.
Qed.

Lemma get_next_url_none m m' : get_next_url m = (None, m') -> m' = m.
Proof.
  unfold get_next_url, zpopmax.
  destruct (zmax _) as [[v p]|]; [discriminate|]. by intros [= <-].
Qed.

Lemma is_crawled_redis url m :
  redis_client (is_crawled url m).2 = redis_client m.
Proof. unfold is_crawled. repeat case_bool_decide; reflexivity. Qed.

Lemma is_crawled_cache url m h :
  h ∈ crawled_urls (is_crawled url m).2 <->
  (h ∈ crawled_urls m
   \/ (h = _hash_url url /\ h ∈ r_crawled_urls (redis_client m))).
Proof.
  unfold is_crawled. repeat case_bool_decide; simpl; set_solver.
Qed.


Lemma is_crawled_false url m :
  (is_crawled url m).1 = false ->
  (is_crawled url m).2 = m /\ (_hash_url url ∉ crawled_urls m)
  /\ (_hash_url url ∉ r_crawled_urls (redis_client m)).
Proof. unfold is_crawled. repeat case_bool_decide; simpl; by try discriminate. Qed.


Lemma add_url_visited now url p m :
  r_crawled_urls (redis_client (add_url now url p m).1)
  = r_crawled_urls (redis_client m).
Proof.
  unfold add_url. destruct (is_crawled url m) as [b m1] eqn:E.
  pose proof (is_crawled_redis url m) as Hr. rewrite E in Hr. simpl in Hr.
  destruct b; simpl; [by rewrite Hr|].
  destruct (UrlParse.urlparse url); simpl; by rewrite Hr.
Qed.

Lemma add_url_cache now url p m h :
  h ∈ crawled_urls (add_url now url p m).1 <->
  h ∈ crawled_urls (is_crawled url m).2.
Proof.
  unfold add_url. destruct (is_crawled url m) as [[] m1]; simpl; [done|].
  by destruct (UrlParse.urlparse url).
Qed.

Lemma add_url_queue now url p m :
  crawl_queue (redis_client (add_url now url p m).1)
  = if (is_crawled url m).1 then crawl_queue (redis_client m)
    else <[url := p]> (crawl_queue (redis_client m)).
Proof.
  unfold add_url. destruct (is_crawled url m) as [b m1] eqn:E.
  pose proof (is_crawled_redis url m) as Hr. rewrite E in Hr. simpl in Hr.
  destruct b; simpl; [by rewrite Hr|].
  destruct (UrlParse.urlparse url); simpl; by rewrite Hr.
Qed.

Lemma step_cache_sound o m : cache_sound m -> cache_sound (step o m).2.
Proof.
  unfold cache_sound. intros H. destruct o as [now url p| |url|url]; simpl.
  - destruct (add_url now url p m) as [m' out] eqn:E. simpl.
    intros h Hh.
    assert (m' = (add_url now url p m).1) as -> by by rewrite E.
    rewrite add_url_visited. apply add_url_cache, is_crawled_cache in Hh.
    set_solver.
  - destruct (get_next_url m) as [[u|] m'] eqn:E; simpl.
    + apply get_next_url_spec in E as (_ & _ & -> & ->). done.
    + apply get_next_url_none in E as ->. done.
  - set_solver.
  - destruct (is_crawled url m) as [b m'] eqn:E. simpl.
    assert (m' = (is_crawled url m).2) as -> by by rewrite E.
    rewrite is_crawled_redis. intros h Hh. apply is_crawled_cache in Hh.
    set_solver.
Qed.

Lemma run_cache_sound ops m : cache_sound m -> cache_sound (run ops m).2.
Proof.
  revert m. induction ops as [|o ops IH]; intros m H; simpl; [done|].
  destruct (step o m) as [r m'] eqn:E.
  destruct (run ops m') as [rs m''] eqn:E'. simpl.
  assert (m'' = (run ops m').2) as -> by by rewrite E'.
  apply IH. assert (m' = (step o m).2) as -> by by rewrite E.
  by apply step_cache_sound.
Qed.





End Frontier.

(** C10.  At every point of every sequence of calls on a fresh manager
    (whose backend calls succeed), the in-process set [crawled_urls] is a
    subset of the backend set [crawled_urls]: whatever the state [r] of the
    backend at the start, after any calls [ops] every hash in the cache is
    in the backend set. *)
Theorem C10_cache_subset_of_backend :
  forall (ops : list URLManager.op) (r : URLManager.Redis),
    URLManager.crawled_urls (URLManager.run ops (URLManager.new r)).2
    ⊆ URLManager.r_crawled_urls
        (URLManager.redis_client (URLManager.run ops (URLManager.new r)).2).
Proof.
  intros ops r. apply run_cache_sound.
  unfold URLManager.cache_sound, URLManager.new. simpl. set_solver.
Qed.




(** C5, as stated, fails: a priority-1 add of a queued priority-10 URL
    leaves it queued with priority 1. *)
Lemma C5_counterexample :
  URLManager.crawl_queue (URLManager.redis_client Examples.seeded)
    !! Examples.url_a = Some 10%Z
  /\ (URLManager.is_crawled Examples.url_a Examples.seeded).1 = false
  /\ URLManager.crawl_queue
       (URLManager.redis_client
          (URLManager.add_url 1 Examples.url_a 1 Examples.seeded).1)
       !! Examples.url_a
     = Some 1%Z
  /\ Some 1%Z <> Some (Z.max 10 1).
Proof. vm_compute. repeat split; try reflexivity. discriminate. Qed.

(** C5, amended.  For a URL queued with priority [p1] and not yet
    crawled, an [add_url] of the same URL with priority [p2] leaves it
    queued with priority [p2]: the score is overwritten by the last add. *)
Theorem C5_add_overwrites_priority :
  forall (now : Z) (u : string) (p1 p2 : Z) (m : URLManager.t),
    URLManager.crawl_queue (URLManager.redis_client m) !! u = Some p1 ->
    (URLManager.is_crawled u m).1 = false ->
    URLManager.crawl_queue
      (URLManager.redis_client (URLManager.add_url now u p2 m).1) !! u
    = Some p2.
Proof.
  intros now u p1 p2 m _ Hc. rewrite add_url_queue, Hc.
  apply lookup_insert_eq.
Qed.

Lemma C5_add_overwrites_priority_witness :
  URLManager.crawl_queue (URLManager.redis_client Examples.seeded)
    !! Examples.url_a = Some 10%Z
  /\ (URLManager.is_crawled Examples.url_a Examples.seeded).1 = false
  /\ URLManager.crawl_queue
       (URLManager.redis_client
          (URLManager.add_url 7 Examples.url_a 1 Examples.seeded).1)
       !! Examples.url_a
     = Some 1%Z.
Proof.
  assert (URLManager.crawl_queue (URLManager.redis_client Examples.seeded)
            !! Examples.url_a = Some 10%Z)
    as H1 by (vm_compute; reflexivity).
  assert ((URLManager.is_crawled Examples.url_a Examples.seeded).1 = false)
    as H2 by (vm_compute; reflexivity).
  split; [exact H1|]. split; [exact H2|].
  exact (C5_add_overwrites_priority 7 Examples.url_a 10 1 Examples.seeded
           H1 H2).
Defined.

(* ===================================================================== *)
(** * Properties of the content store                                     *)
(* ===================================================================== *)

Section Store.

Import Database ContentProcessor.

Implicit Types (f : Faults) (db : t) (rows : Store) (d : Document).

Lemma init_db_table f db db1 :
  init_db f db = Some db1 -> table db1 = table db /\ initialized db1 = true.
Proof.
  unfold init_db. destruct (initialized db) eqn:E.
  - by intros [= <-].
  - destruct (init_fails f); [discriminate|]. by intros [= <-].
Qed.

End Store.

(** C4, as stated, fails: [init_db] runs before the [try] block, so on a
    manager that is not yet initialized a failure to open the database
    leaves [save_content] as an exception. *)
Lemma C4_counterexample :
  Database.save_content Examples.broken_disk Examples.unused_store
    (Examples.doc_of "http://example.com/1" "h1" [])
  = (Database.Raised, Examples.unused_store).
Proof. reflexivity. Qed.

(** C4, amended.  Once [init_db] has gone through (it does nothing on an
    initialized manager), [save_content] returns a boolean and
    - returns [False] and leaves the table unchanged when a row with the
      same [content_hash] exists;
    - otherwise, when nothing fails, returns [True] and the table is the
      old one followed by a row holding the document;
    - otherwise, when a statement fails (a fault of the engine, or a row
      with the same [url] violating the [UNIQUE] constraint), returns
      [False] and leaves the table unchanged. *)
Theorem C4_save_content_insert_once :
  forall (f : Database.Faults) (db db1 : Database.t)
         (d : ContentProcessor.Document),
    Database.init_db f db = Some db1 ->
    Database.table db1 = Database.table db
    /\ (Database.has_hash (Database.table db)
          (ContentProcessor.content_hash d) = true ->
        Database.save_content f db d = (Database.Returned false, db1))
    /\ (Database.has_hash (Database.table db)
          (ContentProcessor.content_hash d) = false ->
        Database.statement_fails f = false ->
        Database.has_url (Database.table db) (ContentProcessor.url d)
        = false ->
        Database.save_content f db d
        = (Database.Returned true,
           Database.mkDb true
             (Database.table db
              ++ [Database.mkRow (Database.next_id (Database.table db)) d])))
    /\ (Database.has_hash (Database.table db)
          (ContentProcessor.content_hash d) = false ->
        (Database.statement_fails f = true
         \/ Database.has_url (Database.table db) (ContentProcessor.url d)
            = true) ->
        Database.save_content f db d = (Database.Returned false, db1)).
Proof.
  intros f db db1 d H. destruct (init_db_table f db db1 H) as [Ht Hi].
  unfold Database.save_content. rewrite H, Ht. split; [done|].
  split; [|split].
  - intros Hh. rewrite Hh. by destruct (Database.statement_fails f).
  - intros Hh Hs Hu. rewrite Hh, Hs. unfold Database.sql_insert.
    by rewrite Hu, Hh, Hi.
  - intros Hh [Hs|Hu]; rewrite Hh.
    + by rewrite Hs.
    + destruct (Database.statement_fails f); [done|].
      unfold Database.sql_insert. by rewrite Hu.
Qed.

Lemma C4_save_content_insert_once_witness :
  Database.init_db Database.no_faults Examples.tagged_store
  = Some Examples.tagged_store
  /\ Database.save_content Database.no_faults Examples.tagged_store
       (Examples.doc_of "http://example.com/9" "h9" [])
     = (Database.Returned true,
        Database.mkDb true
          (Database.table Examples.tagged_store
           ++ [Database.mkRow 4
                 (Examples.doc_of "http://example.com/9" "h9" [])])).
Proof.
  assert (Database.init_db Database.no_faults Examples.tagged_store
          = Some Examples.tagged_store) as H by reflexivity.
  split; [exact H|].
  apply (C4_save_content_insert_once Database.no_faults Examples.tagged_store
           Examples.tagged_store
           (Examples.doc_of "http://example.com/9" "h9" []) H);
    reflexivity.
Defined.

(** Saving the same document twice: the second call returns [False] and
    changes nothing. *)
Example save_twice :
  let d := Examples.doc_of "http://example.com/9" "h9" [] in
  let r1 := Database.save_content Database.no_faults Examples.tagged_store d in
  let r2 := Database.save_content Database.no_faults r1.2 d in
  r1.1 = Database.Returned true
  /\ r2 = (Database.Returned false, r1.2)
  /\ List.length (Database.table r1.2) = 4%nat.
Proof. vm_compute. repeat split; reflexivity. Qed.

(** C9.  The code does not sum per tag: it counts rows per distinct value
    of the whole [tags] column and repeats that count for each tag of the
    value.  With two rows tagged [python, web] and one row tagged
    [python], the tag [python] is reported twice, with counts 2 and 1,
    where the totals over all rows are 3 for [python] and 2 for [web]. *)
Theorem C9_top_tags_counts_whole_columns :
  (Database.get_stats Database.no_faults "2024-05-01" Examples.tagged_store).1
  = Database.Returned
      (Database.mkStats 3 3 [("python", 2); ("web", 2); ("python", 1)]%nat)
  /\ Database.top_tags_by_total (Database.table Examples.tagged_store)
     = [("python", 3); ("web", 2)]%nat.
Proof. vm_compute. split; reflexivity. Qed.

(* ===================================================================== *)
(** * Properties of the extractor                                         *)
(* ===================================================================== *)

Section Extractor.

Import Bs4 ContentProcessor.

Lemma by_selectors_find sels (s : soup) :
  by_selectors sels s = List.find long (selector_texts sels s).
Proof.
  induction sels as [|sel sels IH]; simpl; [done|].
  destruct (select_one sel s) as [elem|]; simpl; [|done].
  unfold long at 1. by destruct (200 <? String.length (get_text elem))%nat.
Qed.

Lemma find_long_length l text :
  List.find long l = Some text -> (200 < String.length text)%nat.
Proof.
  intros H. apply find_some in H as [_ H]. by apply Nat.ltb_lt in H.
Qed.

Lemma extract_main_content_spec (s : soup) :
  _extract_main_content s = body_selection s.
Proof.
  unfold _extract_main_content, body_selection.
  rewrite by_selectors_find.
  destruct (List.find long _) as [text|]; [done|].
  destruct (content_blocks s) as [|b bs]; [|done].
  destruct (find "body" s) as [body|]; [|done]. reflexivity.
Qed.

Lemma extract_content_some L u (s : soup) d :
  (extract_content L u s).2 = Some d ->
  _extract_main_content (_clean_html s) = Some (content d)
  /\ content_hash d = _hash_content (content d)
  /\ url d = u.
Proof.
  unfold extract_content.
  destruct (_extract_main_content (_clean_html s)) as [[|c text]|]; simpl;
    try discriminate.
  intros [= <-]. simpl. done.
Qed.

End Extractor.

(** C7, as stated, fails: a page whose only text is one paragraph of 60
    characters yields that paragraph, which does not exceed 200
    characters. *)
Lemma C7_counterexample :
  ContentProcessor._extract_main_content Examples.paragraph_page
  = Some Examples.short_paragraph
  /\ String.length Examples.short_paragraph = 60%nat.
Proof. vm_compute. split; reflexivity. Qed.

(** C7, amended.  Body selection tries the strategies in order and
    returns: the first selector candidate whose text exceeds 200
    characters; else the paragraphs longer than 50 characters joined by
    single spaces, as soon as there is one such paragraph, whatever the
    length of the result; else the text of [<body>] if it exceeds 200
    characters; else nothing.  A result of at most 200 characters can only
    come from the paragraphs. *)
Theorem C7_body_selection_in_order :
  forall s : Bs4.soup,
    ContentProcessor._extract_main_content s = ContentProcessor.body_selection s
    /\ forall text,
         ContentProcessor._extract_main_content s = Some text ->
         (String.length text <= 200)%nat ->
         ContentProcessor.content_blocks s <> []
         /\ text = Py.join " " (ContentProcessor.content_blocks s).
Proof.
  intros s. split; [apply extract_main_content_spec|].
  intros text. rewrite extract_main_content_spec.
  unfold ContentProcessor.body_selection.
  destruct (List.find _ _) as [t|] eqn:E.
  - intros [= ->] Hlen. apply find_long_length in E. lia.
  - destruct (ContentProcessor.content_blocks s) as [|b bs].
    + destruct (Bs4.find "body" s) as [body|]; [|discriminate].
      destruct (ContentProcessor.long (Bs4.get_text body)) eqn:El;
        [|discriminate].
      intros [= <-] Hlen. apply Nat.ltb_lt in El. lia.
    + by intros [= <-] _.
Qed.

(** C3, as stated, fails: the fingerprint of an article with capitals is
    the MD5 of the text as extracted, which differs from the MD5 of the
    normalized text. *)
Lemma C3_counterexample :
  (ContentProcessor.extract_content Examples.libs0 Examples.url_a
     Examples.article_page).2 = Some Examples.article_doc
  /\ ContentProcessor.content_hash Examples.article_doc
     = "9f40af5814ee3de31e55f4482e83a3af"
  /\ Helpers.generate_content_hash
       (ContentProcessor.content Examples.article_doc)
     = "c3e0b2358e886f984382e4b49003ab0b"
  /\ Md5.hexdigest
       (Py.lower (Helpers.clean_text
                    (ContentProcessor.content Examples.article_doc)))
     = "c3e0b2358e886f984382e4b49003ab0b".
Proof. vm_compute. repeat split; reflexivity. Qed.

(** C3, amended.  The [content_hash] of every document the extractor
    produces is the MD5 hex digest of the extracted content as it is,
    the content being the body selected from the cleaned page. *)
Theorem C3_content_hash_of_raw_content :
  forall (L : ContentProcessor.Libs) (u : string) (s : Bs4.soup)
         (d : ContentProcessor.Document),
    (ContentProcessor.extract_content L u s).2 = Some d ->
    ContentProcessor.content_hash d
    = Md5.hexdigest (ContentProcessor.content d)
    /\ ContentProcessor._extract_main_content (ContentProcessor._clean_html s)
       = Some (ContentProcessor.content d).
Proof.
  intros L u s d H. apply extract_content_some in H as (H1 & H2 & _).
  split; [exact H2|exact H1].
Qed.

Lemma C3_content_hash_of_raw_content_witness :
  (ContentProcessor.extract_content Examples.libs0 Examples.url_a
     Examples.article_page).2 = Some Examples.article_doc
  /\ ContentProcessor.content_hash Examples.article_doc
     = Md5.hexdigest (ContentProcessor.content Examples.article_doc).
Proof.
  assert ((ContentProcessor.extract_content Examples.libs0 Examples.url_a
             Examples.article_page).2 = Some Examples.article_doc) as H
    by (vm_compute; reflexivity).
  split; [exact H|].
  exact (proj1 (C3_content_hash_of_raw_content Examples.libs0 Examples.url_a
                  Examples.article_page Examples.article_doc H)).
Defined.

(* ===================================================================== *)
(** * Properties of the crawl loop                                        *)
(* ===================================================================== *)

Section Crawl.

Import Config WebCrawler.

Implicit Types (E : Env) (cfg : CrawlerConfig) (c : Crawler).

Lemma is_valid_crawl_url_true cfg (u : string) :
  _is_valid_crawl_url cfg u = true ->
  Helpers.is_valid_url u = true
  /\ excluded_extension cfg u = false
  /\ matches_useful_pattern cfg u = true.
Proof.
  unfold _is_valid_crawl_url, excluded_extension, matches_useful_pattern.
  destruct (Helpers.is_valid_url u); simpl; [|discriminate].
  destruct (UrlParse.urlparse u) as [parsed|]; [|discriminate].
  destruct (existsb _ (EXCLUDED_EXTENSIONS cfg)); [discriminate|]. done.
Qed.

Lemma is_valid_crawl_url_rejects cfg (u : string) :
  excluded_extension cfg u = true \/ matches_useful_pattern cfg u = false ->
  _is_valid_crawl_url cfg u = false.
Proof.
  intros H. destruct (_is_valid_crawl_url cfg u) eqn:E; [|done].
  apply is_valid_crawl_url_true in E as (_ & H1 & H2).
  destruct H; congruence.
Qed.

Lemma urls_of_hrefs_app E cfg (base : string) (l1 l2 : list string) :
  urls_of_hrefs E cfg base (l1 ++ l2)
  = match urls_of_hrefs E cfg base l1, urls_of_hrefs E cfg base l2 with
    | Some a, Some b => Some (a ++ b)
    | _, _ => None
    end.
Proof.
  induction l1 as [|h l1 IH]; simpl.
  - by destruct (urls_of_hrefs E cfg base l2).
  - destruct (urljoin E base h) as [full|]; [|done]. rewrite IH.
    destruct (urls_of_hrefs E cfg base l1) as [a|]; [|done].
    destruct (urls_of_hrefs E cfg base l2) as [b|]; [|done].
    by destruct (_is_valid_crawl_url cfg full).
Qed.

Lemma urls_of_hrefs_drop E cfg (base href full : string)
  (pre post : list string) :
  urljoin E base href = Some full ->
  _is_valid_crawl_url cfg full = false ->
  urls_of_hrefs E cfg base (pre ++ href :: post)
  = urls_of_hrefs E cfg base (pre ++ post).
Proof.
  intros Hj Hv. rewrite !urls_of_hrefs_app. simpl. rewrite Hj, Hv.
  destruct (urls_of_hrefs E cfg base pre) as [a|]; [|done].
  by destruct (urls_of_hrefs E cfg base post).
Qed.

(** Every URL the page hands to the frontier is the normal form of a link
    that passed the filter. *)
Lemma urls_of_hrefs_origin E cfg (base : string) (l urls : list string)
  (u : string) :
  urls_of_hrefs E cfg base l = Some urls -> u ∈ urls ->
  exists href full,
    href ∈ l /\ urljoin E base href = Some full
    /\ _is_valid_crawl_url cfg full = true
    /\ u = Helpers.normalize_url full.
Proof.
  revert urls. induction l as [|h l IH]; simpl; intros urls.
  - intros [= <-] Hu. by apply elem_of_nil in Hu.
  - destruct (urljoin E base h) as [full|] eqn:Ej; [|discriminate].
    destruct (urls_of_hrefs E cfg base l) as [us|]; [|discriminate].
    assert (u ∈ us -> exists href full0,
              href ∈ h :: l /\ urljoin E base href = Some full0
              /\ _is_valid_crawl_url cfg full0 = true
              /\ u = Helpers.normalize_url full0) as Hrec.
    { intros Hu. destruct (IH us eq_refl Hu) as (h' & f' & ? & ? & ? & ?).
      exists h', f'. split_and!; [by apply list_elem_of_further|done..]. }
    destruct (_is_valid_crawl_url cfg full) eqn:Ev; intros [= <-] Hu.
    + apply elem_of_cons in Hu as [->|Hu]; [|by apply Hrec].
      exists h, full. split_and!; [apply list_elem_of_here|done..].
    + by apply Hrec.
Qed.

Lemma fetch_page_none E (u : string) :
  _fetch_page E u = None <->
  match http_get E u with
  | GetTimeout | GetError => True
  | GetResponse status content_type _ =>
      status <> 200%nat \/ Py.contains "text/html" content_type = false
  end.
Proof.
  unfold _fetch_page. destruct (http_get E u) as [| |st ct body]; [done..|].
  destruct (st =? 200)%nat eqn:Es.
  - apply Nat.eqb_eq in Es as ->.
    destruct (Py.contains "text/html" ct); naive_solver.
  - apply Nat.eqb_neq in Es. naive_solver.
Qed.

Lemma crawl_page_fetch_failed E cfg (u : string) c :
  _fetch_page E u = None ->
  _crawl_page E cfg u c
  = mkCrawler (URLManager.is_crawled u (url_manager c)).2 (db_manager c)
      (crawled_count c).
Proof.
  intros H. unfold _crawl_page. rewrite H.
  by destruct (URLManager.is_crawled u (url_manager c)) as [[] m].
Qed.

End Crawl.

(** A link whose resolved URL has a path ending with an excluded
    extension, or matches none of the useful patterns, is rejected by the
    filter and contributes nothing to the URLs the page hands over: the
    extraction returns what it returns for the page without that link. *)
Lemma rejected_link_dropped :
  forall (E : WebCrawler.Env) (cfg : Config.CrawlerConfig)
         (base_url href full_url : string) (pre post : list string),
    WebCrawler.urljoin E base_url href = Some full_url ->
    (WebCrawler.excluded_extension cfg full_url = true
     \/ WebCrawler.matches_useful_pattern cfg full_url = false) ->
    WebCrawler._is_valid_crawl_url cfg full_url = false
    /\ WebCrawler.urls_of_hrefs E cfg base_url (pre ++ href :: post)
       = WebCrawler.urls_of_hrefs E cfg base_url (pre ++ post).
Proof.
  intros E cfg base href full pre post Hj Hbad.
  pose proof (is_valid_crawl_url_rejects cfg full Hbad) as Hv.
  split; [exact Hv|]. by apply (urls_of_hrefs_drop E cfg base href full).
Qed.

(** The second scenario of the specification: of the three links only
    the blog post is enqueued. *)
Example extension_filter_scenario :
  WebCrawler.urls_of_hrefs Examples.absolute_env Config.config
    "http://example.com/"
    ["http://example.com/blog/post-1"; "http://example.com/file.pdf";
     "http://example.com/about"]
  = Some ["http://example.com/blog/post-1"].
Proof. vm_compute. reflexivity. Qed.

(** The first scenario of the specification: one seed, one article, no
    links.  After the crawl the store has one row, the visited set one
    hash, the queue is empty and one page is counted. *)
Example seed_only_scenario :
  let c := WebCrawler.crawl Examples.article_env Config.config
             Examples.seeded_crawler in
  let m := WebCrawler.url_manager c in
  WebCrawler.crawled_count c = 1%nat
  /\ map Database.doc (Database.table (WebCrawler.db_manager c))
     = [Examples.article_doc]
  /\ elements (URLManager.r_crawled_urls (URLManager.redis_client m))
     = [URLManager._hash_url Examples.url_a]
  /\ map_to_list (URLManager.crawl_queue (URLManager.redis_client m)) = [].
Proof. vm_compute. repeat split; reflexivity. Qed.

(** A page that links to itself is queued again while it is processed
    (it is marked only afterwards), so [get_next_url] returns it a second
    time; [_crawl_page] then skips it, and the loop counts two pages. *)
Example self_link_scenario :
  let c := WebCrawler.crawl Examples.self_link_env Config.config
             Examples.seeded_crawler in
  WebCrawler.crawled_count c = 2%nat
  /\ List.length (Database.table (WebCrawler.db_manager c)) = 1%nat
  /\ map_to_list
       (URLManager.crawl_queue
          (URLManager.redis_client (WebCrawler.url_manager c))) = [].
Proof. vm_compute. repeat split; reflexivity. Qed.

(** C1, as stated, fails: after a crawl whose only URL is answered with
    status 500 the page is counted, but the visited set is empty, the URL
    is not reported as crawled, and a later [add_url] puts it back in the
    queue, from where [get_next_url] returns it again. *)
Lemma C1_counterexample :
  let c := WebCrawler.crawl Examples.failing_env Config.config
             Examples.seeded_crawler in
  let m := WebCrawler.url_manager c in
  WebCrawler.crawled_count c = 1%nat
  /\ elements (URLManager.r_crawled_urls (URLManager.redis_client m)) = []
  /\ (URLManager.is_crawled Examples.url_a m).1 = false
  /\ (URLManager.get_next_url
        (URLManager.add_url 1 Examples.url_a 1 m).1).1
     = Some Examples.url_a.
Proof. vm_compute. repeat split; reflexivity. Qed.

(** C1, amended.  When the fetch of a dequeued URL fails (timeout,
    transport error, a status other than 200, or a content type without
    [text/html]), [_crawl_page] returns without marking the URL: the
    backend (queue, visited set, URL data) and the store are as before; a
    URL that was not visited before is still not visited after, and a
    later [add_url] of it puts it in the queue again. *)
Theorem C1_failed_fetch_leaves_url_unmarked :
  forall (E : WebCrawler.Env) (cfg : Config.CrawlerConfig) (u : string)
         (c : WebCrawler.Crawler),
    WebCrawler._fetch_page E u = None ->
    let c' := WebCrawler._crawl_page E cfg u c in
    URLManager.redis_client (WebCrawler.url_manager c')
    = URLManager.redis_client (WebCrawler.url_manager c)
    /\ WebCrawler.db_manager c' = WebCrawler.db_manager c
    /\ ((URLManager.is_crawled u (WebCrawler.url_manager c)).1 = false ->
        (URLManager.is_crawled u (WebCrawler.url_manager c')).1 = false
        /\ forall now priority,
             URLManager.crawl_queue
               (URLManager.redis_client
                  (URLManager.add_url now u priority
                     (WebCrawler.url_manager c')).1) !! u
             = Some priority).
Proof.
  intros E cfg u c H c'. subst c'. rewrite crawl_page_fetch_failed by done.
  simpl. split; [apply is_crawled_redis|]. split; [done|].
  intros Hc. pose proof Hc as Hc'.
  apply is_crawled_false in Hc' as (-> & Hn1 & Hn2).
  split; [done|]. intros now priority.
  rewrite add_url_queue, Hc. apply lookup_insert_eq.
Qed.

Lemma C1_failed_fetch_leaves_url_unmarked_witness :
  WebCrawler._fetch_page Examples.failing_env Examples.url_a = None
  /\ URLManager.redis_client
       (WebCrawler.url_manager
          (WebCrawler._crawl_page Examples.failing_env Config.config
             Examples.url_a Examples.seeded_crawler))
     = URLManager.redis_client
         (WebCrawler.url_manager Examples.seeded_crawler).
Proof.
  split; [reflexivity|].
  apply (C1_failed_fetch_leaves_url_unmarked Examples.failing_env
           Config.config Examples.url_a Examples.seeded_crawler).
  reflexivity.
Defined.

(* ===================================================================== *)
(** * Normalization and the URL hash                                      *)
(* ===================================================================== *)

(** Every URL that [is_valid_url] accepts parses with a host. *)
Lemma is_valid_url_host (u : string) :
  Helpers.is_valid_url u = true ->
  exists r, UrlParse.urlparse u = Some r /\ UrlParse.netloc r <> "".
Proof.
  unfold Helpers.is_valid_url.
  destruct (negb (UrlParse.nonempty u)); [discriminate|].
  destruct (negb (Re.match_to_end Helpers.url_pattern u)); [discriminate|].
  destruct (UrlParse.urlparse u) as [r|]; [|discriminate].
  destruct (negb (Py.in_list _ _)); [discriminate|].
  destruct (UrlParse.nonempty (UrlParse.netloc r)) eqn:E; [|discriminate].
  intros _. exists r. split; [done|]. by apply nonempty_true.
Qed.

(** C6, as stated, fails on both counts.  A path that ends with [;/] is
    normalized in two steps: the first strips the slash, and [urlparse]
    then reads the semicolon left at the end as the start of empty path
    parameters, which [urlunparse] does not write back.  A URL without a
    host loses two leading slashes at each step.  And the frontier hashes
    the URL as it is given, so a URL with a trailing slash and its normal
    form have different hashes. *)
Lemma C6_counterexample :
  Helpers.normalize_url "http://example.com/a;/" = "http://example.com/a;"
  /\ Helpers.normalize_url (Helpers.normalize_url "http://example.com/a;/")
     = "http://example.com/a"
  /\ Helpers.normalize_url "/////a" = "///a"
  /\ Helpers.normalize_url (Helpers.normalize_url "/////a") = "/a"
  /\ Helpers.normalize_url "http://example.com/blog/"
     = "http://example.com/blog"
  /\ URLManager._hash_url "http://example.com/blog/"
     <> URLManager._hash_url
          (Helpers.normalize_url "http://example.com/blog/").
Proof.
  split; [vm_compute; reflexivity|]. split; [vm_compute; reflexivity|].
  split; [vm_compute; reflexivity|]. split; [vm_compute; reflexivity|].
  split; [vm_compute; reflexivity|]. vm_compute. discriminate.
Qed.

(** C6, amended.  For every URL that [urlparse] reads with a non-empty
    host, the normal form parses again, and normalizing twice is the same
    as normalizing once exactly when [urlparse] and [urlunparse] read the
    normal form back as it is written.  That is the case whenever a query
    is left after the filter, or the URL has path parameters, or its path
    without the trailing slashes does not end with a semicolon; the hash
    of the normal form is then the hash of its own normal form. *)
Theorem C6_normalize_idempotent_with_host :
  forall (u : string) (r : UrlParse.ParseResult),
    UrlParse.urlparse u = Some r ->
    UrlParse.netloc r <> "" ->
    exists r' : UrlParse.ParseResult,
      UrlParse.urlparse (Helpers.normalize_url u) = Some r'
      /\ (Helpers.normalize_url (Helpers.normalize_url u)
          = Helpers.normalize_url u
          <-> UrlParse.urlunparse r' = Helpers.normalize_url u)
      /\ (Helpers.filter_query (UrlParse.query r) <> ""
          \/ UrlParse.params r <> ""
          \/ Py.endswith (Py.rstrip Helpers.is_slash (UrlParse.path r)) ";"
             = false ->
          Helpers.normalize_url (Helpers.normalize_url u)
          = Helpers.normalize_url u
          /\ URLManager._hash_url
               (Helpers.normalize_url (Helpers.normalize_url u))
             = URLManager._hash_url (Helpers.normalize_url u)).
Proof.
  intros u r Hp Hn.
  destruct (normalize_twice u r Hp Hn) as (r' & Hp' & Hiff & Hwhen).
  exists r'. split; [exact Hp'|]. split; [exact Hiff|].
  intros H. apply Hwhen, Hiff in H. by rewrite H.
Qed.

Lemma C6_normalize_idempotent_with_host_witness :
  UrlParse.urlparse Examples.param_url = Some Examples.param_parse
  /\ UrlParse.netloc Examples.param_parse <> ""
  /\ Py.endswith
       (Py.rstrip Helpers.is_slash (UrlParse.path Examples.param_parse)) ";"
     = false
  /\ Helpers.normalize_url Examples.param_url
     = "http://example.com/blog/a;v=1"
  /\ Helpers.normalize_url (Helpers.normalize_url Examples.param_url)
     = Helpers.normalize_url Examples.param_url.
Proof.
  assert (UrlParse.urlparse Examples.param_url = Some Examples.param_parse)
    as H1 by (vm_compute; reflexivity).
  assert (UrlParse.netloc Examples.param_parse <> "") as H2 by discriminate.
  assert (Py.endswith
            (Py.rstrip Helpers.is_slash (UrlParse.path Examples.param_parse))
            ";" = false) as H3 by (vm_compute; reflexivity).
  split; [exact H1|]. split; [exact H2|]. split; [exact H3|].
  split; [vm_compute; reflexivity|].
  destruct (C6_normalize_idempotent_with_host Examples.param_url
              Examples.param_parse H1 H2) as (r' & _ & _ & H).
  exact (proj1 (H (or_intror (or_intror H3)))).
Defined.

(** The links the crawl loop normalizes: accepted by [is_valid_url]. *)
Corollary normalize_idempotent_valid (u : string) :
  Helpers.is_valid_url u = true -> Py.mem ";" u = false ->
  Helpers.normalize_url (Helpers.normalize_url u) = Helpers.normalize_url u.
Proof.
  intros [r [Hp Hn]]%is_valid_url_host Hs.
  by apply (normalize_idempotent u r).
Qed.

Example normalize_tracked :
  Helpers.normalize_url Examples.tracked_url = "http://Example.com/blog/a/?b=1".
Proof. vm_compute. reflexivity. Qed.

(* ===================================================================== *)
(** * The frontier: order of the queue and persistence of the visited set *)
(* ===================================================================== *)

Section Frontier2.
Import URLManager.
Implicit Types (m : t) (q : gmap string Z) (u url : string).

Lemma ascii_compare_trans (a b c : ascii) :
  Ascii.compare a b = Lt -> Ascii.compare b c = Lt -> Ascii.compare a c = Lt.
Proof.
  unfold Ascii.compare. rewrite !N.compare_lt_iff. lia.
Qed.

Lemma ascii_compare_eq (a b : ascii) : Ascii.compare a b = Eq -> a = b.
Proof.
  unfold Ascii.compare. intros H%N.compare_eq.
  rewrite <- (ascii_N_embedding a), <- (ascii_N_embedding b). by rewrite H.
Qed.

Lemma ascii_compare_refl (a : ascii) : Ascii.compare a a = Eq.
Proof. unfold Ascii.compare. apply N.compare_refl. Qed.

Lemma string_compare_trans (a b c : string) :
  String.compare a b = Lt -> String.compare b c = Lt -> String.compare a c = Lt.
Proof.
  revert b c. induction a as [|x a IH]; intros [|y b] [|z c]; simpl; try done.
  destruct (Ascii.compare x y) eqn:Exy; try done;
    destruct (Ascii.compare y z) eqn:Eyz; try done.
  - apply ascii_compare_eq in Exy as ->. apply ascii_compare_eq in Eyz as ->.
    rewrite ascii_compare_refl. apply IH.
  - apply ascii_compare_eq in Exy as ->. by rewrite Eyz.
  - apply ascii_compare_eq in Eyz as ->. by rewrite Exy.
  - by rewrite (ascii_compare_trans x y z).
Qed.

Lemma string_ltb_irrefl (a : string) : String.ltb a a = false.
Proof.
  unfold String.ltb. induction a as [|c a IH]; simpl; [done|].
  by rewrite ascii_compare_refl.
Qed.

Lemma string_ltb_total (a b : string) :
  a <> b -> String.ltb a b = false -> String.ltb b a = true.
Proof.
  unfold String.ltb. intros Hne. rewrite (String.compare_antisym a b).
  destruct (String.compare b a) eqn:E; simpl; try done.
  apply String.compare_eq_iff in E. congruence.
Qed.

Lemma ranks_above_trans (a b c : string * Z) :
  ranks_above a b = true -> ranks_above b c = true -> ranks_above a c = true.
Proof.
  unfold ranks_above, String.ltb.
  destruct a as [a pa], b as [b pb], c as [c pc]. simpl.
  intros H1 H2.
  apply orb_true_iff in H1 as [H1|[H1 H1']%andb_true_iff];
  apply orb_true_iff in H2 as [H2|[H2 H2']%andb_true_iff];
  apply orb_true_iff; [left; lia..|].
  right. apply andb_true_iff. split; [lia|].
  destruct (String.compare c b) eqn:E1; try done.
  destruct (String.compare b a) eqn:E2; try done.
  by rewrite (string_compare_trans c b a).
Qed.

Lemma ranks_above_total (a b : string * Z) :
  a.1 <> b.1 -> ranks_above a b = false -> ranks_above b a = true.
Proof.
  unfold ranks_above. destruct a as [a pa], b as [b pb]. simpl.
  intros Hne H. apply orb_false_iff in H as [H1 H2].
  apply orb_true_iff.
  destruct (Z.ltb_spec pa pb); [by left|]. right.
  apply andb_true_iff. split; [lia|].
  apply andb_false_iff in H2 as [H2|H2]; [lia|].
  apply string_ltb_total; [congruence|done].
Qed.

(** The member that [zmax] selects from a list of entries. *)
Local Abbreviation best l :=
  (foldr (fun x acc =>
            match acc with
            | Some y => if ranks_above y x then Some y else Some x
            | None => Some x
            end) None l).

Lemma best_elem l y : best l = Some y -> y ∈ l.
Proof.
  revert y. induction l as [|x l IH]; intros y; simpl; [discriminate|].
  destruct (best l) as [w|].
  - destruct (ranks_above w x); intros [= <-]; [right; by apply IH|left].
  - intros [= <-]. left.
Qed.

Lemma best_none l : best l = None -> l = [].
Proof.
  destruct l as [|x l]; [done|]. simpl.
  destruct (best l) as [w|]; [by destruct (ranks_above w x)|done].
Qed.

Lemma best_ranks l y x :
  NoDup (l.*1) -> best l = Some y -> x ∈ l -> x <> y ->
  ranks_above y x = true.
Proof.
  revert y x. induction l as [|z l IH]; intros y x Hnd; simpl; [discriminate|].
  apply NoDup_cons in Hnd as [Hz Hnd].
  destruct (best l) as [w|] eqn:E.
  - destruct (ranks_above w z) eqn:Er; intros [= <-] Hx Hne.
    + apply elem_of_cons in Hx as [->|Hx]; [done|]. by apply IH.
    + apply elem_of_cons in Hx as [->|Hx]; [done|].
      assert (ranks_above z w = true) as Hzw.
      { apply (ranks_above_total w z); [|done].
        intros Heq. apply Hz. rewrite <- Heq.
        apply list_elem_of_fmap. exists w. split; [done|by apply best_elem]. }
      destruct (decide (x = w)) as [->|Hxw]; [done|].
      apply (ranks_above_trans _ w); [done|]. by apply IH.
  - apply best_none in E as ->. intros [= <-] Hx Hne.
    apply elem_of_cons in Hx as [->|Hx]; [done|]. by apply elem_of_nil in Hx.
Qed.

Lemma zmax_ranks q u p v pv :
  zmax q = Some (u, p) -> q !! v = Some pv -> v <> u ->
  ranks_above (u, p) (v, pv) = true.
Proof.
  intros H Hv Hne.
  apply (best_ranks (map_to_list q)).
  - apply NoDup_fst_map_to_list.
  - exact H.
  - by apply elem_of_map_to_list.
  - congruence.
Qed.

Lemma zmax_none q : zmax q = None <-> q = ∅.
Proof.
  split.
  - intros H. apply best_none in H. by apply map_to_list_empty_iff.
  - intros ->. unfold zmax. by rewrite map_to_list_empty.
Qed.

End Frontier2.

(** X1.  [get_next_url] returns a member of the queue whose priority no
    other member exceeds; among the members of that priority it is the
    greatest in byte order.  It is taken out of the queue, and the visited
    set and the in-process cache are left as they were. *)
Theorem X1_next_url_ranks_highest :
  forall (m m' : URLManager.t) (u : string),
    URLManager.get_next_url m = (Some u, m') ->
    exists p,
      URLManager.crawl_queue (URLManager.redis_client m) !! u = Some p
      /\ (forall v q,
            URLManager.crawl_queue (URLManager.redis_client m) !! v = Some q ->
            (q <= p)%Z /\ (q = p -> String.ltb u v = false))
      /\ URLManager.crawl_queue (URLManager.redis_client m')
         = delete u (URLManager.crawl_queue (URLManager.redis_client m))
      /\ URLManager.r_crawled_urls (URLManager.redis_client m')
         = URLManager.r_crawled_urls (URLManager.redis_client m)
      /\ URLManager.crawled_urls m' = URLManager.crawled_urls m.
Proof.
  intros m m' u. unfold URLManager.get_next_url, URLManager.zpopmax.
  destruct (URLManager.zmax _) as [[v p]|] eqn:E; [|discriminate].
  intros [= <- <-]. exists p. simpl.
  split; [by apply zmax_lookup|]. split; [|done].
  intros w q Hw. destruct (decide (w = v)) as [->|Hne].
  - apply zmax_lookup in E. rewrite E in Hw. injection Hw as ->.
    split; [lia|]. intros _. apply string_ltb_irrefl.
  - pose proof (zmax_ranks _ _ _ _ _ E Hw Hne) as Hr.
    unfold URLManager.ranks_above in Hr. simpl in Hr.
    apply orb_true_iff in Hr as [Hr|[Hr Hr']%andb_true_iff].
    + split; [lia|]. lia.
    + split; [lia|]. intros _. unfold String.ltb in *.
      rewrite String.compare_antisym.
      by destruct (String.compare w v).
Qed.

Lemma X1_next_url_ranks_highest_witness :
  URLManager.crawl_queue (URLManager.redis_client Examples.ranked)
  = {[ Examples.url_a := 5%Z; Examples.url_b := 5%Z; Examples.url_c := 1%Z ]}
  /\ URLManager.get_next_url Examples.ranked
     = (Some Examples.url_b, (URLManager.get_next_url Examples.ranked).2)
  /\ exists p,
       URLManager.crawl_queue (URLManager.redis_client Examples.ranked)
         !! Examples.url_b = Some p
       /\ (forall v q,
             URLManager.crawl_queue (URLManager.redis_client Examples.ranked)
               !! v = Some q ->
             (q <= p)%Z /\ (q = p -> String.ltb Examples.url_b v = false))
       /\ URLManager.crawl_queue
            (URLManager.redis_client
               (URLManager.get_next_url Examples.ranked).2)
          = delete Examples.url_b
              (URLManager.crawl_queue
                 (URLManager.redis_client Examples.ranked)).
Proof.
  assert (URLManager.get_next_url Examples.ranked
          = (Some Examples.url_b, (URLManager.get_next_url Examples.ranked).2))
    as H by (vm_compute; reflexivity).
  split; [vm_compute; reflexivity|]. split; [exact H|].
  destruct (X1_next_url_ranks_highest _ _ _ H) as (p & Hp & Hr & Hq & _).
  exists p. split; [exact Hp|]. split; [exact Hr|exact Hq].
Defined.

(** X2.  [get_next_url] returns [None] exactly when the queue is empty,
    and then it changes nothing. *)
Theorem X2_next_url_none_iff_empty :
  forall m : URLManager.t,
    ((URLManager.get_next_url m).1 = None
     <-> URLManager.crawl_queue (URLManager.redis_client m) = ∅)
    /\ ((URLManager.get_next_url m).1 = None ->
        (URLManager.get_next_url m).2 = m).
Proof.
  intros m. unfold URLManager.get_next_url, URLManager.zpopmax.
  destruct (URLManager.zmax _) as [[v p]|] eqn:E; simpl.
  - split; [|done]. split; [done|]. intros H%zmax_none. congruence.
  - split; [|done]. split; [|done]. intros _. by apply zmax_none.
Qed.

Section Frontier3.
Import URLManager.
Implicit Types (m : t) (q : gmap string Z) (u url : string).

Lemma step_visited o m :
  r_crawled_urls (redis_client m) ⊆ r_crawled_urls (redis_client (step o m).2).
Proof.
  destruct o as [now url p| |url|url]; simpl.
  - destruct (add_url now url p m) as [m' out] eqn:E. simpl.
    assert (m' = (add_url now url p m).1) as -> by by rewrite E.
    by rewrite add_url_visited.
  - destruct (get_next_url m) as [[u|] m'] eqn:E; simpl.
    + apply get_next_url_spec in E as (_ & _ & -> & _). done.
    + apply get_next_url_none in E as ->. done.
  - set_solver.
  - destruct (is_crawled url m) as [b m'] eqn:E. simpl.
    assert (m' = (is_crawled url m).2) as -> by by rewrite E.
    by rewrite is_crawled_redis.
Qed.

Lemma run_visited ops m :
  r_crawled_urls (redis_client m) ⊆ r_crawled_urls (redis_client (run ops m).2).
Proof.
  revert m. induction ops as [|o ops IH]; intros m; simpl; [done|].
  destruct (step o m) as [r m'] eqn:E.
  destruct (run ops m') as [rs m''] eqn:E'. simpl.
  assert (m'' = (run ops m').2) as -> by by rewrite E'.
  assert (m' = (step o m).2) as -> by by rewrite E.
  etrans; [apply step_visited|apply IH].
Qed.

Lemma is_crawled_iff url m :
  (is_crawled url m).1 = true <->
  (_hash_url url ∈ crawled_urls m
   \/ _hash_url url ∈ r_crawled_urls (redis_client m)).
Proof.
  unfold is_crawled. repeat case_bool_decide; simpl; naive_solver.
Qed.

End Frontier3.

(** X3.  Once [mark_crawled(u)] has been called, whatever calls follow,
    [is_crawled(u)] holds; it also holds for a new manager connected to
    the same backend, whose cache is empty, and [add_url(u)] on such a
    manager leaves the backend as it is. *)
Theorem X3_marked_url_stays_crawled :
  forall (ops : list URLManager.op) (m : URLManager.t) (u : string),
    let after := (URLManager.run ops (URLManager.mark_crawled u m)).2 in
    (URLManager.is_crawled u after).1 = true
    /\ (URLManager.is_crawled u
          (URLManager.new (URLManager.redis_client after))).1 = true
    /\ forall now priority,
         URLManager.redis_client
           (URLManager.add_url now u priority
              (URLManager.new (URLManager.redis_client after))).1
         = URLManager.redis_client after.
Proof.
  intros ops m u after.
  assert (URLManager._hash_url u
            ∈ URLManager.r_crawled_urls (URLManager.redis_client after)) as H.
  { apply run_visited. simpl. set_solver. }
  split; [apply is_crawled_iff; by right|].
  assert ((URLManager.is_crawled u
             (URLManager.new (URLManager.redis_client after))).1 = true) as H'.
  { apply is_crawled_iff. by right. }
  split; [done|]. intros now priority. unfold URLManager.add_url.
  destruct (URLManager.is_crawled u _) as [b m1] eqn:E. simpl in H'. subst b.
  pose proof (is_crawled_redis u (URLManager.new (URLManager.redis_client after)))
    as Hr. rewrite E in Hr. done.
Qed.

(** X4.  An [add_url] of a URL that is not crawled, with a priority
    above that of every other queued URL, makes it the URL that the next
    [get_next_url] returns, for priorities that Redis stores exactly:
    integers of magnitude at most [2^53].  Beyond that range two
    priorities can be rounded to the same score, and the tie is decided
    by the byte order of the URLs. *)
Theorem X4_highest_priority_add_is_next :
  forall (now : Z) (u : string) (p : Z) (m : URLManager.t),
    (URLManager.is_crawled u m).1 = false ->
    URLManager.exact_score p ->
    (forall v q,
       URLManager.crawl_queue (URLManager.redis_client m) !! v = Some q ->
       URLManager.exact_score q) ->
    (forall v q,
       URLManager.crawl_queue (URLManager.redis_client m) !! v = Some q ->
       v <> u -> (q < p)%Z) ->
    (URLManager.get_next_url (URLManager.add_url now u p m).1).1 = Some u.
Proof.
  intros now u p m Hc _ _ Hmax.
  pose proof (add_url_queue now u p m) as Hq. rewrite Hc in Hq.
  unfold URLManager.get_next_url, URLManager.zpopmax. rewrite Hq.
  destruct (URLManager.zmax _) as [[v pv]|] eqn:E; simpl.
  - f_equal. destruct (decide (v = u)) as [->|Hne]; [done|].
    pose proof (zmax_lookup _ _ _ E) as Hv.
    rewrite lookup_insert_ne in Hv by done.
    pose proof (Hmax v pv Hv Hne) as Hlt.
    assert (<[u:=p]> (URLManager.crawl_queue (URLManager.redis_client m)) !! u
            = Some p) as Hu by apply lookup_insert_eq.
    pose proof (zmax_ranks _ _ _ _ _ E Hu (not_eq_sym Hne)) as Hr.
    unfold URLManager.ranks_above in Hr. simpl in Hr.
    apply orb_true_iff in Hr as [Hr|[Hr _]%andb_true_iff]; lia.
  - apply zmax_none in E. exfalso.
    apply (insert_non_empty _ _ _ E).
Qed.

Lemma X4_highest_priority_add_is_next_witness :
  (URLManager.is_crawled Examples.url_c Examples.ranked).1 = false
  /\ URLManager.exact_score 20
  /\ (URLManager.get_next_url
        (URLManager.add_url 5 Examples.url_c 20 Examples.ranked).1).1
     = Some Examples.url_c.
Proof.
  assert ((URLManager.is_crawled Examples.url_c Examples.ranked).1 = false)
    as H by (vm_compute; reflexivity).
  assert (URLManager.exact_score 20) as H20
    by (unfold URLManager.exact_score; lia).
  assert (URLManager.crawl_queue (URLManager.redis_client Examples.ranked)
          = {[ Examples.url_a := 5%Z; Examples.url_b := 5%Z;
               Examples.url_c := 1%Z ]}) as Hq by (vm_compute; reflexivity).
  assert (forall v q,
            URLManager.crawl_queue (URLManager.redis_client Examples.ranked)
              !! v = Some q -> q = 5%Z \/ (q = 1%Z /\ v = Examples.url_c))
    as Hall.
  { intros v q. rewrite Hq. intros Hv.
    apply lookup_insert_Some in Hv as [[_ <-]|[_ Hv]]; [by left|].
    apply lookup_insert_Some in Hv as [[_ <-]|[_ Hv]]; [by left|].
    apply lookup_singleton_Some in Hv as [<- <-]. by right. }
  split; [exact H|]. split; [exact H20|].
  apply (X4_highest_priority_add_is_next 5 Examples.url_c 20 Examples.ranked
           H H20).
  - intros v q Hv. unfold URLManager.exact_score.
    destruct (Hall v q Hv) as [->|[-> _]]; lia.
  - intros v q Hv Hne. destruct (Hall v q Hv) as [->|[-> _]]; lia.
Defined.


(* ===================================================================== *)
(** * The store keeps its constraints; what a crawl does to it          *)
(* ===================================================================== *)

Section Store2.
Import Database ContentProcessor.
Implicit Types (f : Faults) (db : t) (rows : Store) (d : Document).

Lemma has_url_false rows (u : string) :
  has_url rows u = false -> u ∉ map (fun r => url (doc r)) rows.
Proof.
  unfold has_url. intros H Hin. apply list_elem_of_fmap in Hin as (r & -> & Hr).
  assert (existsb (fun r0 => String.eqb (url (doc r0)) (url (doc r))) rows = true).
  { apply existsb_exists. exists r. split; [by apply list_elem_of_In|].
    apply String.eqb_refl. }
  congruence.
Qed.

Lemma has_hash_false rows (h : string) :
  has_hash rows h = false -> h ∉ map (fun r => content_hash (doc r)) rows.
Proof.
  unfold has_hash. intros H Hin. apply list_elem_of_fmap in Hin as (r & -> & Hr).
  assert (existsb (fun r0 => String.eqb (content_hash (doc r0))
                               (content_hash (doc r))) rows = true).
  { apply existsb_exists. exists r. split; [by apply list_elem_of_In|].
    apply String.eqb_refl. }
  congruence.
Qed.

Lemma next_id_fresh rows : next_id rows ∉ map id rows.
Proof.
  unfold next_id. intros Hin.
  assert (forall (l : list nat) x, x ∈ l -> (x <= list_max l)%nat) as Hmax.
  { intros l x Hx. induction Hx as [x l|x y l Hx IH]; simpl; lia. }
  apply Hmax in Hin. lia.
Qed.

(** What [save_content] does to the table: nothing, or one row more. *)
Lemma save_content_table f db d :
  table (save_content f db d).2 = table db
  \/ ((save_content f db d).1 = Returned true
      /\ table (save_content f db d).2
         = table db ++ [mkRow (next_id (table db)) d]
      /\ has_url (table db) (url d) = false
      /\ has_hash (table db) (content_hash d) = false).
Proof.
  unfold save_content. destruct (init_db f db) as [db1|] eqn:E; [|by left].
  apply init_db_table in E as [Ht _].
  destruct (statement_fails f); [by left|]. rewrite Ht.
  destruct (has_hash (table db) (content_hash d)) eqn:Eh; [by left|].
  unfold sql_insert.
  destruct (has_url (table db) (url d)) eqn:Eu; [by left|].
  rewrite Eh. simpl. right. done.
Qed.

Lemma constraints_hold_snoc rows d :
  constraints_hold rows ->
  has_url rows (url d) = false -> has_hash rows (content_hash d) = false ->
  constraints_hold (rows ++ [mkRow (next_id rows) d]).
Proof.
  intros (H1 & H2 & H3) Hu Hh. unfold constraints_hold.
  rewrite !map_app. simpl. split_and!; apply NoDup_app; split_and!; try done.
  - intros x Hx Hx'. apply list_elem_of_singleton in Hx' as ->.
    by apply (next_id_fresh rows).
  - apply NoDup_singleton.
  - intros x Hx Hx'. apply list_elem_of_singleton in Hx' as ->.
    by apply (has_url_false rows (url d)).
  - apply NoDup_singleton.
  - intros x Hx Hx'. apply list_elem_of_singleton in Hx' as ->.
    by apply (has_hash_false rows (content_hash d)).
  - apply NoDup_singleton.
Qed.

Lemma save_content_constraints f db d :
  constraints_hold (table db) -> constraints_hold (table (save_content f db d).2).
Proof.
  intros H. destruct (save_content_table f db d) as [->|(_ & -> & Hu & Hh)];
    [done|]. by apply constraints_hold_snoc.
Qed.

End Store2.

Section Crawl2.
Import Config WebCrawler.
Implicit Types (E : Env) (cfg : CrawlerConfig) (c : Crawler).

Local Abbreviation visited c :=
  (URLManager.r_crawled_urls (URLManager.redis_client (url_manager c))).
Local Abbreviation queue c :=
  (URLManager.crawl_queue (URLManager.redis_client (url_manager c))).
Local Abbreviation rows c := (Database.table (db_manager c)).

Lemma crawl_page_count E cfg (u : string) c :
  crawled_count (_crawl_page E cfg u c) = crawled_count c.
Proof.
  unfold _crawl_page.
  destruct (URLManager.is_crawled u (url_manager c)) as [[] m]; [done|].
  destruct (_fetch_page E u) as [[|ch html]|]; [done| |done].
  destruct (ContentProcessor.extract_content _ _ _) as [soup content_data].
  destruct (save_if_useful _ _ _ _) as [[] db]; [|done].
  destruct (_extract_urls _ _ _ _) as [new_urls|]; [|done].
  by destruct (add_all _ _ _) as [m' []].
Qed.

Lemma crawl_loop_count E cfg (budget : nat) c :
  (crawled_count c <= crawled_count (crawl_loop E cfg budget c)
   <= crawled_count c + budget)%nat.
Proof.
  revert c. induction budget as [|budget IH]; intros c; simpl; [lia|].
  destruct (URLManager.get_next_url (url_manager c)) as [[[|ch u]|] m];
    simpl; [lia| |lia].
  match goal with |- context [crawl_loop E cfg budget ?x] =>
    specialize (IH x) end.
  simpl in IH. rewrite crawl_page_count in IH |- *. simpl in IH |- *. lia.
Qed.

Lemma save_if_useful_table E cfg (o : option ContentProcessor.Document)
  (db : Database.t) :
  Database.table (save_if_useful E cfg o db).2 = Database.table db
  \/ exists d,
       o = Some d /\ _is_useful_content cfg d = true
       /\ Database.table (save_if_useful E cfg o db).2
          = Database.table db
            ++ [Database.mkRow (Database.next_id (Database.table db)) d]
       /\ Database.has_url (Database.table db) (ContentProcessor.url d) = false
       /\ Database.has_hash (Database.table db)
            (ContentProcessor.content_hash d) = false.
Proof.
  unfold save_if_useful. destruct o as [d|]; [|by left].
  destruct (_is_useful_content cfg d) eqn:Eu; [|by left].
  destruct (save_content_table (db_faults E) db d) as [H|(H1 & H2 & H3 & H4)].
  - left. by destruct (Database.save_content _ _ _) as [[] db'].
  - right. exists d. split_and!; try done.
    by destruct (Database.save_content _ _ _) as [[] db'].
Qed.

Lemma crawl_page_table E cfg (u : string) c :
  rows (_crawl_page E cfg u c) = rows c
  \/ exists d,
       ContentProcessor.url d = u /\ _is_useful_content cfg d = true
       /\ rows (_crawl_page E cfg u c)
          = rows c ++ [Database.mkRow (Database.next_id (rows c)) d]
       /\ Database.has_url (rows c) (ContentProcessor.url d) = false
       /\ Database.has_hash (rows c) (ContentProcessor.content_hash d) = false.
Proof.
  unfold _crawl_page.
  destruct (URLManager.is_crawled u (url_manager c)) as [[] m]; [by left|].
  destruct (_fetch_page E u) as [[|ch html]|]; [by left| |by left].
  destruct (ContentProcessor.extract_content _ _ _) as [soup content_data] eqn:Ex.
  pose proof (save_if_useful_table E cfg content_data (db_manager c)) as H.
  assert (forall db' : Database.t,
            Database.table db' = Database.table (save_if_useful E cfg content_data (db_manager c)).2 ->
            Database.table db' = rows c
            \/ exists d,
                 ContentProcessor.url d = u /\ _is_useful_content cfg d = true
                 /\ Database.table db'
                    = rows c ++ [Database.mkRow (Database.next_id (rows c)) d]
                 /\ Database.has_url (rows c) (ContentProcessor.url d) = false
                 /\ Database.has_hash (rows c) (ContentProcessor.content_hash d) = false)
    as Hdb.
  { intros db' ->. destruct H as [H|(d & -> & H1 & H2 & H3 & H4)]; [by left|].
    right. exists d. split_and!; try done.
    assert ((ContentProcessor.extract_content (libs E) u
               (html_parser E (String ch html))).2 = Some d) as Hd
      by by rewrite Ex.
    by apply extract_content_some in Hd as (_ & _ & ->). }
  destruct (save_if_useful _ _ _ _) as [[] db]; simpl in *; [|by apply Hdb].
  destruct (_extract_urls _ _ _ _) as [new_urls|]; [|by apply Hdb].
  destruct (add_all _ _ _) as [m' []]; by apply Hdb.
Qed.

Lemma add_all_visited (now : Z) (urls : list string) (m : URLManager.t) :
  URLManager.r_crawled_urls (URLManager.redis_client (add_all now urls m).1)
  = URLManager.r_crawled_urls (URLManager.redis_client m).
Proof.
  revert m. induction urls as [|u urls IH]; intros m; simpl; [done|].
  pose proof (add_url_visited now u 1 m) as H.
  destruct (URLManager.add_url now u 1 m) as [m' []]; simpl in *; [|done].
  by rewrite IH.
Qed.

Lemma crawl_page_visited E cfg (u : string) c :
  visited (_crawl_page E cfg u c) = visited c
  \/ (visited (_crawl_page E cfg u c) = {[URLManager._hash_url u]} ∪ visited c
      /\ exists html, _fetch_page E u = Some html /\ html <> "").
Proof.
  unfold _crawl_page.
  pose proof (is_crawled_redis u (url_manager c)) as Hr.
  destruct (URLManager.is_crawled u (url_manager c)) as [[] m]; simpl in Hr;
    [left; simpl; by rewrite Hr|].
  destruct (_fetch_page E u) as [[|ch html]|];
    [left; simpl; by rewrite Hr| |left; simpl; by rewrite Hr].
  destruct (ContentProcessor.extract_content _ _ _) as [soup content_data].
  destruct (save_if_useful _ _ _ _) as [[] db]; [|left; simpl; by rewrite Hr].
  destruct (_extract_urls _ _ _ _) as [new_urls|]; [|left; simpl; by rewrite Hr].
  pose proof (add_all_visited (loop_time E) new_urls m) as Ha.
  destruct (add_all _ _ _) as [m' []]; simpl in *.
  - right. rewrite Ha, Hr. split; [done|]. by exists (String ch html).
  - left. by rewrite Ha, Hr.
Qed.

(** A relation between the crawler before and after that every step of
    the loop respects holds between the start and the end of the loop. *)
Lemma crawl_loop_rel E cfg (R : Crawler -> Crawler -> Prop) :
  (forall c, R c c) ->
  (forall a b c, R a b -> R b c -> R a c) ->
  (forall c (u : string) m,
     URLManager.get_next_url (url_manager c) = (Some u, m) ->
     R c (mkCrawler m (db_manager c) (crawled_count c))) ->
  (forall (u : string) c, R c (_crawl_page E cfg u c)) ->
  (forall c, R c (mkCrawler (url_manager c) (db_manager c) (S (crawled_count c)))) ->
  forall (budget : nat) c, R c (crawl_loop E cfg budget c).
Proof.
  intros Hrefl Htrans Hnext Hpage Hcount.
  induction budget as [|budget IH]; intros c; simpl; [done|].
  destruct (URLManager.get_next_url (url_manager c)) as [[[|ch u]|] m] eqn:En;
    [by apply (Hnext c "" m)| |done].
  eapply Htrans; [by apply (Hnext c (String ch u) m)|].
  eapply Htrans; [apply (Hpage (String ch u))|].
  eapply Htrans; [apply Hcount|]. simpl. apply IH.
Qed.

End Crawl2.

(** X6.  [crawl] never lowers [crawled_count] and never takes it beyond
    [MAX_PAGES]; a count that is above [MAX_PAGES] at the start stays as
    it is. *)
Theorem X6_crawl_counts_within_budget :
  forall (E : WebCrawler.Env) (cfg : Config.CrawlerConfig)
         (c : WebCrawler.Crawler),
    (WebCrawler.crawled_count c
     <= WebCrawler.crawled_count (WebCrawler.crawl E cfg c)
     <= Nat.max (Config.MAX_PAGES cfg) (WebCrawler.crawled_count c))%nat.
Proof.
  intros E cfg c. unfold WebCrawler.crawl.
  pose proof (crawl_loop_count E cfg
                (Config.MAX_PAGES cfg - WebCrawler.crawled_count c) c).
  lia.
Qed.

(** X7.  [crawl] only appends to the table: the rows that were there
    stay in place, and every row it adds holds a document whose content
    is not empty and has at least [MIN_CONTENT_LENGTH] characters. *)
Theorem X7_crawl_appends_useful_documents :
  forall (E : WebCrawler.Env) (cfg : Config.CrawlerConfig)
         (c : WebCrawler.Crawler),
    exists new_rows,
      Database.table (WebCrawler.db_manager (WebCrawler.crawl E cfg c))
      = Database.table (WebCrawler.db_manager c) ++ new_rows
      /\ Forall
           (fun r =>
              (Config.MIN_CONTENT_LENGTH cfg
               <= String.length (ContentProcessor.content (Database.doc r)))%nat
              /\ ContentProcessor.content (Database.doc r) <> "")
           new_rows.
Proof.
  intros E cfg c. unfold WebCrawler.crawl.
  apply (crawl_loop_rel E cfg
    (fun a b => exists new_rows,
       Database.table (WebCrawler.db_manager b)
       = Database.table (WebCrawler.db_manager a) ++ new_rows
       /\ Forall
            (fun r =>
               (Config.MIN_CONTENT_LENGTH cfg
                <= String.length (ContentProcessor.content (Database.doc r)))%nat
               /\ ContentProcessor.content (Database.doc r) <> "")
            new_rows)).
  - intros a. exists []. by rewrite app_nil_r.
  - intros a b d (r1 & H1 & F1) (r2 & H2 & F2). exists (r1 ++ r2).
    rewrite H2, H1, app_assoc. split; [done|]. by apply Forall_app.
  - intros a u m _. exists []. simpl. by rewrite app_nil_r.
  - intros u a.
    destruct (crawl_page_table E cfg u a) as [->|(d & _ & Hu & -> & _)].
    + exists []. by rewrite app_nil_r.
    + eexists. split; [done|]. apply Forall_singleton. simpl.
      unfold WebCrawler._is_useful_content in Hu.
      destruct (UrlParse.nonempty (ContentProcessor.content d)) eqn:En;
        [|discriminate]. simpl in Hu.
      split; [by apply Nat.leb_le|]. by apply nonempty_true.
  - intros a. exists []. simpl. by rewrite app_nil_r.
Qed.

(** X8.  [save_content] keeps the constraints of the schema: if the
    [id]s, the [url]s and the [content_hash]es of the rows are pairwise
    different before the call, they are so after it, whatever fails. *)
Theorem X8_save_content_keeps_constraints :
  forall (f : Database.Faults) (db : Database.t)
         (d : ContentProcessor.Document),
    Database.constraints_hold (Database.table db) ->
    Database.constraints_hold (Database.table (Database.save_content f db d).2).
Proof. intros f db d. apply save_content_constraints. Qed.

Lemma X8_save_content_keeps_constraints_witness :
  Database.constraints_hold (Database.table Examples.tagged_store)
  /\ Database.constraints_hold
       (Database.table
          (Database.save_content Database.no_faults Examples.tagged_store
             (Examples.doc_of "http://example.com/9" "h9" [])).2).
Proof.
  assert (Database.constraints_hold (Database.table Examples.tagged_store))
    as H.
  { unfold Database.constraints_hold. simpl.
    split_and!; apply (bool_decide_unpack _); vm_compute; exact I. }
  split; [exact H|].
  exact (X8_save_content_keeps_constraints Database.no_faults
           Examples.tagged_store
           (Examples.doc_of "http://example.com/9" "h9" []) H).
Defined.

(** X9.  [crawl] keeps the constraints of the schema: on a table whose
    [id]s, [url]s and [content_hash]es are pairwise different, they are
    still so when the crawl ends. *)
Theorem X9_crawl_keeps_constraints :
  forall (E : WebCrawler.Env) (cfg : Config.CrawlerConfig)
         (c : WebCrawler.Crawler),
    Database.constraints_hold (Database.table (WebCrawler.db_manager c)) ->
    Database.constraints_hold
      (Database.table (WebCrawler.db_manager (WebCrawler.crawl E cfg c))).
Proof.
  intros E cfg c. unfold WebCrawler.crawl.
  apply (crawl_loop_rel E cfg
    (fun a b =>
       Database.constraints_hold (Database.table (WebCrawler.db_manager a)) ->
       Database.constraints_hold (Database.table (WebCrawler.db_manager b))));
    try done.
  - intros a b d H1 H2 H. by apply H2, H1.
  - intros u a H.
    destruct (crawl_page_table E cfg u a) as [->|(d & _ & _ & -> & Hu & Hh)];
      [done|]. by apply constraints_hold_snoc.
Qed.

Lemma X9_crawl_keeps_constraints_witness :
  Database.constraints_hold
    (Database.table (WebCrawler.db_manager Examples.stocked_crawler))
  /\ List.length
       (Database.table (WebCrawler.db_manager Examples.stocked_crawler))
     = 3%nat
  /\ List.length
       (Database.table
          (WebCrawler.db_manager
             (WebCrawler.crawl Examples.article_env Config.config
                Examples.stocked_crawler))) = 4%nat
  /\ Database.constraints_hold
       (Database.table
          (WebCrawler.db_manager
             (WebCrawler.crawl Examples.article_env Config.config
                Examples.stocked_crawler))).
Proof.
  assert (Database.constraints_hold
            (Database.table (WebCrawler.db_manager Examples.stocked_crawler)))
    as H.
  { unfold Database.constraints_hold. simpl.
    split_and!; apply (bool_decide_unpack _); vm_compute; exact I. }
  split; [exact H|]. split; [reflexivity|]. split; [vm_compute; reflexivity|].
  exact (X9_crawl_keeps_constraints Examples.article_env Config.config
           Examples.stocked_crawler H).
Defined.


(** X10.  [crawl] marks only pages it has fetched: every hash in the
    visited set after a crawl was there before, or is the hash of a URL
    for which the fetch delivers a page that is not empty (status 200,
    content type with [text/html]). *)
Theorem X10_crawl_marks_only_fetched_pages :
  forall (E : WebCrawler.Env) (cfg : Config.CrawlerConfig)
         (c : WebCrawler.Crawler) (h : string),
    h ∈ URLManager.r_crawled_urls
          (URLManager.redis_client
             (WebCrawler.url_manager (WebCrawler.crawl E cfg c))) ->
    h ∈ URLManager.r_crawled_urls
          (URLManager.redis_client (WebCrawler.url_manager c))
    \/ exists u html,
         h = URLManager._hash_url u
         /\ WebCrawler._fetch_page E u = Some html /\ html <> "".
Proof.
  intros E cfg c h. unfold WebCrawler.crawl.
  apply (crawl_loop_rel E cfg
    (fun a b =>
       h ∈ URLManager.r_crawled_urls
             (URLManager.redis_client (WebCrawler.url_manager b)) ->
       h ∈ URLManager.r_crawled_urls
             (URLManager.redis_client (WebCrawler.url_manager a))
       \/ exists u html,
            h = URLManager._hash_url u
            /\ WebCrawler._fetch_page E u = Some html /\ html <> ""));
    try (by left).
  - intros a b d H1 H2 H. destruct (H2 H) as [H'|H']; [by apply H1|by right].
  - intros a u m Hn. simpl.
    apply get_next_url_spec in Hn as (_ & _ & -> & _). by left.
  - intros u a H.
    destruct (crawl_page_visited E cfg u a) as [Hv|[Hv (html & Hf & Hne)]];
      rewrite Hv in H; [by left|].
    apply elem_of_union in H as [->%elem_of_singleton|H]; [|by left].
    right. by exists u, html.
Qed.

Lemma X10_crawl_marks_only_fetched_pages_witness :
  URLManager._hash_url Examples.url_a
    ∈ URLManager.r_crawled_urls
        (URLManager.redis_client
           (WebCrawler.url_manager
              (WebCrawler.crawl Examples.article_env Config.config
                 Examples.seeded_crawler)))
  /\ (URLManager._hash_url Examples.url_a
        ∈ URLManager.r_crawled_urls
            (URLManager.redis_client
               (WebCrawler.url_manager Examples.seeded_crawler))
      \/ exists u html,
           URLManager._hash_url Examples.url_a = URLManager._hash_url u
           /\ WebCrawler._fetch_page Examples.article_env u = Some html
           /\ html <> "").
Proof.
  assert (URLManager._hash_url Examples.url_a
            ∈ URLManager.r_crawled_urls
                (URLManager.redis_client
                   (WebCrawler.url_manager
                      (WebCrawler.crawl Examples.article_env Config.config
                         Examples.seeded_crawler)))) as H.
  { apply (bool_decide_unpack _). vm_compute. exact I. }
  split; [exact H|].
  exact (X10_crawl_marks_only_fetched_pages Examples.article_env Config.config
           Examples.seeded_crawler _ H).
Defined.

Section Crawl3.
Import Config WebCrawler.
Implicit Types (E : Env) (cfg : CrawlerConfig) (c : Crawler).

Local Abbreviation queue c :=
  (URLManager.crawl_queue (URLManager.redis_client (url_manager c))).

(** The normal form of a URL with a scheme is not the empty string. *)
Lemma normalize_valid_nonempty (u : string) :
  Helpers.is_valid_url u = true -> Helpers.normalize_url u <> "".
Proof.
  unfold Helpers.is_valid_url, Helpers.normalize_url.
  destruct (negb (UrlParse.nonempty u)); [discriminate|].
  destruct (negb (Re.match_to_end Helpers.url_pattern u)); [discriminate|].
  destruct (UrlParse.urlparse u) as [r|]; [|discriminate].
  destruct (Py.in_list (UrlParse.scheme r) ["http"; "https"]) eqn:Es;
    [|discriminate].
  intros _. unfold UrlParse.urlunparse, UrlParse.urlunsplit.
  cbn [UrlParse.scheme UrlParse.netloc UrlParse.path UrlParse.params
       UrlParse.query UrlParse.fragment UrlParse.nonempty].
  assert (exists s', UrlParse.scheme r = String "h" s') as [s' ->].
  { unfold Py.in_list in Es. simpl in Es.
    destruct (String.eqb_spec (UrlParse.scheme r) "http") as [->|_]; [by eexists|].
    destruct (String.eqb_spec (UrlParse.scheme r) "https") as [->|_]; [by eexists|].
    discriminate. }
  cbn [UrlParse.nonempty].
  destruct (UrlParse.nonempty (Helpers.filter_query _));
    rewrite !append_cons, rstrip_cons_keep by done; discriminate.
Qed.

Lemma add_all_queue (now : Z) (urls : list string) (m : URLManager.t)
  (v : string) (p : Z) :
  URLManager.crawl_queue (URLManager.redis_client (add_all now urls m).1) !! v
  = Some p ->
  URLManager.crawl_queue (URLManager.redis_client m) !! v = Some p
  \/ (p = 1%Z /\ v ∈ urls).
Proof.
  revert m. induction urls as [|u urls IH]; intros m; simpl; [by left|].
  pose proof (add_url_queue now u 1 m) as Hq.
  assert (URLManager.crawl_queue
            (URLManager.redis_client (URLManager.add_url now u 1 m).1) !! v
          = Some p ->
          URLManager.crawl_queue (URLManager.redis_client m) !! v = Some p
          \/ (p = 1%Z /\ v ∈ u :: urls)) as Hone.
  { rewrite Hq. destruct (URLManager.is_crawled u m).1; [by left|].
    destruct (decide (u = v)) as [->|Hne].
    - rewrite lookup_insert_eq. intros [= <-]. right. split; [done|left].
    - rewrite lookup_insert_ne by done. by left. }
  destruct (URLManager.add_url now u 1 m) as [m' []]; simpl in *.
  - intros H. destruct (IH m' H) as [H'|[-> H']]; [by apply Hone|].
    right. split; [done|by right].
  - apply Hone.
Qed.

(** What [_crawl_page] puts in the queue. *)
Lemma crawl_page_queue E cfg (u : string) c (v : string) (p : Z) :
  queue (_crawl_page E cfg u c) !! v = Some p ->
  queue c !! v = Some p
  \/ (p = 1%Z
      /\ exists full,
           _is_valid_crawl_url cfg full = true
           /\ v = Helpers.normalize_url full).
Proof.
  unfold _crawl_page.
  pose proof (is_crawled_redis u (url_manager c)) as Hr.
  destruct (URLManager.is_crawled u (url_manager c)) as [[] m]; simpl in Hr;
    [simpl; rewrite Hr; by left|].
  destruct (_fetch_page E u) as [[|ch html]|];
    [simpl; rewrite Hr; by left| |simpl; rewrite Hr; by left].
  destruct (ContentProcessor.extract_content _ _ _) as [soup content_data].
  destruct (save_if_useful _ _ _ _) as [[] db];
    [|simpl; rewrite Hr; by left].
  destruct (_extract_urls _ _ _ _) as [new_urls|] eqn:Ex;
    [|simpl; rewrite Hr; by left].
  pose proof (add_all_queue (loop_time E) new_urls m v p) as Ha.
  rewrite Hr in Ha.
  assert (URLManager.crawl_queue
            (URLManager.redis_client (add_all (loop_time E) new_urls m).1) !! v
          = Some p ->
          queue c !! v = Some p
          \/ (p = 1%Z
              /\ exists full,
                   _is_valid_crawl_url cfg full = true
                   /\ v = Helpers.normalize_url full)) as Hb.
  { intros H. destruct (Ha H) as [H'|[-> H']]; [by left|]. right.
    split; [done|].
    destruct (urls_of_hrefs_origin E cfg u _ _ v Ex H')
      as (href & full & _ & _ & Hv & ->).
    by exists full. }
  destruct (add_all _ _ _) as [m' []]; simpl in *; apply Hb.
Qed.

Lemma is_valid_crawl_url_valid cfg (u : string) :
  _is_valid_crawl_url cfg u = true -> Helpers.is_valid_url u = true.
Proof. by intros (H & _)%is_valid_crawl_url_true. Qed.

Lemma crawl_page_no_empty E cfg (u : string) c :
  queue c !! "" = None -> queue (_crawl_page E cfg u c) !! "" = None.
Proof.
  intros H. destruct (queue (_crawl_page E cfg u c) !! "") as [p|] eqn:Eq;
    [|done].
  apply crawl_page_queue in Eq as [Eq|[_ (full & Hv & Hn)]]; [congruence|].
  apply is_valid_crawl_url_valid, normalize_valid_nonempty in Hv. congruence.
Qed.

Lemma crawl_loop_end E cfg (budget : nat) c :
  queue c !! "" = None ->
  crawled_count (crawl_loop E cfg budget c) = (crawled_count c + budget)%nat
  \/ queue (crawl_loop E cfg budget c) = ∅.
Proof.
  revert c. induction budget as [|budget IH]; intros c Hinv; simpl;
    [left; lia|].
  destruct (URLManager.get_next_url (url_manager c)) as [[u|] m] eqn:En.
  - pose proof (get_next_url_spec _ _ _ En) as ([p Hp] & Hq & _).
    destruct u as [|ch u]; [congruence|].
    match goal with |- context [crawl_loop E cfg budget ?x] =>
      destruct (IH x) as [H|H] end.
    + simpl. apply crawl_page_no_empty. simpl. rewrite Hq.
      by rewrite lookup_delete_ne.
    + left. rewrite H. simpl. rewrite crawl_page_count. simpl. lia.
    + by right.
  - right. unfold URLManager.get_next_url, URLManager.zpopmax in En.
    destruct (URLManager.zmax _) as [[v p]|] eqn:Ez; [discriminate|].
    unfold URLManager.zmax in Ez.
    apply map_to_list_empty_iff.
    destruct (map_to_list _) as [|x l]; [done|]. simpl in Ez.
    destruct (foldr _ None l) as [y|]; [by destruct (URLManager.ranks_above y x)|done].
Qed.

End Crawl3.

(** X11.  When the empty string is not in the queue and the count is not
    above [MAX_PAGES], [crawl] ends with [crawled_count] equal to
    [MAX_PAGES] or with an empty queue: it does not stop earlier. *)
Theorem X11_crawl_stops_at_budget_or_empty_queue :
  forall (E : WebCrawler.Env) (cfg : Config.CrawlerConfig)
         (c : WebCrawler.Crawler),
    URLManager.crawl_queue (URLManager.redis_client (WebCrawler.url_manager c))
      !! "" = None ->
    (WebCrawler.crawled_count c <= Config.MAX_PAGES cfg)%nat ->
    WebCrawler.crawled_count (WebCrawler.crawl E cfg c) = Config.MAX_PAGES cfg
    \/ URLManager.crawl_queue
         (URLManager.redis_client
            (WebCrawler.url_manager (WebCrawler.crawl E cfg c))) = ∅.
Proof.
  intros E cfg c Hinv Hle. unfold WebCrawler.crawl.
  destruct (crawl_loop_end E cfg
              (Config.MAX_PAGES cfg - WebCrawler.crawled_count c) c Hinv)
    as [H|H]; [left; lia|by right].
Qed.

Lemma X11_crawl_stops_at_budget_or_empty_queue_witness :
  URLManager.crawl_queue
    (URLManager.redis_client (WebCrawler.url_manager Examples.seeded_crawler))
    !! "" = None
  /\ (WebCrawler.crawled_count
        (WebCrawler.crawl Examples.article_env Config.config
           Examples.seeded_crawler) = Config.MAX_PAGES Config.config
      \/ URLManager.crawl_queue
           (URLManager.redis_client
              (WebCrawler.url_manager
                 (WebCrawler.crawl Examples.article_env Config.config
                    Examples.seeded_crawler))) = ∅).
Proof.
  assert (URLManager.crawl_queue
            (URLManager.redis_client
               (WebCrawler.url_manager Examples.seeded_crawler))
            !! "" = None) as H by (vm_compute; reflexivity).
  split; [exact H|].
  apply (X11_crawl_stops_at_budget_or_empty_queue Examples.article_env
           Config.config Examples.seeded_crawler H).
  simpl. lia.
Defined.

(** X12.  Every URL that is in the queue after a crawl was in the queue
    before with the same priority, or has priority 1 and is the normal
    form of a URL that [_is_valid_crawl_url] accepts. *)
Theorem X12_crawl_enqueues_only_accepted_links :
  forall (E : WebCrawler.Env) (cfg : Config.CrawlerConfig)
         (c : WebCrawler.Crawler) (v : string) (p : Z),
    URLManager.crawl_queue
      (URLManager.redis_client
         (WebCrawler.url_manager (WebCrawler.crawl E cfg c))) !! v = Some p ->
    URLManager.crawl_queue (URLManager.redis_client (WebCrawler.url_manager c))
      !! v = Some p
    \/ (p = 1%Z
        /\ exists full,
             WebCrawler._is_valid_crawl_url cfg full = true
             /\ v = Helpers.normalize_url full).
Proof.
  intros E cfg c v p. unfold WebCrawler.crawl.
  apply (crawl_loop_rel E cfg
    (fun a b =>
       URLManager.crawl_queue
         (URLManager.redis_client (WebCrawler.url_manager b)) !! v = Some p ->
       URLManager.crawl_queue
         (URLManager.redis_client (WebCrawler.url_manager a)) !! v = Some p
       \/ (p = 1%Z
           /\ exists full,
                WebCrawler._is_valid_crawl_url cfg full = true
                /\ v = Helpers.normalize_url full)));
    try (by left).
  - intros a b d H1 H2 H. destruct (H2 H) as [H'|H']; [by apply H1|by right].
  - intros a u m Hn. simpl.
    apply get_next_url_spec in Hn as (_ & -> & _). intros H. left.
    by apply lookup_delete_Some in H as [_ H].
  - intros u a. apply crawl_page_queue.
Qed.

Lemma X12_crawl_enqueues_only_accepted_links_witness :
  URLManager.crawl_queue
    (URLManager.redis_client
       (WebCrawler.url_manager
          (WebCrawler.crawl Examples.link_env Examples.one_page_config
             Examples.seeded_crawler))) !! Examples.url_b = Some 1%Z
  /\ (URLManager.crawl_queue
        (URLManager.redis_client
           (WebCrawler.url_manager Examples.seeded_crawler))
        !! Examples.url_b = Some 1%Z
      \/ (1%Z = 1%Z
          /\ exists full,
               WebCrawler._is_valid_crawl_url Examples.one_page_config full
               = true
               /\ Examples.url_b = Helpers.normalize_url full)).
Proof.
  assert (URLManager.crawl_queue
            (URLManager.redis_client
               (WebCrawler.url_manager
                  (WebCrawler.crawl Examples.link_env Examples.one_page_config
                     Examples.seeded_crawler))) !! Examples.url_b
          = Some 1%Z) as H by (vm_compute; reflexivity).
  split; [exact H|].
  exact (X12_crawl_enqueues_only_accepted_links Examples.link_env
           Examples.one_page_config Examples.seeded_crawler Examples.url_b 1 H).
Defined.

(* ===================================================================== *)
(** * The filter and the queue                                            *)
(* ===================================================================== *)

Section Crawl4.
Import Config WebCrawler.
Implicit Types (E : Env) (cfg : CrawlerConfig) (c : Crawler).

Local Abbreviation queue c :=
  (URLManager.crawl_queue (URLManager.redis_client (url_manager c))).

(** What [_crawl_page] puts in the queue, and the link it comes from. *)
Lemma crawl_page_queue_origin E cfg (u : string) c (v : string) (p : Z) :
  queue (_crawl_page E cfg u c) !! v = Some p ->
  queue c !! v = Some p
  \/ (p = 1%Z
      /\ exists html href full,
           _fetch_page E u = Some html
           /\ href ∈ hrefs (ContentProcessor.extract_content (libs E) u
                              (html_parser E html)).1
           /\ urljoin E u href = Some full
           /\ _is_valid_crawl_url cfg full = true
           /\ v = Helpers.normalize_url full).
Proof.
  unfold _crawl_page.
  pose proof (is_crawled_redis u (url_manager c)) as Hr.
  destruct (URLManager.is_crawled u (url_manager c)) as [[] m]; simpl in Hr;
    [simpl; rewrite Hr; by left|].
  destruct (_fetch_page E u) as [[|ch html]|];
    [simpl; rewrite Hr; by left| |simpl; rewrite Hr; by left].
  destruct (ContentProcessor.extract_content _ _ _) as [soup content_data]
    eqn:Ec.
  destruct (save_if_useful _ _ _ _) as [[] db];
    [|simpl; rewrite Hr; by left].
  destruct (_extract_urls _ _ _ _) as [new_urls|] eqn:Ex;
    [|simpl; rewrite Hr; by left].
  pose proof (add_all_queue (loop_time E) new_urls m v p) as Ha.
  rewrite Hr in Ha.
  assert (URLManager.crawl_queue
            (URLManager.redis_client (add_all (loop_time E) new_urls m).1) !! v
          = Some p ->
          queue c !! v = Some p
          \/ (p = 1%Z
              /\ exists html0 href full,
                   Some (String ch html) = Some html0
                   /\ href ∈ hrefs (ContentProcessor.extract_content (libs E) u
                                      (html_parser E html0)).1
                   /\ urljoin E u href = Some full
                   /\ _is_valid_crawl_url cfg full = true
                   /\ v = Helpers.normalize_url full)) as Hb.
  { intros H. destruct (Ha H) as [H'|[-> H']]; [by left|]. right.
    split; [done|].
    destruct (urls_of_hrefs_origin E cfg u _ _ v Ex H')
      as (href & full & Hh & Hj & Hv & ->).
    exists (String ch html), href, full. rewrite Ec. done. }
  destruct (add_all _ _ _) as [m' []]; simpl in *; apply Hb.
Qed.

End Crawl4.

(** C8, as stated, fails: the filter is applied to the link as it is
    resolved, and the URL that is enqueued is its normal form.  On a page
    that links to [http://example.com/blog/x.pdf] and to
    [http://example.com/news], with and without a slash at the end, the
    filter rejects the two links without the slash, one for its
    extension and one for want of a pattern, and accepts the two with
    it; their normal forms, which are the rejected links, are enqueued. *)
Lemma C8_counterexample :
  WebCrawler.hrefs Examples.slash_links_page
  = ["http://example.com/blog/x.pdf"; "http://example.com/blog/x.pdf/";
     "http://example.com/news"; "http://example.com/news/"]
  /\ WebCrawler.excluded_extension Examples.one_page_config
       "http://example.com/blog/x.pdf" = true
  /\ WebCrawler.matches_useful_pattern Examples.one_page_config
       "http://example.com/news" = false
  /\ URLManager.crawl_queue
       (URLManager.redis_client
          (WebCrawler.url_manager
             (WebCrawler.crawl Examples.slash_links_env
                Examples.one_page_config Examples.seeded_crawler)))
     = {[ "http://example.com/blog/x.pdf" := 1%Z;
          "http://example.com/news" := 1%Z ]}
  /\ Config.EXCLUDED_EXTENSIONS Examples.one_page_config
     = Config.EXCLUDED_EXTENSIONS Config.config
  /\ Config.USEFUL_URL_PATTERNS Examples.one_page_config
     = Config.USEFUL_URL_PATTERNS Config.config.
Proof.
  split; [vm_compute; reflexivity|]. split; [vm_compute; reflexivity|].
  split; [vm_compute; reflexivity|]. split; [vm_compute; reflexivity|].
  split; reflexivity.
Qed.

(** C8, amended.  The filter is applied to each link as it is resolved
    against the URL of the page, before the link is normalized.  Every
    URL that a crawl adds to the queue of the frontier is added with
    priority 1 and is the normal form of a link of a fetched page whose
    resolved URL is valid, has a path that ends with no excluded
    extension, and matches one of the useful patterns: a link whose
    resolved URL fails one of these tests puts nothing in the queue. *)
Theorem C8_enqueued_links_passed_filter :
  forall (E : WebCrawler.Env) (cfg : Config.CrawlerConfig)
         (c : WebCrawler.Crawler) (v : string) (p : Z),
    URLManager.crawl_queue
      (URLManager.redis_client
         (WebCrawler.url_manager (WebCrawler.crawl E cfg c))) !! v = Some p ->
    URLManager.crawl_queue (URLManager.redis_client (WebCrawler.url_manager c))
      !! v = Some p
    \/ (p = 1%Z
        /\ exists page html href full_url : string,
             WebCrawler._fetch_page E page = Some html
             /\ href ∈ WebCrawler.hrefs
                         (ContentProcessor.extract_content (WebCrawler.libs E)
                            page (WebCrawler.html_parser E html)).1
             /\ WebCrawler.urljoin E page href = Some full_url
             /\ Helpers.is_valid_url full_url = true
             /\ WebCrawler.excluded_extension cfg full_url = false
             /\ WebCrawler.matches_useful_pattern cfg full_url = true
             /\ v = Helpers.normalize_url full_url).
Proof.
  intros E cfg c v p. unfold WebCrawler.crawl.
  apply (crawl_loop_rel E cfg
    (fun a b =>
       URLManager.crawl_queue
         (URLManager.redis_client (WebCrawler.url_manager b)) !! v = Some p ->
       URLManager.crawl_queue
         (URLManager.redis_client (WebCrawler.url_manager a)) !! v = Some p
       \/ (p = 1%Z
           /\ exists page html href full_url : string,
                WebCrawler._fetch_page E page = Some html
                /\ href ∈ WebCrawler.hrefs
                            (ContentProcessor.extract_content
                               (WebCrawler.libs E) page
                               (WebCrawler.html_parser E html)).1
                /\ WebCrawler.urljoin E page href = Some full_url
                /\ Helpers.is_valid_url full_url = true
                /\ WebCrawler.excluded_extension cfg full_url = false
                /\ WebCrawler.matches_useful_pattern cfg full_url = true
                /\ v = Helpers.normalize_url full_url)));
    try (by left).
  - intros a b d H1 H2 H. destruct (H2 H) as [H'|H']; [by apply H1|by right].
  - intros a u m Hn. simpl.
    apply get_next_url_spec in Hn as (_ & -> & _). intros H. left.
    by apply lookup_delete_Some in H as [_ H].
  - intros u a H.
    destruct (crawl_page_queue_origin E cfg u a v p H)
      as [H'|(-> & html & href & full & Hf & Hh & Hj & Hv & ->)]; [by left|].
    right. split; [done|]. exists u, html, href, full.
    apply is_valid_crawl_url_true in Hv as (H1 & H2 & H3). done.
Qed.

Lemma C8_enqueued_links_passed_filter_witness :
  URLManager.crawl_queue
    (URLManager.redis_client
       (WebCrawler.url_manager
          (WebCrawler.crawl Examples.slash_links_env Examples.one_page_config
             Examples.seeded_crawler)))
    !! "http://example.com/news" = Some 1%Z
  /\ (URLManager.crawl_queue
        (URLManager.redis_client
           (WebCrawler.url_manager Examples.seeded_crawler))
        !! "http://example.com/news" = Some 1%Z
      \/ (1%Z = 1%Z
          /\ exists page html href full_url : string,
               WebCrawler._fetch_page Examples.slash_links_env page = Some html
               /\ href ∈ WebCrawler.hrefs
                           (ContentProcessor.extract_content
                              (WebCrawler.libs Examples.slash_links_env) page
                              (WebCrawler.html_parser Examples.slash_links_env
                                 html)).1
               /\ WebCrawler.urljoin Examples.slash_links_env page href
                  = Some full_url
               /\ Helpers.is_valid_url full_url = true
               /\ WebCrawler.excluded_extension Examples.one_page_config
                    full_url = false
               /\ WebCrawler.matches_useful_pattern Examples.one_page_config
                    full_url = true
               /\ "http://example.com/news" = Helpers.normalize_url full_url)).
Proof.
  assert (URLManager.crawl_queue
            (URLManager.redis_client
               (WebCrawler.url_manager
                  (WebCrawler.crawl Examples.slash_links_env
                     Examples.one_page_config Examples.seeded_crawler)))
            !! "http://example.com/news" = Some 1%Z) as H
    by (vm_compute; reflexivity).
  split; [exact H|].
  exact (C8_enqueued_links_passed_filter Examples.slash_links_env
           Examples.one_page_config Examples.seeded_crawler
           "http://example.com/news" 1 H).
Defined.

(* ===================================================================== *)
(** * The extractor: tags, document fields and the cleaned tree          *)
(* ===================================================================== *)

Section Extractor2.
Import Bs4 ContentProcessor.

Lemma in_list_true (x : string) (l : list string) :
  Py.in_list x l = true <-> x ∈ l.
Proof.
  unfold Py.in_list. rewrite existsb_exists. split.
  - intros (y & Hy & ->%String.eqb_eq). by apply list_elem_of_In.
  - intros H. exists x. split; [by apply list_elem_of_In|apply String.eqb_refl].
Qed.

Lemma in_list_false (x : string) (l : list string) :
  Py.in_list x l = false <-> x ∉ l.
Proof.
  rewrite <- in_list_true. by destruct (Py.in_list x l).
Qed.

(** The loop of [_extract_tags] over the elements of one selector. *)
Lemma add_tags_inv (P : string -> Prop) (elems : list node) (tags : list string) :
  let add (tags : list string) (elem : node) :=
    let tag_text := get_text elem in
    if UrlParse.nonempty tag_text && negb (Py.in_list tag_text tags)
    then tags ++ [tag_text] else tags in
  (forall elem, elem ∈ elems -> P (get_text elem)) ->
  NoDup tags -> Forall (fun t => t <> "" /\ P t) tags ->
  NoDup (fold_left add elems tags)
  /\ Forall (fun t => t <> "" /\ P t) (fold_left add elems tags).
Proof.
  intros add. revert tags. induction elems as [|e elems IH]; intros tags HP Hnd Hne;
    simpl; [done|].
  apply IH.
  - intros elem He. apply HP. by right.
  - unfold add. destruct (UrlParse.nonempty (get_text e)) eqn:En; simpl; [|done].
    destruct (Py.in_list (get_text e) tags) eqn:Ei; simpl; [done|].
    apply NoDup_app. split_and!; [done| |apply NoDup_singleton].
    intros x Hx ->%list_elem_of_singleton. by apply in_list_false in Ei.
  - unfold add. destruct (UrlParse.nonempty (get_text e)) eqn:En; simpl; [|done].
    destruct (Py.in_list (get_text e) tags) eqn:Ei; simpl; [done|].
    apply Forall_app. split; [done|]. apply Forall_singleton.
    split; [by apply nonempty_true|]. apply HP. left.
Qed.

Lemma extract_tags_spec (s : soup) :
  (List.length (_extract_tags s) <= 10)%nat
  /\ NoDup (_extract_tags s)
  /\ Forall (fun t =>
               t <> ""
               /\ exists sel elem,
                    sel ∈ tag_selectors /\ elem ∈ select sel s
                    /\ t = get_text elem) (_extract_tags s).
Proof.
  unfold _extract_tags.
  set (add := fun (tags : list string) (elem : node) =>
                if UrlParse.nonempty (get_text elem)
                   && negb (Py.in_list (get_text elem) tags)
                then tags ++ [get_text elem] else tags).
  set (P := fun t : string =>
              exists sel elem,
                sel ∈ tag_selectors /\ elem ∈ select sel s /\ t = get_text elem).
  assert (forall sels tags,
            (forall sel, sel ∈ sels -> sel ∈ tag_selectors) ->
            NoDup tags -> Forall (fun t => t <> "" /\ P t) tags ->
            NoDup (fold_left (fun tags sel => fold_left add (select sel s) tags)
                     sels tags)
            /\ Forall (fun t => t <> "" /\ P t)
                 (fold_left (fun tags sel => fold_left add (select sel s) tags)
                    sels tags)) as H.
  { induction sels as [|sel sels IH]; intros tags Hs Hnd Hne; simpl; [done|].
    destruct (add_tags_inv P (select sel s) tags) as [H1 H2]; [|done..|].
    - intros elem He. exists sel, elem. split_and!; [|done..].
      apply Hs. left.
    - apply IH; [|done..]. intros sel' Hs'. apply Hs. by right. }
  destruct (H tag_selectors []) as [H1 H2];
    [done|apply NoDup_nil_2|apply Forall_nil_2|].
  split_and!.
  - apply firstn_le_length.
  - eapply sublist_NoDup; [exact H1|apply sublist_take].
  - by apply Forall_take.
Qed.

End Extractor2.

Section Extractor3.
Import Bs4 ContentProcessor.

(** A text that starts with a character that is not whitespace. *)
Definition starts_solid (s : string) : Prop :=
  exists c t, s = String c t /\ Py.is_space c = false.

Lemma lstrip_head p (s : string) c t :
  Py.lstrip p s = String c t -> p c = false.
Proof.
  induction s as [|d s IH]; simpl; [discriminate|].
  destruct (p d) eqn:E; [done|]. by intros [= <- _].
Qed.

Lemma strip_solid (s : string) : Py.strip s <> "" -> starts_solid (Py.strip s).
Proof.
  unfold Py.strip. destruct (Py.lstrip Py.is_space s) as [|c t] eqn:E; [done|].
  intros _. apply lstrip_head in E.
  rewrite rstrip_cons_keep by done. by eexists _, _.
Qed.

Lemma starts_solid_app (a b : string) : starts_solid a -> starts_solid (a ++ b).
Proof. intros (c & t & -> & H). rewrite append_cons. by eexists _, _. Qed.

Lemma join_solid sep (l : list string) :
  Forall starts_solid l -> l <> [] -> starts_solid (Py.join sep l).
Proof.
  intros H Hne. destruct l as [|x l]; [done|]. apply Forall_cons in H as [Hx _].
  destruct l as [|y l]; [done|]. rewrite join_cons. by apply starts_solid_app.
Qed.

Lemma get_text_solid (n : node) : get_text n <> "" -> starts_solid (get_text n).
Proof.
  unfold get_text. intros Hne. apply join_solid.
  - apply Forall_forall. intros x Hx%list_elem_of_In.
    apply filter_In in Hx as [Hin Hx].
    apply in_map_iff in Hin as (y & <- & _).
    apply strip_solid. by apply nonempty_true.
  - intros E. by rewrite E in Hne.
Qed.

Lemma length_nonempty (s : string) : (0 < String.length s)%nat -> s <> "".
Proof. destruct s; simpl; [lia|done]. Qed.

Lemma length_append (a b : string) :
  String.length (a ++ b) = (String.length a + String.length b)%nat.
Proof. induction a as [|c a IH]; simpl; [done|]. by rewrite IH. Qed.

Lemma length_join_head sep (x : string) (l : list string) :
  (String.length x <= String.length (Py.join sep (x :: l)))%nat.
Proof.
  destruct l as [|y l]; [done|]. rewrite join_cons, length_append. lia.
Qed.

Lemma words_aux_nonempty (cur s : string) :
  cur <> "" -> Py.words_aux cur s <> [].
Proof.
  revert cur. induction s as [|c s IH]; intros cur Hc; simpl.
  - by destruct cur.
  - destruct (Py.is_space c).
    + by destruct cur.
    + apply IH. by destruct cur.
Qed.

Lemma words_solid (s : string) :
  starts_solid s -> (1 <= List.length (Py.words s))%nat.
Proof.
  intros (c & t & -> & H). unfold Py.words. simpl. rewrite H.
  pose proof (words_aux_nonempty (String c "") t ltac:(done)) as Hw.
  destruct (Py.words_aux _ t); [done|simpl; lia].
Qed.

Lemma by_selectors_some sels (s : soup) text :
  by_selectors sels s = Some text ->
  (200 < String.length text)%nat /\ exists elem, text = get_text elem.
Proof.
  induction sels as [|sel sels IH]; simpl; [discriminate|].
  destruct (select_one sel s) as [elem|]; [|done].
  destruct (200 <? String.length (get_text elem))%nat eqn:El; [|done].
  intros [= <-]. apply Nat.ltb_lt in El. eauto.
Qed.

(** The text that [_extract_main_content] returns has more than 50
    characters and starts with a character that is not whitespace. *)
Lemma extract_main_content_some (s : soup) text :
  _extract_main_content s = Some text ->
  (50 < String.length text)%nat /\ starts_solid text.
Proof.
  unfold _extract_main_content.
  destruct (by_selectors content_selectors s) as [t|] eqn:E1.
  { intros [= <-]. apply by_selectors_some in E1 as (Hl & elem & ->).
    split; [lia|]. apply get_text_solid, length_nonempty. lia. }
  destruct (content_blocks s) as [|b bs] eqn:E2.
  - destruct (find "body" s) as [body|]; [|discriminate].
    destruct (200 <? String.length (get_text body))%nat eqn:El; [|discriminate].
    intros [= <-]. apply Nat.ltb_lt in El.
    split; [lia|]. apply get_text_solid, length_nonempty. lia.
  - intros [= <-].
    assert (Forall (fun t => (50 < String.length t)%nat /\ starts_solid t)
              (b :: bs)) as Hb.
    { rewrite <- E2. unfold content_blocks. apply Forall_forall.
      intros x Hx%list_elem_of_In.
      apply filter_In in Hx as [Hin Hx]. apply Nat.ltb_lt in Hx.
      apply in_map_iff in Hin as (p & <- & _).
      split; [done|]. apply get_text_solid, length_nonempty. lia. }
    split.
    + apply Forall_cons in Hb as [[Hl _] _].
      destruct bs as [|y bs']; [lia|]. rewrite length_append. lia.
    + apply (join_solid " " (b :: bs)); [|done]. eapply Forall_impl; [exact Hb|]. by intros x [_ ?].
Qed.

Lemma first_text_some sels (s : soup) text :
  first_text sels s = Some text -> text <> "".
Proof.
  induction sels as [|sel sels IH]; simpl; [discriminate|].
  destruct (select_one sel s) as [elem|]; [|done].
  destruct (UrlParse.nonempty (get_text elem)) eqn:En; [|done].
  intros [= <-]. by apply nonempty_true.
Qed.

End Extractor3.

Section Cleaner.
Import Bs4 ContentProcessor.

Lemma node_rect' (P : node -> Prop) :
  (forall s, P (Text s)) -> (forall s, P (Comment s)) ->
  (forall nm attrs ch, Forall P ch -> P (Tag nm attrs ch)) ->
  forall n, P n.
Proof.
  intros HT HC HTag. fix IH 1. intros [s|s|nm attrs ch]; [apply HT|apply HC|].
  apply HTag. induction ch as [|c ch IHch]; constructor; [apply IH|apply IHch].
Qed.

(** A test that looks at the name and the attributes of a tag only. *)
Definition shallow (p : node -> bool) : Prop :=
  forall nm attrs ch ch', p (Tag nm attrs ch) = p (Tag nm attrs ch').

Definition same_head (n n' : node) : Prop :=
  exists nm attrs ch ch', n = Tag nm attrs ch /\ n' = Tag nm attrs ch'.

Lemma shallow_same_head p n n' : shallow p -> same_head n n' -> p n = p n'.
Proof. intros Hp (nm & attrs & ch & ch' & -> & ->). apply Hp. Qed.

Lemma elem_of_flat_map {A B} (f : A -> list B) (l : list A) (y : B) :
  y ∈ flat_map f l <-> exists x, x ∈ l /\ y ∈ f x.
Proof.
  rewrite list_elem_of_In, in_flat_map. split; intros (x & H1 & H2); exists x;
    by rewrite ?list_elem_of_In in *.
Qed.

(** Every tag of the pruned tree is a tag of the tree that the test let
    pass, with its name and attributes. *)
Lemma prune_tags p (n n' : node) :
  n' ∈ flat_map tags_of (prune p n) ->
  exists n0, n0 ∈ tags_of n /\ same_head n0 n' /\ p n0 = false.
Proof.
  revert n'. induction n as [s|s|nm attrs ch IH] using node_rect'; intros n';
    simpl; try (intros H; by apply elem_of_nil in H).
  destruct (p (Tag nm attrs ch)) eqn:Ep; simpl;
    [intros H; by apply elem_of_nil in H|].
  rewrite app_nil_r. intros [->|H]%elem_of_cons.
  - exists (Tag nm attrs ch). split_and!; [left| |done]. by eexists _, _, _, _.
  - apply elem_of_flat_map in H as (c' & Hc' & Hn').
    apply elem_of_flat_map in Hc' as (c & Hc & Hc').
    rewrite Forall_forall in IH.
    destruct (IH c Hc n') as (n0 & H0 & Hs & Hp).
    { apply elem_of_flat_map. by exists c'. }
    exists n0. split_and!; [|done..]. right.
    apply elem_of_flat_map. by exists c.
Qed.

Lemma decompose_all_tags p (s : soup) (n' : node) :
  n' ∈ descendants (decompose_all p s) ->
  exists n0, n0 ∈ descendants s /\ same_head n0 n' /\ p n0 = false.
Proof.
  unfold descendants, decompose_all. intros H.
  apply elem_of_flat_map in H as (c' & Hc' & Hn').
  apply elem_of_flat_map in Hc' as (c & Hc & Hc').
  destruct (prune_tags p c n') as (n0 & H0 & Hs & Hp).
  { apply elem_of_flat_map. by exists c'. }
  exists n0. split_and!; [|done..]. apply elem_of_flat_map. by exists c.
Qed.

Lemma drop_comments_tags (n n' : node) :
  n' ∈ flat_map tags_of (drop_comments n) ->
  exists n0, n0 ∈ tags_of n /\ same_head n0 n'.
Proof.
  revert n'. induction n as [s|s|nm attrs ch IH] using node_rect'; intros n';
    simpl; try (intros H; by apply elem_of_nil in H).
  rewrite app_nil_r. intros [->|H]%elem_of_cons.
  - exists (Tag nm attrs ch). split; [left|]. by eexists _, _, _, _.
  - apply elem_of_flat_map in H as (c' & Hc' & Hn').
    apply elem_of_flat_map in Hc' as (c & Hc & Hc').
    rewrite Forall_forall in IH.
    destruct (IH c Hc n') as (n0 & H0 & Hs).
    { apply elem_of_flat_map. by exists c'. }
    exists n0. split; [|done]. right. apply elem_of_flat_map. by exists c.
Qed.

Lemma drop_comments_descendants (s : soup) (n' : node) :
  n' ∈ descendants (flat_map drop_comments s) ->
  exists n0, n0 ∈ descendants s /\ same_head n0 n'.
Proof.
  unfold descendants. intros H.
  apply elem_of_flat_map in H as (c' & Hc' & Hn').
  apply elem_of_flat_map in Hc' as (c & Hc & Hc').
  destruct (drop_comments_tags c n') as (n0 & H0 & Hs).
  { apply elem_of_flat_map. by exists c'. }
  exists n0. split; [|done]. apply elem_of_flat_map. by exists c.
Qed.

Lemma same_head_trans (a b c : node) :
  same_head a b -> same_head b c -> same_head a c.
Proof.
  intros (nm & at1 & ch1 & ch2 & -> & ->) (nm' & at' & ch3 & ch4 & [= <- <- <-] & ->).
  by eexists _, _, _, _.
Qed.

(** The ad classes in the order of the loop, applied to a soup. *)
Lemma ad_loop_tags (cls : list string) (s : soup) (n' : node) :
  n' ∈ descendants
         (fold_left
            (fun s class_name =>
               decompose_all (class_matches (Re.lit_i class_name)) s) cls s) ->
  exists n0,
    n0 ∈ descendants s /\ same_head n0 n'
    /\ forall c, c ∈ cls -> class_matches (Re.lit_i c) n0 = false.
Proof.
  revert s. induction cls as [|c cls IH]; intros s; simpl.
  - intros H. exists n'. split_and!; [done| |by intros c Hc%elem_of_nil].
    unfold descendants in H. apply elem_of_flat_map in H as (x & _ & H).
    destruct x as [?|?|nm attrs ch]; simpl in H; try by apply elem_of_nil in H.
    apply elem_of_cons in H as [->|H]; [by eexists _, _, _, _|].
    apply elem_of_flat_map in H as (y & _ & H).
    clear -H. revert H. generalize y. clear y.
    induction y as [?|?|nm attrs ch IH] using node_rect'; simpl; intros H;
      try by apply elem_of_nil in H.
    apply elem_of_cons in H as [->|H]; [by eexists _, _, _, _|].
    apply elem_of_flat_map in H as (y & Hy & H). rewrite Forall_forall in IH.
    by apply (IH y).
  - intros H. destruct (IH _ H) as (n1 & H1 & Hs1 & Hc1).
    apply decompose_all_tags in H1 as (n0 & H0 & Hs0 & Hp0).
    exists n0. split_and!; [done|by apply (same_head_trans _ n1)|].
    intros c' [->|Hc']%elem_of_cons; [done|].
    rewrite (shallow_same_head _ n0 n1); [by apply Hc1| |done].
    intros nm attrs ch ch'. reflexivity.
Qed.

Lemma clean_html_tags (s : soup) (n' : node) :
  n' ∈ descendants (_clean_html s) ->
  Py.in_list (tag_name n')
    ["script"; "style"; "nav"; "header"; "footer"] = false
  /\ forall c, c ∈ ad_classes -> class_matches (Re.lit_i c) n' = false.
Proof.
  unfold _clean_html. intros H.
  apply ad_loop_tags in H as (n2 & H2 & Hs2 & Hc2).
  apply drop_comments_descendants in H2 as (n1 & H1 & Hs1).
  apply decompose_all_tags in H1 as (n0 & H0 & Hs0 & Hp0).
  split.
  - pose proof (same_head_trans _ _ _ Hs0 (same_head_trans _ _ _ Hs1 Hs2)) as Hs.
    destruct Hs as (nm & attrs & ch & ch' & -> & ->). exact Hp0.
  - intros c Hc. rewrite <- (shallow_same_head _ n2 n'); [by apply Hc2| |done].
    intros nm attrs ch ch'. reflexivity.
Qed.

(** Comments. *)
Lemma drop_comments_comments (n : node) :
  flat_map comments (drop_comments n) = [].
Proof.
  induction n as [s|s|nm attrs ch IH] using node_rect'; simpl; try done.
  rewrite app_nil_r. induction IH as [|c ch Hc _ IHch]; simpl; [done|].
  by rewrite flat_map_app, Hc, IHch.
Qed.

Lemma prune_no_comments p (n : node) :
  comments n = [] -> flat_map comments (prune p n) = [].
Proof.
  induction n as [s|s|nm attrs ch IH] using node_rect'; simpl; try done.
  intros H. destruct (p (Tag nm attrs ch)); simpl; [done|].
  rewrite app_nil_r. induction IH as [|c ch Hc _ IHch]; simpl in *; [done|].
  apply app_eq_nil in H as [H1 H2].
  by rewrite flat_map_app, Hc, IHch.
Qed.

Lemma flat_map_nil {A B} (f : A -> list B) (l : list A) :
  Forall (fun x => f x = []) l -> flat_map f l = [].
Proof. induction 1 as [|x l Hx _ IH]; simpl; [done|]. by rewrite Hx, IH. Qed.

Lemma flat_map_nil_inv {A B} (f : A -> list B) (l : list A) :
  flat_map f l = [] -> Forall (fun x => f x = []) l.
Proof.
  induction l as [|x l IH]; simpl; [constructor|].
  intros [H1 H2]%app_eq_nil. constructor; [done|by apply IH].
Qed.

Lemma decompose_all_no_comments p (s : soup) :
  flat_map comments s = [] -> flat_map comments (decompose_all p s) = [].
Proof.
  unfold decompose_all. intros H%flat_map_nil_inv.
  induction H as [|x l Hx _ IH]; simpl; [done|].
  by rewrite flat_map_app, prune_no_comments, IH.
Qed.

Lemma clean_html_comments (s : soup) : flat_map comments (_clean_html s) = [].
Proof.
  unfold _clean_html.
  generalize (decompose_all
       (fun n => Py.in_list (tag_name n)
                   ["script"; "style"; "nav"; "header"; "footer"]) s).
  intros s1.
  assert (flat_map comments (flat_map drop_comments s1) = []) as H.
  { induction s1 as [|x l IH]; simpl; [done|].
    by rewrite flat_map_app, drop_comments_comments, IH. }
  revert H. generalize (flat_map drop_comments s1). intros s2.
  generalize ad_classes. intros cls. revert s2.
  induction cls as [|c cls IH]; intros s2 H; simpl; [done|].
  apply IH. by apply decompose_all_no_comments.
Qed.

End Cleaner.

Section Cleaner2.
Import Bs4 ContentProcessor.

Lemma flat_map_singleton {A} (f : A -> list A) (l : list A) :
  Forall (fun x => f x = [x]) l -> flat_map f l = l.
Proof. induction 1 as [|x l Hx _ IH]; simpl; [done|]. by rewrite Hx, IH. Qed.

Lemma prune_id p (n : node) :
  (forall n', n' ∈ tags_of n -> p n' = false) -> prune p n = [n].
Proof.
  induction n as [s|s|nm attrs ch IH] using node_rect'; simpl; try done.
  intros H. rewrite (H (Tag nm attrs ch)) by left. do 2 f_equal.
  apply flat_map_singleton. rewrite Forall_forall in IH |- *.
  intros c Hc. apply IH; [done|]. intros n' Hn'. apply H. right.
  apply elem_of_flat_map. by exists c.
Qed.

Lemma decompose_all_id p (s : soup) :
  (forall n, n ∈ descendants s -> p n = false) -> decompose_all p s = s.
Proof.
  intros H. unfold decompose_all. apply flat_map_singleton.
  apply Forall_forall. intros c Hc. apply prune_id. intros n' Hn'. apply H.
  unfold descendants. apply elem_of_flat_map. by exists c.
Qed.

Lemma drop_comments_id (n : node) : comments n = [] -> drop_comments n = [n].
Proof.
  induction n as [s|s|nm attrs ch IH] using node_rect'; simpl; try done.
  intros H%flat_map_nil_inv. do 2 f_equal. apply flat_map_singleton.
  rewrite Forall_forall in IH, H |- *. intros c Hc. apply IH; [done|].
  by apply H.
Qed.

Lemma clean_html_idempotent (s : soup) : _clean_html (_clean_html s) = _clean_html s.
Proof.
  pose proof (clean_html_tags s) as Ht.
  pose proof (clean_html_comments s) as Hc.
  revert Ht Hc. generalize (_clean_html s). intros c Ht Hc.
  unfold _clean_html. rewrite decompose_all_id by (intros n Hn; by apply Ht).
  rewrite flat_map_singleton.
  2:{ apply flat_map_nil_inv in Hc. eapply Forall_impl; [exact Hc|].
      intros x Hx. by apply drop_comments_id. }
  assert (forall cls, (forall x, x ∈ cls -> x ∈ ad_classes) ->
            fold_left
              (fun s class_name =>
                 decompose_all (class_matches (Re.lit_i class_name)) s) cls c
            = c) as H.
  { induction cls as [|x cls IH]; intros Hcls; simpl; [done|].
    rewrite decompose_all_id.
    - apply IH. intros y Hy. apply Hcls. by right.
    - intros n Hn. apply Ht; [done|]. apply Hcls. left. }
  by apply H.
Qed.

End Cleaner2.

(** X13.  [_extract_tags] returns at most ten tags, no tag twice and no
    empty tag, and each of them is the stripped text of an element that
    one of the four tag selectors selects. *)
Theorem X13_extract_tags_distinct_nonempty_at_most_ten :
  forall s : Bs4.soup,
    (List.length (ContentProcessor._extract_tags s) <= 10)%nat
    /\ NoDup (ContentProcessor._extract_tags s)
    /\ Forall (fun t =>
                 t <> ""
                 /\ exists sel elem,
                      sel ∈ ContentProcessor.tag_selectors
                      /\ elem ∈ Bs4.select sel s
                      /\ t = Bs4.get_text elem)
         (ContentProcessor._extract_tags s).
Proof. exact extract_tags_spec. Qed.

(** X14.  Every document that [extract_content] returns carries the URL
    it was given, a content of more than 50 characters that does not
    start with whitespace, a word count of at least one that is the
    number of whitespace-separated words of the content, a reading time
    of at least one minute, an author that is not the empty string, and
    at most ten tags. *)
Theorem X14_extracted_document_fields :
  forall (L : ContentProcessor.Libs) (u : string) (s : Bs4.soup)
         (d : ContentProcessor.Document),
    (ContentProcessor.extract_content L u s).2 = Some d ->
    ContentProcessor.url d = u
    /\ (50 < String.length (ContentProcessor.content d))%nat
    /\ (exists c t,
          ContentProcessor.content d = String c t /\ Py.is_space c = false)
    /\ ContentProcessor.word_count d
       = List.length (Py.words (ContentProcessor.content d))
    /\ (1 <= ContentProcessor.word_count d)%nat
    /\ (1 <= ContentProcessor.reading_time d)%nat
    /\ ContentProcessor.author d <> Some ""
    /\ (List.length (ContentProcessor.tags d) <= 10)%nat.
Proof.
  intros L u s d. unfold ContentProcessor.extract_content.
  destruct (ContentProcessor._extract_main_content _) as [text|] eqn:E;
    [|discriminate].
  apply extract_main_content_some in E as [Hlen Hsolid].
  pose proof (words_solid text Hsolid) as Hw.
  destruct text as [|c text]; [discriminate|].
  intros [= <-]. simpl. split_and!; try done; try lia.
  - intros Ha. unfold ContentProcessor._extract_author in Ha.
    by apply first_text_some in Ha.
  - unfold ContentProcessor._extract_tags. apply firstn_le_length.
Qed.

Lemma X14_extracted_document_fields_witness :
  (ContentProcessor.extract_content Examples.libs0 Examples.url_a
     Examples.article_page).2 = Some Examples.article_doc
  /\ (50 < String.length (ContentProcessor.content Examples.article_doc))%nat.
Proof.
  assert ((ContentProcessor.extract_content Examples.libs0 Examples.url_a
             Examples.article_page).2 = Some Examples.article_doc) as H
    by (vm_compute; reflexivity).
  split; [exact H|].
  exact (proj1 (proj2 (X14_extracted_document_fields Examples.libs0
                         Examples.url_a Examples.article_page
                         Examples.article_doc H))).
Defined.

(** X15.  After [_clean_html] the tree has no [script], [style], [nav],
    [header] or [footer] tag, no tag whose class attribute matches one of
    the ad patterns ([ad], [advertisement], [social-share],
    [related-posts], without regard to case), and no comment. *)
Theorem X15_clean_html_removes_unwanted :
  forall s : Bs4.soup,
    Forall (fun n =>
              Py.in_list (Bs4.tag_name n)
                ["script"; "style"; "nav"; "header"; "footer"] = false
              /\ forall c, c ∈ ContentProcessor.ad_classes ->
                           Bs4.class_matches (Re.lit_i c) n = false)
      (Bs4.descendants (ContentProcessor._clean_html s))
    /\ flat_map Bs4.comments (ContentProcessor._clean_html s) = [].
Proof.
  intros s. split; [|apply clean_html_comments].
  apply Forall_forall. intros n Hn. by apply (clean_html_tags s).
Qed.

(** X16.  Cleaning a cleaned tree changes nothing.  The soup that
    [extract_content] leaves behind is the cleaned tree, and a later
    [extract_content] on that soup, for any URL and at any time (with
    another clock reading), returns what it would return on the soup as
    it was parsed. *)
Theorem X16_extract_content_stable_on_cleaned_tree :
  forall (L L' : ContentProcessor.Libs) (u u' : string) (s : Bs4.soup),
    ContentProcessor._clean_html (ContentProcessor._clean_html s)
    = ContentProcessor._clean_html s
    /\ (ContentProcessor.extract_content L u s).1
       = ContentProcessor._clean_html s
    /\ ContentProcessor.extract_content L' u'
         (ContentProcessor.extract_content L u s).1
       = ContentProcessor.extract_content L' u' s.
Proof.
  intros L L' u u' s. split; [apply clean_html_idempotent|].
  assert ((ContentProcessor.extract_content L u s).1
          = ContentProcessor._clean_html s) as ->.
  { unfold ContentProcessor.extract_content.
    by destruct (ContentProcessor._extract_main_content _) as [[|c t]|]. }
  split; [done|].
  unfold ContentProcessor.extract_content. by rewrite clean_html_idempotent.
Qed.

(* ===================================================================== *)
(** * The URL helpers: the shape of a normal form *)
(* ===================================================================== *)

Section Helpers2.
Import Py UrlParse Helpers.

Lemma filter_query_fixed (q : string) :
  filter_query q = q ->
  q = "" \/ Forall (fun x => keep_param x = true) (split "&" q).
Proof.
  unfold filter_query. destruct (nonempty q) eqn:En; [|by left].
  intros H. right.
  pose proof (split_no_sep "&" q) as Hsep.
  destruct (filter_Forall keep_param _ _ Hsep) as [Hk Hs].
  destruct (List.filter keep_param (split "&" q)) as [|x K] eqn:EK.
  - simpl in H. subst q. discriminate.
  - rewrite <- H at 1. rewrite (split_join "&" (x :: K)); done.
Qed.

Lemma lower_nonempty (s : string) : nonempty (lower s) = nonempty s.
Proof. by destruct s. Qed.

Lemma is_same_domain_hosts (u v : string) ru rv :
  urlparse u = Some ru -> urlparse v = Some rv ->
  netloc ru <> "" -> netloc rv = netloc ru ->
  is_same_domain u v = true.
Proof.
  intros Hu Hv Hn He. unfold is_same_domain, extract_domain.
  rewrite Hu, Hv, He, lower_nonempty.
  rewrite (proj2 (nonempty_true _) Hn). simpl. apply String.eqb_refl.
Qed.

End Helpers2.

(** X17.  For a URL that parses with a non-empty host and holds no
    semicolon, the normal form parses again: with the scheme and the host
    of the URL, without parameters and without fragment, with a query in
    which every parameter has an [=] and a key that is not a tracking
    key; it does not end with a slash, and it is in the same domain as
    the URL. *)
Theorem X17_normalized_url_shape :
  forall (u : string) (r : UrlParse.ParseResult),
    UrlParse.urlparse u = Some r ->
    UrlParse.netloc r <> "" ->
    Py.mem ";" u = false ->
    exists r',
      UrlParse.urlparse (Helpers.normalize_url u) = Some r'
      /\ UrlParse.scheme r' = UrlParse.scheme r
      /\ UrlParse.netloc r' = UrlParse.netloc r
      /\ UrlParse.params r' = ""
      /\ UrlParse.fragment r' = ""
      /\ (UrlParse.query r' = ""
          \/ Forall (fun param => Helpers.keep_param param = true)
               (Py.split "&" (UrlParse.query r')))
      /\ Py.rstrip Helpers.is_slash (Helpers.normalize_url u)
         = Helpers.normalize_url u
      /\ Helpers.is_same_domain u (Helpers.normalize_url u) = true.
Proof.
  intros u r Hp Hn Hsemi.
  destruct (normalize_shape_host u r Hp Hn Hsemi)
    as (r' & Hc & Hq & Hu & Hs & Hh).
  pose proof (urlparse_canonical r' Hc) as Hp'. rewrite <- Hu in Hp'.
  exists r'. split_and!; try done.
  - by destruct Hc as (_ & _ & _ & ? & _).
  - by destruct Hc as (_ & _ & _ & _ & _ & ?).
  - by apply filter_query_fixed.
  - by apply (normalize_rstrip u r).
  - by apply (is_same_domain_hosts u _ r r').
Qed.

Lemma X17_normalized_url_shape_witness :
  UrlParse.urlparse Examples.tracked_url = Some Examples.tracked_parse
  /\ UrlParse.netloc Examples.tracked_parse <> ""
  /\ Py.mem ";" Examples.tracked_url = false
  /\ exists r',
       UrlParse.urlparse (Helpers.normalize_url Examples.tracked_url) = Some r'
       /\ UrlParse.scheme r' = UrlParse.scheme Examples.tracked_parse.
Proof.
  assert (UrlParse.urlparse Examples.tracked_url = Some Examples.tracked_parse)
    as H1 by (vm_compute; reflexivity).
  assert (UrlParse.netloc Examples.tracked_parse <> "") as H2 by discriminate.
  assert (Py.mem ";" Examples.tracked_url = false) as H3
    by (vm_compute; reflexivity).
  split; [exact H1|]. split; [exact H2|]. split; [exact H3|].
  destruct (X17_normalized_url_shape Examples.tracked_url
              Examples.tracked_parse H1 H2 H3) as (r' & Ha & Hb & _).
  exists r'. split; [exact Ha|exact Hb].
Defined.

(* ===================================================================== *)
(** * The text helpers *)
(* ===================================================================== *)

Section CleanText.
Import Py UrlParse Helpers.

Lemma space_lower c : is_space (lower_char c) = is_space c.
Proof. by_cases c. Qed.

Lemma kept_lower c : is_kept (lower_char c) = is_kept c.
Proof. by_cases c. Qed.

Lemma lower_space c : is_space c = true -> lower_char c = c.
Proof. by_cases c. Qed.

Lemma space_kept c : is_space c = true -> is_kept c = true.
Proof. by_cases c. Qed.

(** The only whitespace [collapse_ws] leaves is the space. *)
Definition plain_space (c : ascii) : bool :=
  negb (is_space c) || Ascii.eqb c " ".

Lemma collapse_ws_plain (s : string) : all_chars plain_space (collapse_ws s) = true.
Proof.
  induction s as [|c s IH]; [done|]. simpl.
  destruct (is_space c) eqn:Ec.
  - destruct s as [|d s']; [done|].
    destruct (is_space d) eqn:Ed; [done|].
    change (all_chars plain_space (String " " (collapse_ws (String d s'))) = true).
    simpl in IH |- *. by rewrite Ed in IH |- *.
  - simpl. unfold plain_space at 1. by rewrite Ec.
Qed.

Lemma lower_collapse_ws (s : string) : lower (collapse_ws s) = collapse_ws (lower s).
Proof.
  induction s as [|c s IH]; [done|].
  cbn [collapse_ws lower]. rewrite space_lower.
  destruct (is_space c) eqn:Ec.
  - destruct s as [|d s']; [done|]. cbn [lower]. rewrite space_lower.
    destruct (is_space d) eqn:Ed; [exact IH|].
    cbn [lower]. f_equal. exact IH.
  - cbn [lower]. f_equal. exact IH.
Qed.

Lemma lower_remove p (s : string) :
  (forall c, p (lower_char c) = p c) ->
  lower (remove p s) = remove p (lower s).
Proof.
  intros Hp. induction s as [|c s IH]; [done|]. cbn [remove lower].
  rewrite Hp. destruct (p c); [done|]. cbn [lower]. by rewrite IH.
Qed.

Lemma lower_lstrip p (s : string) :
  (forall c, p (lower_char c) = p c) ->
  lower (lstrip p s) = lstrip p (lower s).
Proof.
  intros Hp. induction s as [|c s IH]; [done|]. cbn [lstrip lower].
  rewrite Hp. by destruct (p c).
Qed.

Lemma lower_rstrip p (s : string) :
  (forall c, p (lower_char c) = p c) ->
  lower (rstrip p s) = rstrip p (lower s).
Proof.
  intros Hp. induction s as [|c s IH]; [done|]. cbn [rstrip lower].
  rewrite <- IH, Hp. destruct (rstrip p s); cbn [lower]; [|done].
  by destruct (p c).
Qed.

Lemma lower_clean_text (s : string) : lower (clean_text s) = clean_text (lower s).
Proof.
  unfold clean_text. rewrite lower_nonempty.
  destruct (nonempty s); [|done]. cbn [negb]. unfold strip.
  rewrite lower_rstrip by apply space_lower.
  rewrite lower_lstrip by apply space_lower.
  rewrite lower_remove by (intros c; by rewrite kept_lower).
  by rewrite lower_collapse_ws.
Qed.

Lemma lstrip_id p (s : string) c t :
  s = String c t -> p c = false -> lstrip p s = s.
Proof. intros -> H. simpl. by rewrite H. Qed.

Lemma strip_idem (s : string) : strip (strip s) = strip s.
Proof.
  unfold strip. destruct (lstrip is_space s) as [|c t] eqn:E; [done|].
  pose proof (lstrip_head _ _ _ _ E) as Hc.
  rewrite rstrip_cons_keep by done.
  rewrite (lstrip_id _ _ c (rstrip is_space t)) by done.
  rewrite <- (rstrip_cons_keep is_space c t) by done. apply rstrip_idem.
Qed.

Lemma clean_text_chars (s : string) :
  all_chars (fun c => is_kept c && plain_space c) (clean_text s) = true.
Proof.
  unfold clean_text. destruct (nonempty s); [|done]. cbn [negb]. unfold strip.
  apply all_chars_rstrip, all_chars_lstrip.
  assert (forall p q (x : string),
            all_chars p x = true -> all_chars q x = true ->
            all_chars (fun c => p c && q c) x = true) as Hand.
  { intros p q x. induction x as [|c x IH]; [done|]. simpl.
    intros [-> ?]%andb_true_iff [-> ?]%andb_true_iff. by apply IH. }
  apply Hand.
  - apply (all_chars_impl (fun c => negb (negb (is_kept c))));
      [intros c; by destruct (is_kept c)|].
    apply (all_chars_remove (fun c => negb (is_kept c))).
  - apply all_chars_remove_keeps, collapse_ws_plain.
Qed.

End CleanText.

(** X18.  The text [clean_text] returns holds only word characters,
    spaces and the punctuation [.,!?;:()-] and the double quote; its only
    whitespace is the space character; and it has no whitespace at its
    start or its end (stripping it again changes nothing). *)
Theorem X18_clean_text_output :
  forall text : string,
    Py.all_chars
      (fun c =>
         (Py.is_word c || Ascii.eqb c " " || Py.mem c ".,!?;:()-"
          || (Py.code c =? 34)%nat))
      (Helpers.clean_text text) = true
    /\ Py.strip (Helpers.clean_text text) = Helpers.clean_text text.
Proof.
  intros text. split.
  - eapply all_chars_impl; [|apply clean_text_chars].
    intros c. unfold Helpers.is_kept, plain_space. by_cases c.
  - unfold Helpers.clean_text.
    destruct (UrlParse.nonempty text); [|done]. apply strip_idem.
Qed.

(** X19.  On ASCII texts [generate_content_hash] takes no account of
    case: two texts of ASCII characters that are equal after lowering
    have the same hash.  (Beyond ASCII, lowering and the character
    classes of the cleaning follow Unicode, and the property fails.) *)
Theorem X19_content_hash_ignores_case :
  forall a b : string,
    Py.all_chars (fun c => (Py.code c <? 128)%nat) a = true ->
    Py.all_chars (fun c => (Py.code c <? 128)%nat) b = true ->
    Py.lower a = Py.lower b ->
    Helpers.generate_content_hash a = Helpers.generate_content_hash b.
Proof.
  intros a b _ _ H. unfold Helpers.generate_content_hash.
  rewrite <- (lower_nonempty a), <- (lower_nonempty b), H.
  by rewrite !lower_clean_text, H.
Qed.

Lemma X19_content_hash_ignores_case_witness :
  Py.all_chars (fun c => (Py.code c <? 128)%nat) "Hello,  World" = true
  /\ Py.all_chars (fun c => (Py.code c <? 128)%nat) "hELLO,  wORLD" = true
  /\ Py.lower "Hello,  World" = Py.lower "hELLO,  wORLD"
  /\ Helpers.generate_content_hash "Hello,  World"
     = Helpers.generate_content_hash "hELLO,  wORLD".
Proof.
  assert (Py.all_chars (fun c => (Py.code c <? 128)%nat) "Hello,  World"
          = true) as Ha by (vm_compute; reflexivity).
  assert (Py.all_chars (fun c => (Py.code c <? 128)%nat) "hELLO,  wORLD"
          = true) as Hb by (vm_compute; reflexivity).
  assert (Py.lower "Hello,  World" = Py.lower "hELLO,  wORLD") as H
    by (vm_compute; reflexivity).
  split; [exact Ha|]. split; [exact Hb|]. split; [exact H|].
  exact (X19_content_hash_ignores_case "Hello,  World" "hELLO,  wORLD"
           Ha Hb H).
Defined.

(* ===================================================================== *)
(** * The crawl rules of the helpers *)
(* ===================================================================== *)

Section Rules.
Import Py UrlParse Helpers.

Lemma is_valid_url_parses (u : string) :
  is_valid_url u = true -> exists r, urlparse u = Some r.
Proof. intros (r & H & _)%is_valid_url_host. by exists r. Qed.

Lemma extract_domain_lower (u d : string) :
  extract_domain u = Some d -> lower d = d.
Proof.
  unfold extract_domain. destruct (urlparse u); [|discriminate].
  intros [= <-]. apply lower_idem.
Qed.

End Rules.

(** X20.  With a non-empty list of useful patterns, the crawler's link
    filter accepts exactly the URLs that [should_crawl_url] accepts with
    these patterns as the allowed ones (no seed domains, nothing blocked)
    and whose path does not end with an excluded extension.  With an
    empty list the two differ: [should_crawl_url] then accepts every
    valid URL, the crawler's filter none. *)
Theorem X20_crawl_filter_is_should_crawl_without_extensions :
  forall (cfg : Config.CrawlerConfig) (u : string),
    (Config.USEFUL_URL_PATTERNS cfg <> [] ->
     WebCrawler._is_valid_crawl_url cfg u
     = Helpers.should_crawl_url u [] (Config.USEFUL_URL_PATTERNS cfg) []
       && negb (WebCrawler.excluded_extension cfg u))
    /\ (Config.USEFUL_URL_PATTERNS cfg = [] ->
        WebCrawler._is_valid_crawl_url cfg u = false
        /\ Helpers.should_crawl_url u [] (Config.USEFUL_URL_PATTERNS cfg) []
           = Helpers.is_valid_url u).
Proof.
  intros cfg u.
  unfold WebCrawler._is_valid_crawl_url, Helpers.should_crawl_url,
    WebCrawler.excluded_extension.
  destruct (Helpers.is_valid_url u) eqn:Ev; simpl.
  - apply is_valid_url_parses in Ev as [r ->].
    destruct (Config.USEFUL_URL_PATTERNS cfg) as [|p ps] eqn:Ep.
    + split; [done|]. intros _. by destruct (existsb _ _).
    + split; [|done]. intros _.
      destruct (existsb _ (Config.EXCLUDED_EXTENSIONS cfg)); simpl;
        by rewrite ?andb_false_r, ?andb_true_r.
  - done.
Qed.

(** X21.  [should_crawl_url] rejects every URL that a blocked pattern
    matches, whatever the allowed patterns are; and since the domain of
    the URL is compared in lower case, a list of seed domains none of
    which is in lower case rejects every URL. *)
Theorem X21_should_crawl_url_block_and_seed_rules :
  forall (u : string) (seed_domains : list string)
         (allowed_patterns blocked_patterns : list Re.re),
    (forall pattern,
       pattern ∈ blocked_patterns -> Re.search pattern u = true ->
       Helpers.should_crawl_url u seed_domains allowed_patterns
         blocked_patterns = false)
    /\ (seed_domains <> [] ->
        (forall d, d ∈ seed_domains -> Py.lower d <> d) ->
        Helpers.should_crawl_url u seed_domains allowed_patterns
          blocked_patterns = false).
Proof.
  intros u seeds allowed blocked. unfold Helpers.should_crawl_url. split.
  - intros p Hp Hs.
    destruct (negb (Helpers.is_valid_url u)); [done|].
    destruct (match seeds with [] => false | _ => _ end); [done|].
    assert (existsb (fun pattern => Re.search pattern u) blocked = true) as ->;
      [|done].
    apply existsb_exists. exists p. split; [by apply list_elem_of_In|done].
  - intros Hne Hl. destruct (negb (Helpers.is_valid_url u)); [done|].
    destruct seeds as [|s0 seeds]; [done|].
    destruct (Helpers.extract_domain u) as [d|] eqn:Ed; [|done].
    destruct (Py.in_list d (s0 :: seeds)) eqn:Ei; [|done].
    apply in_list_true in Ei. apply extract_domain_lower in Ed.
    by apply Hl in Ei.
Qed.

(** X22.  [is_same_domain] is symmetric and transitive, and a URL is in
    the same domain as itself exactly when [urlparse] gives it a host that
    is not empty; the hosts are compared without regard to case. *)
Theorem X22_is_same_domain_partial_equivalence :
  forall a b c : string,
    Helpers.is_same_domain a b = Helpers.is_same_domain b a
    /\ (Helpers.is_same_domain a b = true ->
        Helpers.is_same_domain b c = true ->
        Helpers.is_same_domain a c = true)
    /\ (Helpers.is_same_domain a a = true
        <-> exists r, UrlParse.urlparse a = Some r /\ UrlParse.netloc r <> "")
    /\ (Helpers.is_same_domain a b = true
        <-> exists ra rb,
              UrlParse.urlparse a = Some ra /\ UrlParse.urlparse b = Some rb
              /\ UrlParse.netloc ra <> ""
              /\ Py.lower (UrlParse.netloc ra) = Py.lower (UrlParse.netloc rb)).
Proof.
  intros a b c.
  assert (forall x y,
            Helpers.is_same_domain x y = true
            <-> exists rx ry,
                  UrlParse.urlparse x = Some rx /\ UrlParse.urlparse y = Some ry
                  /\ UrlParse.netloc rx <> ""
                  /\ Py.lower (UrlParse.netloc rx) = Py.lower (UrlParse.netloc ry))
    as Hiff.
  { intros x y. unfold Helpers.is_same_domain, Helpers.extract_domain.
    destruct (UrlParse.urlparse x) as [rx|]; [|split; [done|by intros (?&?&?&_)]].
    destruct (UrlParse.urlparse y) as [ry|]; [|split; [done|by intros (?&?&?&?&_)]].
    rewrite !lower_nonempty. split.
    - destruct (UrlParse.nonempty (UrlParse.netloc rx)) eqn:Ex; [|done].
      destruct (UrlParse.nonempty (UrlParse.netloc ry)) eqn:Ey; [|done].
      simpl. intros H%String.eqb_eq. exists rx, ry.
      split_and!; [done..| |done]. by apply nonempty_true.
    - intros (rx' & ry' & [= <-] & [= <-] & Hn & He).
      assert (UrlParse.netloc ry <> "") as Hn'.
      { intros E. rewrite E in He. by destruct (UrlParse.netloc rx). }
      rewrite (proj2 (nonempty_true _) Hn), (proj2 (nonempty_true _) Hn').
      simpl. by apply String.eqb_eq. }
  split_and!.
  - destruct (Helpers.is_same_domain a b) eqn:E1,
      (Helpers.is_same_domain b a) eqn:E2; try done.
    + apply Hiff in E1 as (ra & rb & H1 & H2 & Hn & He).
      assert (Helpers.is_same_domain b a = true); [|congruence].
      apply Hiff. exists rb, ra. split_and!; try done.
      intros E. rewrite E in He. by destruct (UrlParse.netloc ra).
    + apply Hiff in E2 as (rb & ra & H1 & H2 & Hn & He).
      assert (Helpers.is_same_domain a b = true); [|congruence].
      apply Hiff. exists ra, rb. split_and!; try done.
      intros E. rewrite E in He. by destruct (UrlParse.netloc rb).
  - intros (ra & rb & H1 & H2 & Hn & He)%Hiff
           (rb' & rc & H2' & H3 & Hn' & He')%Hiff.
    apply Hiff. exists ra, rc. split_and!; try done.
    rewrite He. congruence.
  - rewrite Hiff. split.
    + intros (ra & _ & H1 & _ & Hn & _). by exists ra.
    + intros (ra & H1 & Hn). by exists ra, ra.
  - apply Hiff.
Qed.

Local Open Scope string_scope.

Section Truncate.
Import Py UrlParse Helpers.

Lemma take_length (n : nat) (s : string) :
  String.length (Py.take n s) = Nat.min n (String.length s).
Proof.
  revert s. induction n as [|n IH]; intros [|c s]; simpl; try done.
  by rewrite IH.
Qed.

Lemma take_rest (n : nat) (s : string) : exists rest, s = Py.take n s ++ rest.
Proof.
  revert s. induction n as [|n IH]; intros [|c s]; simpl;
    try (by eexists; rewrite ?append_nil_l).
  destruct (IH s) as [rest Hr]. exists rest. by rewrite append_cons, <- Hr.
Qed.

Lemma take_app_exact (a b : string) : Py.take (String.length a) (a ++ b) = a.
Proof.
  induction a as [|c a IH]; simpl.
  - by destruct b.
  - by rewrite IH.
Qed.

Lemma rfind_some (c : ascii) (s : string) (i : nat) :
  rfind c s = Some i ->
  exists a b, s = a ++ String c b /\ String.length a = i /\ mem c b = false.
Proof.
  revert i. induction s as [|d s IH]; intros i; simpl; [discriminate|].
  destruct (rfind c s) as [j|] eqn:E.
  - intros [= <-]. destruct (IH j eq_refl) as (a & b & -> & Hl & Hm).
    exists (String d a), b. split_and!; [done|simpl; by rewrite Hl|done].
  - destruct (Ascii.eqb_spec c d) as [->|Hne]; [|discriminate].
    intros [= <-]. exists "", s. split_and!; [done..|].
    clear IH. induction s as [|e s IH]; simpl in *; [done|].
    destruct (rfind d s) as [j|]; [discriminate|].
    destruct (Ascii.eqb_spec d e); [discriminate|]. simpl. by apply IH.
Qed.

Lemma truncate_text_long (text suffix : string) (max_length : nat) :
  (max_length < String.length text)%nat ->
  exists pre rest,
    text = pre ++ rest
    /\ truncate_text text max_length suffix = pre ++ suffix
    /\ (String.length pre = max_length
        \/ ((0 < String.length pre < max_length)%nat
            /\ exists rest', rest = String " " rest')).
Proof.
  intros Hlen. unfold truncate_text.
  assert (nonempty text = true) as -> by (destruct text; [simpl in Hlen; lia|done]).
  assert ((String.length text <=? max_length)%nat = false) as ->
    by (apply Nat.leb_gt; lia).
  cbn [negb orb].
  destruct (take_rest max_length text) as [rest1 Ht].
  pose proof (take_length max_length text) as Htl.
  destruct (rfind " " (Py.take max_length text)) as [[|k]|] eqn:Er.
  - exists (Py.take max_length text), rest1. split_and!; [done..|]. left. lia.
  - apply rfind_some in Er as (a & b & Ea & Hl & _).
    exists a, (String " " (b ++ rest1)). split_and!.
    + rewrite Ht at 1. rewrite Ea. by rewrite append_assoc, append_cons.
    + rewrite Ea, <- Hl. by rewrite take_app_exact.
    + right. split; [|by eexists].
      assert (String.length (Py.take max_length text)
              = (String.length a + S (String.length b))%nat) as Hsum.
      { rewrite Ea, length_append. done. }
      lia.
  - exists (Py.take max_length text), rest1. split_and!; [done..|]. left. lia.
Qed.

End Truncate.

(** X23.  [truncate_text] returns a text of at most [max_length]
    characters as it is.  A longer text is cut and the suffix is put
    after the cut: the cut is at [max_length], or earlier and then just
    before a space, and never at the very start; so the result has at
    most [max_length] characters before the suffix. *)
Theorem X23_truncate_text_cuts_at_space_or_limit :
  forall (text suffix : string) (max_length : nat),
    ((String.length text <= max_length)%nat ->
     Helpers.truncate_text text max_length suffix = text)
    /\ ((max_length < String.length text)%nat ->
        exists pre rest,
          text = pre ++ rest
          /\ Helpers.truncate_text text max_length suffix = pre ++ suffix
          /\ (String.length pre = max_length
              \/ ((0 < String.length pre < max_length)%nat
                  /\ exists rest', rest = String " " rest'))).
Proof.
  intros text suffix max_length. split; [|apply truncate_text_long].
  intros H. unfold Helpers.truncate_text.
  apply Nat.leb_le in H. rewrite H. by rewrite orb_true_r.
Qed.

Local Open Scope list_scope.

(* ===================================================================== *)
(** * Keywords *)
(* ===================================================================== *)

Section Keywords.
Import Py UrlParse Helpers.

(** The test of the counting loop. *)
Definition counted (w : string) : bool :=
  negb (in_list w stop_words) && (3 <? String.length w)%nat.

Local Abbreviation occ ws w := (count_occ string_dec ws w).

Lemma bump_word_keys (w : string) (f : list (string * nat)) :
  (bump_word w f).*1 = if in_list w (f.*1) then f.*1 else f.*1 ++ [w].
Proof.
  induction f as [|[w' n] f IH]; [done|].
  unfold in_list in *. cbn [bump_word fmap list_fmap existsb fst].
  destruct (String.eqb w w') eqn:E; [done|]. cbn [orb fmap list_fmap fst].
  rewrite IH. by destruct (existsb _ _).
Qed.

Lemma bump_word_elem (w : string) (f : list (string * nat)) x n :
  NoDup (f.*1) -> (x, n) ∈ bump_word w f ->
  (x <> w /\ (x, n) ∈ f)
  \/ (x = w /\ ((exists m, n = S m /\ (w, m) ∈ f) \/ (n = 1%nat /\ w ∉ f.*1))).
Proof.
  induction f as [|[w' m] f IH]; intros Hnd; cbn [bump_word].
  - intros H%list_elem_of_singleton. injection H as -> ->. right. split; [done|]. right.
    split; [done|]. apply not_elem_of_nil.
  - apply NoDup_cons in Hnd as [Hw' Hnd].
    destruct (String.eqb_spec w w') as [<-|Hne].
    + intros [[= -> ->]|H]%elem_of_cons.
      * right. split; [done|]. left. exists m. split; [done|left].
      * left. split; [|by right]. intros ->. apply Hw'.
        apply list_elem_of_fmap. by exists (w, n).
    + intros [[= -> ->]|H]%elem_of_cons.
      * left. split; [done|left].
      * destruct (IH Hnd H) as [[H1 H2]|[-> [(k & -> & H2)|[-> H2]]]].
        -- left. split; [done|by right].
        -- right. split; [done|]. left. exists k. split; [done|by right].
        -- right. split; [done|]. right. split; [done|].
           intros [E|E]%elem_of_cons; [by apply Hne|done].
Qed.

Lemma count_occ_snoc (ws : list string) (w x : string) :
  occ (ws ++ [w]) x = (occ ws x + if string_dec w x then 1 else 0)%nat.
Proof. rewrite count_occ_app. simpl. by destruct (string_dec w x). Qed.

(** What the counting loop keeps: one entry for each counted word seen
    so far, with the number of times it was seen. *)
Definition counts_of (seen : list string) (f : list (string * nat)) : Prop :=
  NoDup (f.*1)
  /\ (forall x n, (x, n) ∈ f -> counted x = true /\ n = occ seen x /\ (1 <= n)%nat)
  /\ (forall x, x ∈ seen -> counted x = true -> x ∈ f.*1).

Lemma counts_of_step (seen : list string) f (w : string) :
  counts_of seen f ->
  counts_of (seen ++ [w]) (if counted w then bump_word w f else f).
Proof.
  intros (Hnd & Hf & Hk). destruct (counted w) eqn:Ew.
  - split_and!.
    + rewrite bump_word_keys. destruct (in_list w f.*1) eqn:Ei; [done|].
      apply NoDup_app. split_and!; [done| |apply NoDup_singleton].
      intros x Hx Hx'%list_elem_of_singleton. subst x.
      by apply in_list_false in Ei.
    + intros x n Hx. rewrite count_occ_snoc.
      apply (bump_word_elem w f x n Hnd) in Hx
        as [[Hne Hx]|[-> [(m & -> & Hx)|[-> Hx]]]].
      * destruct (Hf x n Hx) as (? & ? & ?).
        destruct (string_dec w x); [congruence|]. split_and!; [done|lia|done].
      * destruct (Hf w m Hx) as (? & ? & ?).
        destruct (string_dec w w); [|done]. split_and!; [done|lia|lia].
      * destruct (string_dec w w); [|done]. split_and!; [done| |lia].
        assert (occ seen w = 0%nat) as ->; [|done].
        apply count_occ_not_In. intros Hin%list_elem_of_In. by apply Hx, Hk.
    + intros x [Hx|Hx%list_elem_of_singleton]%elem_of_app Hc; [|subst x];
        rewrite bump_word_keys; destruct (in_list w f.*1) eqn:Ei.
      * by apply Hk.
      * apply elem_of_app. left. by apply Hk.
      * by apply in_list_true.
      * apply elem_of_app. right. left.
  - split_and!; [done| |].
    + intros x n Hx. destruct (Hf x n Hx) as (? & ? & ?).
      rewrite count_occ_snoc. destruct (string_dec w x); [congruence|].
      split_and!; [done|lia|done].
    + intros x [Hx|Hx%list_elem_of_singleton]%elem_of_app Hc; [by apply Hk|].
      congruence.
Qed.

Lemma counts_of_loop (ws seen : list string) f :
  counts_of seen f ->
  counts_of (seen ++ ws)
    (fold_left (fun f w => if counted w then bump_word w f else f) ws f).
Proof.
  revert seen f. induction ws as [|w ws IH]; intros seen f H; simpl.
  - by rewrite app_nil_r.
  - rewrite (cons_middle w seen ws), app_assoc. apply IH.
    by apply counts_of_step.
Qed.

Lemma count_words_spec (ws : list string) : counts_of ws (count_words ws).
Proof.
  apply (counts_of_loop ws [] []). split_and!.
  - apply NoDup_nil_2.
  - intros x n H. by apply elem_of_nil in H.
  - intros x H. by apply elem_of_nil in H.
Qed.

(** The sort. *)
Lemma insert_by_freq_perm (x : string * nat) l : insert_by_freq x l ≡ₚ x :: l.
Proof.
  induction l as [|h l IH]; simpl; [done|].
  destruct (snd h <? snd x)%nat; [done|]. rewrite IH. apply Permutation_swap.
Qed.

Lemma insert_by_freq_sorted (x : string * nat) l :
  StronglySorted (fun a b => (snd b <= snd a)%nat) l ->
  StronglySorted (fun a b => (snd b <= snd a)%nat) (insert_by_freq x l).
Proof.
  induction 1 as [|h l Hs IH Hh]; simpl.
  - apply SSorted_cons; [apply SSorted_nil|apply Forall_nil_2].
  - destruct (snd h <? snd x)%nat eqn:E.
    + apply Nat.ltb_lt in E. apply SSorted_cons.
      * by apply SSorted_cons.
      * apply Forall_cons. split; [lia|].
        eapply Forall_impl; [exact Hh|]. simpl. intros; lia.
    + apply Nat.ltb_ge in E. apply SSorted_cons; [done|].
      rewrite insert_by_freq_perm. by apply Forall_cons.
Qed.

Lemma sorted_by_freq_spec (items : list (string * nat)) :
  sorted_by_freq items ≡ₚ items
  /\ StronglySorted (fun a b => (snd b <= snd a)%nat) (sorted_by_freq items).
Proof.
  unfold sorted_by_freq.
  assert (forall acc,
            StronglySorted (fun a b => (snd b <= snd a)%nat) acc ->
            fold_left (fun acc x => insert_by_freq x acc) items acc
            ≡ₚ acc ++ items
            /\ StronglySorted (fun a b => (snd b <= snd a)%nat)
                 (fold_left (fun acc x => insert_by_freq x acc) items acc))
    as H.
  { induction items as [|x items IH]; intros acc Hs; simpl.
    - by rewrite app_nil_r.
    - destruct (IH (insert_by_freq x acc)) as [H1 H2];
        [by apply insert_by_freq_sorted|].
      split; [|done]. rewrite H1, insert_by_freq_perm. simpl.
      apply Permutation_middle. }
  apply (H []). apply SSorted_nil.
Qed.

Lemma StronglySorted_take {A} (R : A -> A -> Prop) (n : nat) (l : list A) :
  StronglySorted R l -> StronglySorted R (firstn n l).
Proof.
  intros H. rewrite <- (take_drop n l) in H.
  by apply StronglySorted_app_1_l in H.
Qed.

Lemma StronglySorted_on {A} (R R' : A -> A -> Prop) (P : A -> Prop)
  (l : list A) :
  (forall a b, P a -> P b -> R a b -> R' a b) ->
  Forall P l -> StronglySorted R l -> StronglySorted R' l.
Proof.
  intros HR HP Hs. induction Hs as [|a l Hs IH Ha]; [apply SSorted_nil|].
  apply Forall_cons in HP as [Pa HP]. apply SSorted_cons; [by apply IH|].
  rewrite Forall_forall in Ha, HP |- *. intros b Hb.
  apply HR; [done|by apply HP|by apply Ha].
Qed.

(** The words of a text are made of characters of the text. *)
Lemma runs_aux_chars q p (cur s : string) :
  all_chars q cur = true -> all_chars q s = true ->
  Forall (fun w => all_chars q w = true) (runs_aux p cur s).
Proof.
  revert cur. induction s as [|c s IH]; intros cur Hc Hs; simpl.
  - destruct cur; [apply Forall_nil_2|by apply Forall_singleton].
  - simpl in Hs. apply andb_true_iff in Hs as [Hqc Hs].
    destruct (p c).
    + apply IH; [|done]. rewrite all_chars_app, Hc. simpl. by rewrite Hqc.
    + destruct cur; [by apply IH|]. apply Forall_cons. split; [done|].
      by apply IH.
Qed.

Lemma lower_no_upper (s : string) :
  all_chars (fun c => negb (is_upper c)) (lower s) = true.
Proof.
  induction s as [|c s IH]; [done|]. simpl. rewrite IH, andb_true_r.
  by_cases c.
Qed.

Lemma findall_words_lower (s w : string) :
  w ∈ findall_words (lower s) ->
  all_chars is_lower w = true /\ (3 <= String.length w)%nat.
Proof.
  unfold findall_words. intros H%list_elem_of_In.
  apply filter_In in H as [Hin [Ha Hl]%andb_true_iff].
  apply Nat.leb_le in Hl. split; [|done].
  pose proof (runs_aux_chars (fun c => negb (is_upper c)) is_word "" (lower s)
                eq_refl (lower_no_upper s)) as Hr.
  rewrite Forall_forall in Hr. apply list_elem_of_In, Hr in Hin.
  clear -Ha Hin. induction w as [|c w IH]; [done|]. simpl in *.
  apply andb_true_iff in Ha as [Hc Ha]. apply andb_true_iff in Hin as [Hu Hin].
  rewrite IH by done. rewrite andb_true_r. unfold is_alpha in Hc.
  by destruct (is_upper c).
Qed.

Lemma extract_keywords_spec (text : string) (max_keywords : nat) :
  let words := findall_words (lower text) in
  (List.length (extract_keywords text max_keywords) <= max_keywords)%nat
  /\ NoDup (extract_keywords text max_keywords)
  /\ Forall (fun k =>
               (4 <= String.length k)%nat
               /\ all_chars is_lower k = true
               /\ in_list k stop_words = false
               /\ (1 <= occ words k)%nat)
       (extract_keywords text max_keywords)
  /\ StronglySorted (fun a b => (occ words b <= occ words a)%nat)
       (extract_keywords text max_keywords).
Proof.
  intros words. unfold extract_keywords.
  destruct (nonempty text); cbn [negb];
    [|split_and!; [simpl; lia|apply NoDup_nil_2|apply Forall_nil_2|apply SSorted_nil]].
  fold words.
  destruct (count_words_spec words) as (Hnd & Hf & _).
  destruct (sorted_by_freq_spec (count_words words)) as [Hperm Hsort].
  set (sorted := sorted_by_freq (count_words words)) in *.
  assert (forall x n, (x, n) ∈ firstn max_keywords sorted ->
            counted x = true /\ n = occ words x /\ (1 <= n)%nat) as Hin.
  { intros x n Hx. apply Hf. rewrite <- Hperm.
    by apply (subseteq_take max_keywords sorted). }
  split_and!.
  - rewrite length_map. apply firstn_le_length.
  - rewrite <- firstn_map. eapply sublist_NoDup; [|apply sublist_take].
    change (map fst sorted) with (sorted.*1). by rewrite Hperm.
  - apply Forall_forall. intros k Hk.
    apply list_elem_of_fmap in Hk as ([x n] & -> & Hx). simpl.
    destruct (Hin x n Hx) as ([Hs Hl]%andb_true_iff & -> & Hn).
    apply Nat.ltb_lt in Hl. apply negb_true_iff in Hs.
    split_and!; [lia| |done|done].
    apply (findall_words_lower text).
    apply list_elem_of_In, (count_occ_In string_dec). fold words. lia.
  - apply (StronglySorted_fmap fst
             (fun a b => (occ words (fst b) <= occ words (fst a))%nat));
      [done|].
    apply (StronglySorted_on (fun a b => (snd b <= snd a)%nat)
             (fun a b => (occ words (fst b) <= occ words (fst a))%nat)
             (fun a => snd a = occ words (fst a))).
    + intros a b Ha Hb. rewrite Ha, Hb. done.
    + apply Forall_forall. intros [x n] Hx. simpl.
      by destruct (Hin x n Hx) as (_ & ? & _).
    + by apply StronglySorted_take.
Qed.

End Keywords.

(** X24.  [extract_keywords] returns at most [max_keywords] keywords, no
    keyword twice; every keyword is a word of the lowered text made of at
    least four lower-case letters that is not a stop word; and the
    keywords are in the order of their number of occurrences in the text,
    the most frequent first. *)
Theorem X24_extract_keywords_ranked :
  forall (text : string) (max_keywords : nat),
    (List.length (Helpers.extract_keywords text max_keywords)
     <= max_keywords)%nat
    /\ NoDup (Helpers.extract_keywords text max_keywords)
    /\ Forall
         (fun k =>
            (4 <= String.length k)%nat
            /\ Py.all_chars Py.is_lower k = true
            /\ Py.in_list k Helpers.stop_words = false
            /\ (1 <= count_occ string_dec
                       (Helpers.findall_words (Py.lower text)) k)%nat)
         (Helpers.extract_keywords text max_keywords)
    /\ StronglySorted
         (fun a b =>
            (count_occ string_dec (Helpers.findall_words (Py.lower text)) b
             <= count_occ string_dec
                  (Helpers.findall_words (Py.lower text)) a)%nat)
         (Helpers.extract_keywords text max_keywords).
Proof. intros text max_keywords. apply extract_keywords_spec. Qed.

Example extract_keywords_example :
  Helpers.extract_keywords
    "The crawler fetches pages; the crawler parses pages, and the Crawler stores text_1 data."
    2
  = ["crawler"; "pages"].
Proof. vm_compute. reflexivity. Qed.

(* ===================================================================== *)
(** * [robots.txt] *)
(* ===================================================================== *)

Local Open Scope string_scope.

Section Robots.
Import Py UrlParse Helpers.

Context {F : Type} (float : string -> option F) (user_agent : string).

Implicit Types (st : option string * Rules F) (raw line : string).

(** A line that opens a group. *)
Definition opens_group (raw : string) : bool :=
  startswith (lower (strip raw)) "user-agent:".

Lemma fold_left_inv {A B} (step : A -> B -> A) (I : A -> Prop) (l : list B) a :
  (forall a b, b ∈ l -> I a -> I (step a b)) -> I a -> I (fold_left step l a).
Proof.
  revert a. induction l as [|b l IH]; intros a Hs Ha; simpl; [done|].
  apply IH.
  - intros a' b' Hb'. apply Hs. by right.
  - apply Hs; [left|done].
Qed.

Lemma directive_value_stripped (line : string) :
  strip (directive_value line) = directive_value line.
Proof.
  unfold directive_value. destruct (split1 ":" line) as [[a v]|]; [|done].
  apply strip_idem.
Qed.

Opaque Py.startswith Py.lower Py.strip Helpers.directive_value.

(** Every entry of the rules is a directive value that is not empty. *)
Definition entries_ok (rules : Rules F) : Prop :=
  Forall (fun p => p <> "" /\ strip p = p)
    (allowed rules ++ disallowed rules ++ sitemap rules)%list.

Lemma robots_line_entries st raw :
  entries_ok st.2 -> entries_ok (robots_line float user_agent st raw).2.
Proof.
  destruct st as [cur rules]. unfold robots_line, entries_ok. simpl.
  intros H.
  assert (forall line, nonempty (directive_value line) = true ->
            directive_value line <> ""
            /\ strip (directive_value line) = directive_value line) as Hv.
  { intros line Hn. split; [by apply nonempty_true|].
    apply directive_value_stripped. }
  repeat match goal with
         | |- context [if ?b then _ else _] => destruct b eqn:?
         | |- context [match float ?x with _ => _ end] => destruct (float x)
         end; simpl; try done.
  - apply Forall_app in H as (H1 & (H2 & H3)%Forall_app).
    repeat (apply Forall_app; split); try done.
    apply Forall_singleton. by apply Hv.
  - apply Forall_app in H as (H1 & (H2 & H3)%Forall_app).
    repeat (apply Forall_app; split); try done.
    apply Forall_singleton. by apply Hv.
  - apply Forall_app in H as (H1 & (H2 & H3)%Forall_app).
    repeat (apply Forall_app; split); try done.
    apply Forall_singleton. by apply Hv.
Qed.

(** Outside every group only sitemaps are recorded. *)
Definition outside (st : option string * Rules F) : Prop :=
  st.1 = None /\ allowed st.2 = [] /\ disallowed st.2 = []
  /\ crawl_delay st.2 = None.

Lemma robots_line_outside st raw :
  opens_group raw = false -> outside st ->
  outside (robots_line float user_agent st raw).
Proof.
  destruct st as [cur rules]. unfold robots_line, outside, opens_group. simpl.
  intros Hg (-> & H1 & H2 & H3). rewrite Hg. simpl.
  repeat match goal with
         | |- context [if ?b then _ else _] => destruct b eqn:?
         end; simpl; done.
Qed.

(** Inside groups that apply no sitemap is recorded. *)
Definition inside (st : option string * Rules F) : Prop :=
  applies st.1 user_agent = true /\ sitemap st.2 = [].

Lemma robots_line_inside st raw :
  (opens_group raw = true ->
   applies (Some (directive_value (strip raw))) user_agent = true) ->
  inside st -> inside (robots_line float user_agent st raw).
Proof.
  destruct st as [cur rules]. unfold robots_line, inside, opens_group. simpl.
  intros Hg (Ha & Hs). rewrite Ha.
  destruct (negb (nonempty (strip raw)) || startswith (strip raw) "#");
    [done|].
  destruct (startswith (lower (strip raw)) "user-agent:"); [by auto|].
  repeat match goal with
         | |- context [if ?b then _ else _] => destruct b eqn:?
         | |- context [match float ?x with _ => _ end] => destruct (float x)
         end; simpl; done.
Qed.

Lemma parse_robots_txt_fold (content : string) :
  parse_robots_txt float content user_agent
  = (fold_left (robots_line float user_agent) (split newline content)
       (None, mkRules [] [] None [])).2.
Proof.
  unfold parse_robots_txt. destruct content as [|c s]; [|done].
  reflexivity.
Qed.

Transparent Py.startswith Py.lower Py.strip Helpers.directive_value.

End Robots.

(** X25.  Every path and every sitemap URL that [parse_robots_txt]
    records is a directive value that is not empty and has no whitespace
    around it.  If no line of the file opens a group with [User-agent:],
    nothing is allowed or disallowed and there is no crawl delay:
    directives before the first group are not read. *)
Theorem X25_robots_rules_come_from_groups :
  forall (F : Type) (float : string -> option F)
         (robots_content user_agent : string),
    let rules := Helpers.parse_robots_txt float robots_content user_agent in
    Forall (fun p => p <> "" /\ Py.strip p = p)
      (Helpers.allowed rules ++ Helpers.disallowed rules
       ++ Helpers.sitemap rules)%list
    /\ (Forall
          (fun raw =>
             Py.startswith (Py.lower (Py.strip raw)) "user-agent:" = false)
          (Py.split Helpers.newline robots_content) ->
        Helpers.allowed rules = [] /\ Helpers.disallowed rules = []
        /\ Helpers.crawl_delay rules = None).
Proof.
  intros F float content ua rules. subst rules.
  rewrite parse_robots_txt_fold. split.
  - apply (fold_left_inv _ (fun st => entries_ok st.2)).
    + intros st raw _. apply robots_line_entries.
    + apply Forall_nil_2.
  - intros Hg. rewrite Forall_forall in Hg.
    apply (fold_left_inv _ outside).
    + intros st raw Hraw. apply robots_line_outside. by apply Hg.
    + done.
Qed.

(** X26.  A [Sitemap:] line is read only while no group applies.  If the
    file starts with a [User-agent:] line and every [User-agent:] line of
    the file names the given user agent or [*], no sitemap is recorded,
    whatever [Sitemap:] lines the file has. *)
Theorem X26_robots_sitemap_skipped_inside_groups :
  forall (F : Type) (float : string -> option F)
         (first rest user_agent : string),
    Py.mem Helpers.newline first = false ->
    Forall
      (fun raw =>
         Py.startswith (Py.lower (Py.strip raw)) "user-agent:" = true ->
         Helpers.applies (Some (Helpers.directive_value (Py.strip raw)))
           user_agent = true)
      (first :: Py.split Helpers.newline rest) ->
    Py.startswith (Py.lower (Py.strip first)) "user-agent:" = true ->
    Helpers.sitemap
      (Helpers.parse_robots_txt float
         (first ++ String Helpers.newline rest) user_agent) = [].
Proof.
  intros F float first rest ua Hnl Hall Hfirst.
  rewrite parse_robots_txt_fold, (split_app _ _ _ Hnl).
  apply Forall_cons in Hall as [H1 Hall]. rewrite Forall_forall in Hall.
  cbn [fold_left].
  assert (inside ua (Helpers.robots_line float ua
                       (None, Helpers.mkRules [] [] None []) first)) as Hin.
  { unfold Helpers.robots_line, inside. rewrite Hfirst.
    destruct (Py.strip first) as [|c s] eqn:Es; [discriminate|].
    cbn [UrlParse.nonempty negb orb].
    destruct (Py.startswith (String c s) "#") eqn:Eh.
    - exfalso. apply startswith_char in Eh as [s' [= -> _]].
      simpl in Hfirst. discriminate.
    - simpl. split; [by apply H1|done]. }
  apply (fold_left_inv _ (inside ua)); [|done].
  intros st raw Hraw. apply robots_line_inside. by apply Hall.
Qed.

Lemma X26_robots_sitemap_skipped_inside_groups_witness :
  Helpers.sitemap
    (Helpers.parse_robots_txt (fun _ : string => @None nat)
       ("User-agent: *"
        ++ String Helpers.newline
             ("Disallow: /private" ++ String Helpers.newline
                "Sitemap: https://example.com/sitemap.xml"))
       "*") = [].
Proof.
  apply (X26_robots_sitemap_skipped_inside_groups nat (fun _ => None)
           "User-agent: *").
  - vm_compute. reflexivity.
  - repeat (apply Forall_cons; split; [vm_compute; try done|]);
      try apply Forall_nil_2.
  - vm_compute. reflexivity.
Defined.

Example robots_sitemap_before_group :
  Helpers.parse_robots_txt (fun _ : string => @None nat)
    ("Sitemap: https://example.com/sitemap.xml"
     ++ String Helpers.newline
          ("User-agent: *" ++ String Helpers.newline "Disallow: /private"))
    "*"
  = Helpers.mkRules [] ["/private"] None ["https://example.com/sitemap.xml"].
Proof. vm_compute. reflexivity. Qed.

Local Open Scope list_scope.

Local Open Scope string_scope.

Section RobotsUrl.
Import Py UrlParse Helpers.

(** What [urlparse] delivers as scheme and host. *)
Lemma urlparse_host_facts (u : string) r :
  urlparse u = Some r -> netloc r <> "" ->
  scheme_ok (scheme r)
  /\ all_chars (fun c => negb (is_delim c)) (netloc r) = true
  /\ brackets_ok (netloc r) = true
  /\ all_chars is_safe (netloc r) = true.
Proof.
  intros Hp Hn. unfold urlparse in Hp.
  destruct (urlsplit u) as [sr|] eqn:Hs; [|discriminate].
  assert (scheme r = s_scheme sr /\ netloc r = s_netloc sr) as [Es En].
  { destruct (in_list (s_scheme sr) uses_params && mem ";" (s_path sr));
      [destruct (splitparams (s_path sr))|]; by injection Hp as <-. }
  rewrite Es, En in *. clear Hp Es En r.
  unfold urlsplit in Hs.
  set (u1 := remove is_unsafe (lstrip is_c0_or_space u)) in Hs.
  assert (all_chars is_safe u1 = true) as Hsafe by apply all_chars_remove.
  destruct (split_scheme u1) as [sch rest1] eqn:E1.
  apply split_scheme_spec in E1 as [Hsch Hsub1].
  destruct (if startswith rest1 "//" then splitnetloc rest1 else ("", rest1))
    as [net rest3] eqn:E2.
  destruct (negb (brackets_ok net)) eqn:Eb; [discriminate|].
  apply negb_false_iff in Eb.
  destruct (match split1 "#" rest3 with
            | Some (a, b) => (a, b)
            | None => (rest3, "")
            end) as [url4 frag].
  destruct (match split1 "?" url4 with
            | Some (a, b) => (a, b)
            | None => (url4, "")
            end) as [pth qry].
  injection Hs as <-. cbn [s_scheme s_netloc] in *.
  destruct (startswith rest1 "//") eqn:Esw; [|by injection E2 as <- <-].
  apply startswith_two in Esw as [rest2 ->]. cbn [splitnetloc] in E2.
  apply span_spec in E2 as (E2 & Hnd & _).
  split_and!; [done..|].
  apply Hsub1 in Hsafe. cbn [all_chars] in Hsafe.
  apply andb_true_iff in Hsafe as [_ [_ Hq]%andb_true_iff].
  rewrite E2, all_chars_app in Hq. by apply andb_true_iff in Hq as [? _].
Qed.

Lemma create_robots_txt_url_spec (base_url : string) r :
  urlparse base_url = Some r -> scheme r <> "" -> netloc r <> "" ->
  exists robots_url,
    create_robots_txt_url base_url = Some robots_url
    /\ robots_url = scheme r ++ "://" ++ netloc r ++ "/robots.txt"
    /\ urlparse robots_url
       = Some (mkParse (scheme r) (netloc r) "/robots.txt" "" "" "").
Proof.
  intros Hp Hs Hn. unfold create_robots_txt_url. rewrite Hp.
  eexists. split; [done|]. split; [done|].
  destruct (urlparse_host_facts _ _ Hp Hn) as (H1 & H2 & H3 & H4).
  assert (canonical (mkParse (scheme r) (netloc r) "/robots.txt" "" "" ""))
    as Hc by (unfold canonical; simpl; split_and!; try done; by right).
  rewrite <- (urlparse_canonical _ Hc). f_equal.
  rewrite (urlunparse_canonical _ Hc). simpl.
  rewrite (proj2 (nonempty_true _) Hs).
  by rewrite !append_assoc, append_nil_r.
Qed.

End RobotsUrl.

(** X27.  For a base URL that parses with a scheme and a host,
    [create_robots_txt_url] returns a URL that parses again: with the
    scheme and the host of the base URL, the path [/robots.txt] and
    nothing else; whatever path, query or fragment the base URL has is
    dropped, and the result is in the same domain as the base URL. *)
Theorem X27_robots_url_keeps_scheme_and_host :
  forall (base_url : string) (r : UrlParse.ParseResult),
    UrlParse.urlparse base_url = Some r ->
    UrlParse.scheme r <> "" ->
    UrlParse.netloc r <> "" ->
    exists robots_url,
      Helpers.create_robots_txt_url base_url = Some robots_url
      /\ UrlParse.urlparse robots_url
         = Some (UrlParse.mkParse (UrlParse.scheme r) (UrlParse.netloc r)
                   "/robots.txt" "" "" "")
      /\ Helpers.is_same_domain base_url robots_url = true.
Proof.
  intros base_url r Hp Hs Hn.
  destruct (create_robots_txt_url_spec base_url r Hp Hs Hn)
    as (robots_url & H1 & _ & H2).
  exists robots_url. split_and!; [done..|].
  by apply (is_same_domain_hosts base_url robots_url r _ Hp H2).
Qed.

Lemma X27_robots_url_keeps_scheme_and_host_witness :
  UrlParse.urlparse Examples.tracked_url = Some Examples.tracked_parse
  /\ exists robots_url,
       Helpers.create_robots_txt_url Examples.tracked_url = Some robots_url
       /\ UrlParse.urlparse robots_url
          = Some (UrlParse.mkParse "http" "Example.com" "/robots.txt" "" "" "").
Proof.
  assert (UrlParse.urlparse Examples.tracked_url = Some Examples.tracked_parse)
    as H1 by (vm_compute; reflexivity).
  split; [exact H1|].
  destruct (X27_robots_url_keeps_scheme_and_host Examples.tracked_url
              Examples.tracked_parse H1 ltac:(discriminate) ltac:(discriminate))
    as (robots_url & Ha & Hb & _).
  exists robots_url. split; [exact Ha|exact Hb].
Defined.

Local Open Scope list_scope.

(* ===================================================================== *)
(** * The queries of the store *)
(* ===================================================================== *)

Section Queries.
Import Database ContentProcessor.

Implicit Types (f : Faults) (db : t) (rows : list Row) (r h : Row).

(** An order that [ORDER BY] can sort by: [before] is asymmetric, and
    "not before" is transitive. *)
Definition sorts (before : Row -> Row -> bool) : Prop :=
  (forall a b, before a b = true -> before b a = false)
  /\ (forall a b c, before b a = false -> before c b = false ->
                    before c a = false).

Lemma insert_row_perm before r rows : insert_row before r rows ≡ₚ r :: rows.
Proof.
  induction rows as [|h rows IH]; simpl; [done|].
  destruct (before r h); [done|]. rewrite IH. apply Permutation_swap.
Qed.

Lemma insert_row_sorted before r rows :
  sorts before ->
  StronglySorted (fun a b => before b a = false) rows ->
  StronglySorted (fun a b => before b a = false) (insert_row before r rows).
Proof.
  intros [Hasym Htrans]. induction 1 as [|h rows Hs IH Hh]; simpl.
  - apply SSorted_cons; [apply SSorted_nil|apply Forall_nil_2].
  - destruct (before r h) eqn:E.
    + apply SSorted_cons; [by apply SSorted_cons|].
      apply Forall_cons. split; [by apply Hasym|].
      eapply Forall_impl; [exact Hh|]. simpl. intros b Hb.
      apply (Htrans r h b); [by apply Hasym|done].
    + apply SSorted_cons; [done|].
      rewrite insert_row_perm. by apply Forall_cons.
Qed.

Lemma order_by_spec before rows :
  order_by before rows ≡ₚ rows
  /\ (sorts before ->
      StronglySorted (fun a b => before b a = false) (order_by before rows)).
Proof.
  unfold order_by.
  assert (forall acc,
            fold_left (fun acc r => insert_row before r acc) rows acc
            ≡ₚ acc ++ rows
            /\ (sorts before ->
                StronglySorted (fun a b => before b a = false) acc ->
                StronglySorted (fun a b => before b a = false)
                  (fold_left (fun acc r => insert_row before r acc) rows acc)))
    as H.
  { induction rows as [|x rows IH]; intros acc; simpl.
    - by rewrite app_nil_r.
    - destruct (IH (insert_row before x acc)) as [H1 H2]. split.
      + rewrite H1, insert_row_perm. simpl. apply Permutation_middle.
      + intros Hs Ha. apply H2; [done|]. by apply insert_row_sorted. }
  destruct (H []) as [H1 H2]. split; [done|].
  intros Hs. apply H2; [done|apply SSorted_nil].
Qed.

Lemma sql_limit_spec (limit : Z) rows :
  (exists rest, rows = sql_limit limit rows ++ rest)
  /\ ((0 <= limit)%Z -> (Z.of_nat (List.length (sql_limit limit rows)) <= limit)%Z)
  /\ ((limit < 0)%Z \/ (Z.of_nat (List.length rows) <= limit)%Z ->
      sql_limit limit rows = rows).
Proof.
  unfold sql_limit. destruct (Z.ltb_spec limit 0) as [Hneg|Hpos].
  - split_and!; [exists []; by rewrite app_nil_r|lia|done].
  - split_and!.
    + exists (skipn (Z.to_nat limit) rows). by rewrite firstn_skipn.
    + intros _. pose proof (firstn_le_length (Z.to_nat limit) rows). lia.
    + intros [H|H]; [lia|]. apply firstn_all2. lia.
Qed.

(** The order of the timestamps. *)
Lemma string_ltb_asym (a b : string) :
  String.ltb a b = true -> String.ltb b a = false.
Proof.
  unfold String.ltb. rewrite (String.compare_antisym a b).
  by destruct (String.compare b a).
Qed.

Lemma string_compare_gt (a b : string) :
  String.compare a b = Gt -> String.compare b a = Lt.
Proof.
  rewrite (String.compare_antisym a b). by destruct (String.compare b a).
Qed.

Lemma string_geb_trans (a b c : string) :
  String.ltb a b = false -> String.ltb b c = false -> String.ltb a c = false.
Proof.
  unfold String.ltb. intros H1 H2.
  destruct (String.compare a c) eqn:Eac; try done.
  destruct (String.compare a b) eqn:Eab; try done.
  - apply String.compare_eq_iff in Eab as ->. by rewrite Eac in H2.
  - apply string_compare_gt in Eab.
    destruct (String.compare b c) eqn:Ebc; try done.
    + apply String.compare_eq_iff in Ebc as ->.
      rewrite (String.compare_antisym a c), Eab in Eac. done.
    + apply string_compare_gt in Ebc.
      pose proof (string_compare_trans _ _ _ Ebc Eab) as Hca.
      rewrite (String.compare_antisym a c), Hca in Eac. done.
Qed.

Lemma newer_sorts : sorts newer.
Proof.
  unfold newer. split.
  - intros a b. apply string_ltb_asym.
  - intros a b c H1 H2. by apply (string_geb_trans _ (extracted_at (doc b))).
Qed.

Lemma search_before_sorts (query : string) : sorts (search_before query).
Proof.
  unfold search_before. split.
  - intros a b [H|[H1 H2]%andb_true_iff]%orb_true_iff; apply orb_false_iff.
    + apply Nat.ltb_lt in H. split; [apply Nat.ltb_ge; lia|].
      apply andb_false_iff. left. apply Nat.eqb_neq. lia.
    + apply Nat.eqb_eq in H1. split; [apply Nat.ltb_ge; lia|].
      apply andb_false_iff. right. by apply (proj1 newer_sorts).
  - intros a b c [H1 H1']%orb_false_iff [H2 H2']%orb_false_iff.
    apply Nat.ltb_ge in H1, H2. apply orb_false_iff.
    split; [apply Nat.ltb_ge; lia|].
    destruct (search_rank query c =? search_rank query a)%nat eqn:E; [|done].
    apply Nat.eqb_eq in E. simpl.
    assert (search_rank query b = search_rank query a) as Eb by lia.
    rewrite Eb, Nat.eqb_refl in H1'. rewrite E, <- Eb, Nat.eqb_refl in H2'.
    simpl in *. by apply (proj2 newer_sorts a b c).
Qed.

(** The rows a query returns from the rows [src] that its [WHERE]
    clause selects. *)
Lemma query_spec before (limit : Z) (src : list Row) :
  let out := sql_limit limit (order_by before src) in
  (forall r, r ∈ out -> r ∈ src)
  /\ (sorts before -> StronglySorted (fun a b => before b a = false) out)
  /\ ((0 <= limit)%Z -> (Z.of_nat (List.length out) <= limit)%Z)
  /\ ((limit < 0)%Z \/ (Z.of_nat (List.length src) <= limit)%Z ->
      out ≡ₚ src).
Proof.
  intros out. subst out.
  destruct (order_by_spec before src) as [Hperm Hsort].
  destruct (sql_limit_spec limit (order_by before src)) as ([rest Hr] & Hb & Ha).
  split_and!.
  - intros r Hr'. rewrite <- Hperm, Hr. apply elem_of_app. by left.
  - intros Hs. specialize (Hsort Hs). rewrite Hr in Hsort.
    by apply StronglySorted_app_1_l in Hsort.
  - done.
  - intros H. rewrite Ha; [done|]. by rewrite Hperm.
Qed.

Lemma filter_length_le {A} (p : A -> bool) (l : list A) :
  (List.length (List.filter p l) <= List.length l)%nat.
Proof.
  induction l as [|x l IH]; simpl; [done|]. destruct (p x); simpl; lia.
Qed.









End Queries.

(** X28.  What [get_recent_content] returns are rows of the table, the
    newest first ([extracted_at] never increases along the list), at most
    [limit] of them when [limit] is not negative; and when nothing fails
    and the limit is negative or not below the number of rows, it returns
    every row.  This holds in whatever order the engine visits the rows,
    which decides between rows with the same [extracted_at] only. *)
Theorem X28_get_recent_content_newest_first :
  forall (f : Database.Faults) (scan : Database.Store -> list Database.Row)
         (limit : Z) (db : Database.t) (items : list Database.Item),
    scan (Database.table db) ≡ₚ Database.table db ->
    (Database.get_recent_content f scan limit db).1 = Database.Returned items ->
    (forall item, item ∈ items ->
       exists r, r ∈ Database.table db /\ item = Database.item_of_row r)
    /\ StronglySorted
         (fun a b =>
            String.ltb (Database.i_extracted_at a) (Database.i_extracted_at b)
            = false) items
    /\ ((0 <= limit)%Z -> (Z.of_nat (List.length items) <= limit)%Z)
    /\ (Database.statement_fails f = false ->
        (limit < 0)%Z \/ (Z.of_nat (List.length (Database.table db)) <= limit)%Z ->
        items ≡ₚ map Database.item_of_row (Database.table db)).
Proof.
  intros f scan limit db items Hscan. unfold Database.get_recent_content.
  destruct (Database.init_db f db) as [db1|] eqn:Ei; [|discriminate].
  apply init_db_table in Ei as [Ht _].
  destruct (Database.statement_fails f).
  { intros [= <-]. split_and!; [by intros ? ?%elem_of_nil|apply SSorted_nil|
                                simpl; lia|done]. }
  simpl. intros [= <-]. rewrite Ht.
  destruct (query_spec Database.newer limit (scan (Database.table db)))
    as (H1 & H2 & H3 & H4).
  split_and!.
  - intros item (r & -> & Hr)%list_elem_of_fmap. exists r.
    split; [|done]. rewrite <- Hscan. by apply H1.
  - apply (StronglySorted_fmap _ (fun a b => Database.newer b a = false));
      [done|]. apply H2, newer_sorts.
  - by rewrite length_map.
  - intros _ Hl. rewrite H4; [by rewrite Hscan|].
    by rewrite (Permutation_length Hscan).
Qed.

Lemma X28_get_recent_content_newest_first_witness :
  rev (Database.table Examples.dated_store)
  ≡ₚ Database.table Examples.dated_store
  /\ (Database.get_recent_content Database.no_faults (@rev Database.Row) 2
        Examples.dated_store).1
     = Database.Returned
         (map Database.item_of_row [Examples.row_cooking; Examples.row_notes])
  /\ (Database.get_recent_content Database.no_faults (fun rows => rows) 2
        Examples.dated_store).1
     = Database.Returned
         (map Database.item_of_row [Examples.row_cooking; Examples.row_notes])
  /\ StronglySorted
       (fun a b =>
          String.ltb (Database.i_extracted_at a) (Database.i_extracted_at b)
          = false)
       (map Database.item_of_row [Examples.row_cooking; Examples.row_notes]).
Proof.
  assert (rev (Database.table Examples.dated_store)
          ≡ₚ Database.table Examples.dated_store) as Hs
    by apply Permutation_sym, Permutation_rev.
  assert ((Database.get_recent_content Database.no_faults (@rev Database.Row)
             2 Examples.dated_store).1
          = Database.Returned
              (map Database.item_of_row
                 [Examples.row_cooking; Examples.row_notes])) as H
    by (vm_compute; reflexivity).
  split; [exact Hs|]. split; [exact H|]. split; [vm_compute; reflexivity|].
  exact (proj1 (proj2 (X28_get_recent_content_newest_first _ _ _ _ _ Hs H))).
Defined.

(** X29.  Every row [search_content] returns matches the query in its
    title, its description or its content; the rows whose title matches
    come first, then those whose description matches, then the others,
    and within each of the three the newest first; at most [limit] rows
    are returned when [limit] is not negative; and when nothing fails and
    the limit is negative or not below the number of rows, every matching
    row is returned.  This holds in whatever order the engine visits the
    rows, which decides between rows of the same rank and [extracted_at]
    only. *)
Theorem X29_search_content_ranked :
  forall (f : Database.Faults) (scan : Database.Store -> list Database.Row)
         (query : string) (limit : Z) (db : Database.t)
         (items : list Database.Item),
    scan (Database.table db) ≡ₚ Database.table db ->
    (Database.search_content f scan query limit db).1
    = Database.Returned items ->
    let rank := fun i : Database.Item =>
      if Database.like_term query (Database.i_title i) then 1%nat
      else if Database.like_term query (Database.i_description i) then 2%nat
      else 3%nat in
    Forall
      (fun i =>
         Database.like_term query (Database.i_title i)
         || Database.like_term query (Database.i_description i)
         || Database.like_term query (Some (Database.i_content i)) = true)
      items
    /\ StronglySorted
         (fun a b =>
            (rank a <= rank b)%nat
            /\ (rank a = rank b ->
                String.ltb (Database.i_extracted_at a)
                  (Database.i_extracted_at b) = false)) items
    /\ ((0 <= limit)%Z -> (Z.of_nat (List.length items) <= limit)%Z)
    /\ (Database.statement_fails f = false ->
        (limit < 0)%Z \/ (Z.of_nat (List.length (Database.table db)) <= limit)%Z ->
        forall r, r ∈ Database.table db ->
                  Database.matches_query query r = true ->
                  Database.item_of_row r ∈ items).
Proof.
  intros f scan query limit db items Hscan. unfold Database.search_content.
  destruct (Database.init_db f db) as [db1|] eqn:Ei; [|discriminate].
  apply init_db_table in Ei as [Ht _].
  destruct (Database.statement_fails f).
  { intros [= <-].
    split_and!; [apply Forall_nil_2|apply SSorted_nil|simpl; lia|done]. }
  cbn [fst]. intros [= <-]. rewrite Ht.
  set (src := List.filter (Database.matches_query query)
                (scan (Database.table db))).
  destruct (query_spec (Database.search_before query) limit src)
    as (H1 & H2 & H3 & H4).
  split_and!.
  - apply Forall_forall. intros item (r & -> & Hr)%list_elem_of_fmap.
    apply H1, list_elem_of_In, filter_In in Hr as [_ Hr]. exact Hr.
  - apply (StronglySorted_fmap _
             (fun a b => Database.search_before query b a = false));
      [|apply H2, search_before_sorts].
    intros a b [Ha Hb]%orb_false_iff. apply Nat.ltb_ge in Ha.
    split; [exact Ha|]. intros E.
    change (Database.search_rank query a = Database.search_rank query b) in E.
    rewrite E, Nat.eqb_refl in Hb. exact Hb.
  - by rewrite length_map.
  - intros _ Hl r Hr Hm. apply list_elem_of_fmap. exists r. split; [done|].
    rewrite H4.
    + apply list_elem_of_In, filter_In.
      split; [apply list_elem_of_In; by rewrite Hscan|done].
    + destruct Hl as [Hl|Hl]; [by left|right].
      pose proof (filter_length_le (Database.matches_query query)
                    (scan (Database.table db))) as Hf.
      rewrite (Permutation_length Hscan) in Hf. subst src. lia.
Qed.



Lemma X29_search_content_ranked_witness :
  rev (Database.table Examples.dated_store)
  ≡ₚ Database.table Examples.dated_store
  /\ (Database.search_content Database.no_faults (@rev Database.Row) "rust" 3
        Examples.dated_store).1
     = Database.Returned
         (map Database.item_of_row
            [Examples.row_trusted; Examples.row_handbook;
             Examples.row_languages])
  /\ (Database.search_content Database.no_faults (fun rows => rows) "rust" 3
        Examples.dated_store).1
     = Database.Returned
         (map Database.item_of_row
            [Examples.row_trusted; Examples.row_handbook;
             Examples.row_languages])
  /\ Forall
       (fun i =>
          Database.like_term "rust" (Database.i_title i)
          || Database.like_term "rust" (Database.i_description i)
          || Database.like_term "rust" (Some (Database.i_content i)) = true)
       (map Database.item_of_row
          [Examples.row_trusted; Examples.row_handbook;
           Examples.row_languages]).
Proof.
  assert (rev (Database.table Examples.dated_store)
          ≡ₚ Database.table Examples.dated_store) as Hs
    by apply Permutation_sym, Permutation_rev.
  assert ((Database.search_content Database.no_faults (@rev Database.Row)
             "rust" 3 Examples.dated_store).1
          = Database.Returned
              (map Database.item_of_row
                 [Examples.row_trusted; Examples.row_handbook;
                  Examples.row_languages])) as H
    by (vm_compute; reflexivity).
  split; [exact Hs|]. split; [exact H|]. split; [vm_compute; reflexivity|].
  exact (proj1 (X29_search_content_ranked _ _ _ _ _ _ Hs H)).
Defined.

Section Statistics.
Import Database ContentProcessor.

Implicit Types (rows : list Row) (gs : list (list string * nat)).

(** The groups of [GROUP BY tags]: every group holds the tags of a row,
    counts at least one row, and the counts add up to the number of
    rows. *)
Definition groups_of rows gs : Prop :=
  list_sum (map snd gs) = List.length rows
  /\ Forall (fun g => (1 <= snd g)%nat
                      /\ exists r, r ∈ rows /\ fst g = tags (doc r)) gs.

Lemma bump_sum (t : list string) gs :
  list_sum (map snd (bump t gs)) = S (list_sum (map snd gs)).
Proof.
  induction gs as [|[t' c] gs IH]; simpl; [done|].
  destruct (tags_eqb t t'); simpl; [done|]. rewrite IH. lia.
Qed.

Lemma bump_Forall (P : list string * nat -> Prop) (t : list string) gs :
  P (t, 1%nat) -> (forall t' c, P (t', c) -> P (t', S c)) ->
  Forall P gs -> Forall P (bump t gs).
Proof.
  intros H1 HS. induction 1 as [|[t' c] gs Hg Hall IH]; simpl.
  - by apply Forall_singleton.
  - destruct (tags_eqb t t'); apply Forall_cons; split; auto.
Qed.

Lemma bump_groups rows gs r :
  groups_of rows gs -> groups_of (rows ++ [r]) (bump (tags (doc r)) gs).
Proof.
  intros [Hsum Hall]. split.
  - rewrite bump_sum, Hsum, length_app. simpl. lia.
  - apply bump_Forall.
    + split; [simpl; lia|]. exists r. split; [|done].
      apply elem_of_app. right. left.
    + intros t' c [Hc Hr]. split; [simpl in *; lia|done].
    + eapply Forall_impl; [exact Hall|]. intros g (? & r0 & ? & ?).
      split; [done|]. exists r0. split; [|done]. apply elem_of_app. by left.
Qed.

Lemma group_by_tags_spec rows :
  exists counted,
    groups_of counted (group_by_tags rows)
    /\ (forall r, r ∈ counted -> r ∈ rows)
    /\ (List.length counted <= List.length rows)%nat.
Proof.
  unfold group_by_tags.
  set (src := List.filter (fun r => negb (tags_eqb (tags (doc r)) [])) rows).
  exists src. split_and!.
  - assert (forall seen gs,
              groups_of seen gs ->
              groups_of (seen ++ src)
                (fold_left (fun gs r => bump (tags (doc r)) gs) src gs)) as H.
    { induction src as [|r l IH]; intros seen gs Hg; simpl.
      - by rewrite app_nil_r.
      - rewrite (cons_middle r seen l), app_assoc. apply IH.
        by apply bump_groups. }
    apply (H [] []). split; [done|apply Forall_nil_2].
  - intros r Hr%list_elem_of_In. apply filter_In in Hr as [Hr _].
    by apply list_elem_of_In.
  - apply filter_length_le.
Qed.

Lemma insert_desc_perm g gs : insert_desc g gs ≡ₚ g :: gs.
Proof.
  induction gs as [|h gs IH]; simpl; [done|].
  destruct (snd h <? snd g)%nat; [done|]. rewrite IH. apply Permutation_swap.
Qed.

Lemma order_by_count_desc_perm gs : order_by_count_desc gs ≡ₚ gs.
Proof.
  unfold order_by_count_desc. induction gs as [|g gs IH]; simpl; [done|].
  by rewrite insert_desc_perm, IH.
Qed.

Lemma list_sum_elem (l : list nat) (x : nat) : x ∈ l -> (x <= list_sum l)%nat.
Proof. induction 1 as [x l|x y l _ IH]; simpl; lia. Qed.

Lemma get_stats_spec f (today : string) (db : t) (s : Stats) :
  (get_stats f today db).1 = Returned s ->
  (total_content s <= List.length (table db))%nat
  /\ (statement_fails f = false -> total_content s = List.length (table db))
  /\ (statement_fails f = true -> s = mkStats 0 0 [])
  /\ (content_today s <= total_content s)%nat
  /\ (List.length (top_tags s) <= 10)%nat
  /\ Forall (fun e =>
               (1 <= snd e <= total_content s)%nat
               /\ exists r, r ∈ table db /\ fst e ∈ tags (doc r))
       (top_tags s).
Proof.
  unfold get_stats. destruct (init_db f db) as [db1|] eqn:Ei; [|discriminate].
  apply init_db_table in Ei as [Ht _].
  destruct (statement_fails f).
  { intros [= <-]. simpl.
    split_and!; [lia|done|done|lia|lia|apply Forall_nil_2]. }
  cbn [fst]. intros [= <-]. rewrite Ht. cbn [total_content content_today top_tags].
  split_and!; [done|done|done|apply filter_length_le|apply firstn_le_length|].
  apply Forall_take.
  destruct (group_by_tags_spec (table db)) as (counted & [Hsum Hall] & Hsub & Hlen).
  apply Forall_forall. intros [tag n] He%list_elem_of_In.
  apply in_flat_map in He as ([t c] & Hg & He).
  apply in_map_iff in He as (tag' & [= -> <-] & Htag). simpl in *.
  apply list_elem_of_In, (subseteq_take 10) in Hg.
  rewrite order_by_count_desc_perm in Hg.
  pose proof Hg as Hg'. rewrite Forall_forall in Hall.
  apply Hall in Hg' as (Hc & r & Hr & Et). simpl in *.
  split.
  - split; [done|].
    assert (c ∈ map snd (group_by_tags (table db))) as Hin.
    { apply list_elem_of_fmap. by exists (t, c). }
    apply list_sum_elem in Hin. lia.
  - exists r. split; [by apply Hsub|]. rewrite <- Et. by apply list_elem_of_In.
Qed.

End Statistics.

(** X5.  The statistics [get_stats] returns: [total_content] is the
    number of rows when nothing fails; when a statement fails the
    statistics are zero, zero and no tags; [content_today] is at most
    [total_content], there are at most ten top tags, and every entry of
    [top_tags] is a tag of some row with a count between one and
    [total_content]. *)
Theorem X5_get_stats_bounds :
  forall (f : Database.Faults) (today : string) (db : Database.t)
         (s : Database.Stats),
    (Database.get_stats f today db).1 = Database.Returned s ->
    (Database.total_content s <= List.length (Database.table db))%nat
    /\ (Database.statement_fails f = false ->
        Database.total_content s = List.length (Database.table db))
    /\ (Database.statement_fails f = true -> s = Database.mkStats 0 0 [])
    /\ (Database.content_today s <= Database.total_content s)%nat
    /\ (List.length (Database.top_tags s) <= 10)%nat
    /\ Forall
         (fun e =>
            (1 <= snd e <= Database.total_content s)%nat
            /\ exists r,
                 r ∈ Database.table db
                 /\ fst e ∈ ContentProcessor.tags (Database.doc r))
         (Database.top_tags s).
Proof. exact get_stats_spec. Qed.

Lemma X5_get_stats_bounds_witness :
  (Database.get_stats Database.no_faults "2024-05-01" Examples.tagged_store).1
  = Database.Returned
      (Database.mkStats 3 3 [("python", 2); ("web", 2); ("python", 1)]%nat)
  /\ (List.length [("python", 2); ("web", 2); ("python", 1)]%nat <= 10)%nat.
Proof.
  assert ((Database.get_stats Database.no_faults "2024-05-01"
             Examples.tagged_store).1
          = Database.Returned
              (Database.mkStats 3 3
                 [("python", 2); ("web", 2); ("python", 1)]%nat)) as H
    by (vm_compute; reflexivity).
  split; [exact H|].
  exact (proj1 (proj2 (proj2 (proj2 (proj2
           (X5_get_stats_bounds _ _ _ _ H)))))).
Defined.

(* ===================================================================== *)
(** * Test vectors for the models of the helpers and of the queries         *)
(* ===================================================================== *)

(** [re.findall(r'\b[a-zA-Z]{3,}\b', ...)]: a word with a digit or an
    underscore in it gives no match. *)
Example findall_words_example :
  Helpers.findall_words "abc1 def gh_i jklm" = ["def"; "jklm"].
Proof. vm_compute. reflexivity. Qed.

Example truncate_text_examples :
  Helpers.truncate_text "hello brave new world" 13 "..." = "hello brave..."
  /\ Helpers.truncate_text "hellobravenewworld" 5 "..." = "hello..."
  /\ Helpers.truncate_text "hello" 5 "..." = "hello".
Proof. vm_compute. repeat split; reflexivity. Qed.

(** [LIKE] as SQLite evaluates it. *)
Example like_examples :
  Database.like "%ab%" "xAby" = true
  /\ Database.like "a_c" "abc" = true
  /\ Database.like "a_c" "ac" = false.
Proof. vm_compute. repeat split; reflexivity. Qed.

(** [json.dumps] of a list of tags; the quote is the character 34. *)
Example json_dumps_examples :
  let q := String (ascii_of_nat 34) "" in
  Database.json_dumps [] = "[]"
  /\ Database.json_dumps ["a"; "b c"]
     = ("[" ++ q ++ "a" ++ q ++ ", " ++ q ++ "b c" ++ q ++ "]")%string
  /\ Database.json_dumps [("tab" ++ String (ascii_of_nat 9) "here")%string]
     = ("[" ++ q ++ "tab\there" ++ q ++ "]")%string.
Proof. vm_compute. repeat split; reflexivity. Qed.

(** A topic that is part of the JSON syntax matches every row: the text
    of the [tags] column always holds a bracket. *)
Example topic_bracket_matches_all :
  (Database.get_content_by_topic Database.no_faults "[" (-1)
     Examples.tagged_store).1
  = Database.Returned
      (map Database.item_of_row (Database.table Examples.tagged_store)).
Proof. vm_compute. reflexivity. Qed.

(** Hosts are compared without regard to case, ports are part of the
    host, and a relative URL has no domain. *)
Example is_same_domain_examples :
  Helpers.is_same_domain "http://Example.com/a" "https://example.COM/b" = true
  /\ Helpers.is_same_domain "http://example.com:80/" "http://example.com/"
     = false
  /\ Helpers.is_same_domain "/a" "/a" = false.
Proof. vm_compute. repeat split; reflexivity. Qed.

(** The ad pattern [ad] is searched in the class values, so a tag of
    class [shadow] is removed with the advertisements. *)
Example clean_html_removes_shadow :
  ContentProcessor._clean_html
    (Examples.page
       [Bs4.Tag "div" [("class", "shadow")] [Bs4.Text "kept?"];
        Bs4.Tag "p" [] [Bs4.Text "text"]])
  = Examples.page [Bs4.Tag "p" [] [Bs4.Text "text"]].
Proof. vm_compute. reflexivity. Qed.
